(** * Turn decision: prompt construction, provider exchange, action extraction

    A shallow embedding of [sandboxes/scripts/take_turn_common.py].

    The Python functions of the script ([_extract_json_object],
    [_build_user_prompt], [_call_openrouter], [run_from_stdin]) are
    translated one by one.  The parts of the Python standard library they
    call ([str.strip], [str.find], [re.search], [json.loads], [json.dumps],
    [os.getenv], [os.path.join], [open], [urlopen]) are modelled in the
    modules [Str], [Re], [Json], [Posixpath] and by the record [World].

    A Python [str] is a sequence of Unicode code points, so text is a list
    of code points here, and character classes are the ones CPython uses. *)

From Stdlib Require Import List NArith ZArith Bool Ascii String Lia.
From Stdlib Require Import Permutation.
From Stdlib Require DecimalN DecimalPos DecimalFacts.
Import ListNotations.

Set Implicit Arguments.
Local Open Scope N_scope.

(** ** Text *)

Definition char := N.
Bind Scope N_scope with char.
Definition str := list char.

(** The code point of an ASCII character, and the text of an ASCII literal. *)
Definition ch (a : ascii) : char := N_of_ascii a.
Definition lit (x : string) : str := map ch (list_ascii_of_string x).

(** [isc a c]: the code point [c] is the ASCII character [a]. *)
Definition isc (a : ascii) (c : char) : bool := N.eqb c (ch a).

Definition in_range (lo hi c : char) : bool := (N.leb lo c && N.leb c hi)%bool.

Fixpoint str_eqb (a b : str) : bool :=
  match a, b with
  | [], [] => true
  | x :: a', y :: b' => N.eqb x y && str_eqb a' b'
  | _, _ => false
  end.

Module Str.

(** [Py_UNICODE_ISSPACE]: the characters [str.strip()] removes and the
    pattern [\s] matches on a [str]. *)
Definition isspace (c : char) : bool :=
  in_range 9 13 c || in_range 28 32 c || N.eqb c 133 || N.eqb c 160
  || N.eqb c 5760 || in_range 8192 8202 c || N.eqb c 8232 || N.eqb c 8233
  || N.eqb c 8239 || N.eqb c 8287 || N.eqb c 12288.

Fixpoint lstrip (s : str) : str :=
  match s with
  | c :: s' => if isspace c then lstrip s' else s
  | [] => []
  end.

(** [rstrip] keeps a character when it is not a space or when something is
    left after it. *)
Fixpoint rstrip (s : str) : str :=
  match s with
  | [] => []
  | c :: s' =>
      match rstrip s' with
      | [] => if isspace c then [] else [c]
      | r => c :: r
      end
  end.

(** [s.strip()] *)
Definition strip (s : str) : str := rstrip (lstrip s).

(** [s.startswith(p)], also giving what follows the prefix. *)
Fixpoint strip_prefix (p s : str) : option str :=
  match p, s with
  | [], _ => Some s
  | a :: p', b :: s' => if N.eqb a b then strip_prefix p' s' else None
  | _ :: _, [] => None
  end.

Definition startswith (p s : str) : bool :=
  match strip_prefix p s with Some _ => true | None => false end.

(** [s.find(c)] for a single character: the lowest index, [None] for -1. *)
Fixpoint find (c : char) (s : str) : option nat :=
  match s with
  | [] => None
  | x :: s' => if N.eqb x c then Some O else option_map S (find c s')
  end.

(** [s.rfind(c)] for a single character: the highest index. *)
Fixpoint rfind (c : char) (s : str) : option nat :=
  match s with
  | [] => None
  | x :: s' =>
      match rfind c s' with
      | Some i => Some (S i)
      | None => if N.eqb x c then Some O else None
      end
  end.

(** [s[i:j]] for [0 <= i], [0 <= j]. *)
Definition slice (i j : nat) (s : str) : str := firstn (j - i)%nat (skipn i s).

(** [needle in s] *)
Fixpoint contains (needle s : str) : bool :=
  startswith needle s ||
  match s with
  | [] => false
  | _ :: s' => contains needle s'
  end.

(** Lexicographic comparison of two [str] by code point, as [<] on [str]. *)
Fixpoint ltb (a b : str) : bool :=
  match a, b with
  | _, [] => false
  | [], _ :: _ => true
  | x :: a', y :: b' => N.ltb x y || (N.eqb x y && ltb a' b')
  end.

End Str.

(** ** Exceptions and results

    A call either returns a value or raises.  The script declares no
    exception class of its own: it raises [RuntimeError] and [ValueError]
    with a message and lets the library's exceptions through. *)

Inductive pyfloat : Type :=
| FNaN
| FInf (negative : bool)
| FDec (negative : bool) (m : N) (e : Z).

#[warnings="-register-all"]
Inductive json : Type :=
| JNull
| JBool (b : bool)
| JInt (n : Z)
| JFloat (f : pyfloat)
| JStr (s : str)
| JList (l : list json)
| JDict (d : list (str * json)).

Inductive exn : Type :=
| JSONDecodeError
| ValueError (msg : str)
| RuntimeError (msg : str)
| AttributeError
| KeyError (key : json)
| IndexError
| TypeError
| OSError (path : str)
| OutOfFuel.

Inductive result (A : Type) : Type :=
| Ok (a : A)
| Raise (e : exn).
Arguments Raise {A} e.

(** ** The json library

    [json.loads] as CPython's C scanner runs it and [json.dumps] as its
    encoder writes, on the values a JSON text denotes: [None], [bool],
    [int], [float], [str], [list] and [dict] with [str] keys.  A [dict]
    keeps its keys in insertion order, so it is an association list whose
    keys are distinct.

    A [float] is kept as the decimal number [m * 10^e] its literal
    denotes: the rounding to binary64 is not computed.  Results that
    depend on that rounding are stated for values without floats.

    Two limits of the interpreter are left out: the recursion limit, which
    ends the scan of a deeply nested text with [RecursionError], and the
    limit on the number of digits of an [int] read or written (4300 by
    default since Python 3.11), beyond which [ValueError] is raised. *)

Module Json.

Definition dict := list (str * json).

Fixpoint get (k : str) (d : dict) : option json :=
  match d with
  | [] => None
  | (k', v) :: d' => if str_eqb k' k then Some v else get k d'
  end.

(** [d[k] = v]: a new key goes last, a known key keeps its place. *)
Fixpoint set (k : str) (v : json) (d : dict) : dict :=
  match d with
  | [] => [(k, v)]
  | (k', v') :: d' =>
      if str_eqb k' k then (k', v) :: d' else (k', v') :: set k v d'
  end.

(** *** Scanning *)

Inductive scan (A : Type) : Type :=
| Scanned (a : A) (rest : str)
| DecodeError
| NoFuel.
Arguments DecodeError {A}.
Arguments NoFuel {A}.

Definition scan_map {A B : Type} (f : A -> B) (r : scan A) : scan B :=
  match r with
  | Scanned a rest => Scanned (f a) rest
  | DecodeError => DecodeError
  | NoFuel => NoFuel
  end.

(** [IS_WHITESPACE] of the scanner: space, tab, line feed, carriage return. *)
Definition is_whitespace (c : char) : bool :=
  N.eqb c 32 || N.eqb c 9 || N.eqb c 10 || N.eqb c 13.

Fixpoint skip_ws (s : str) : str :=
  match s with
  | c :: s' => if is_whitespace c then skip_ws s' else s
  | [] => []
  end.

Definition isdigit (c : char) : bool := in_range 48 57 c.

(** The longest prefix of [s] whose characters satisfy [p], and the rest. *)
Fixpoint span (p : char -> bool) (s : str) : str * str :=
  match s with
  | c :: s' =>
      if p c then let (a, b) := span p s' in (c :: a, b) else ([], s)
  | [] => ([], [])
  end.

Definition hexval (c : char) : option N :=
  if in_range 48 57 c then Some (c - 48)%N
  else if in_range 97 102 c then Some (c - 87)%N
  else if in_range 65 70 c then Some (c - 55)%N
  else None.

Definition hex4 (a b c d : char) : option N :=
  match hexval a, hexval b, hexval c, hexval d with
  | Some x, Some y, Some z, Some w =>
      Some (((x * 16 + y) * 16 + z) * 16 + w)%N
  | _, _, _, _ => None
  end.

Definition is_high_surrogate (c : N) : bool := in_range 55296 56319 c.
Definition is_low_surrogate (c : N) : bool := in_range 56320 57343 c.
Definition join_surrogates (hi lo : N) : N :=
  (65536 + (hi - 55296) * 1024 + (lo - 56320))%N.

(** The character a one-letter escape stands for. *)
Definition unescape (c : char) : option char :=
  if N.eqb c 34 then Some 34
  else if isc "\" c then Some 92
  else if isc "/" c then Some 47
  else if isc "b" c then Some 8
  else if isc "f" c then Some 12
  else if isc "n" c then Some 10
  else if isc "r" c then Some 13
  else if isc "t" c then Some 9
  else None.

Definition scan_cons (c : char) (r : scan str) : scan str :=
  scan_map (cons c) r.

(** [scanstring_unicode] in strict mode, started after the opening quote:
    the decoded text up to the closing quote, and what follows it. *)
Fixpoint scanstring (s : str) : scan str :=
  match s with
  | [] => DecodeError
  | c :: s1 =>
      if N.eqb c 34 then Scanned [] s1
      else if isc "\" c then
        match s1 with
        | [] => DecodeError
        | e :: s2 =>
            if isc "u" e then
              match s2 with
              | h1 :: h2 :: h3 :: h4 :: ((_ :: _) as s3) =>
                  match hex4 h1 h2 h3 h4 with
                  | None => DecodeError
                  | Some c1 =>
                      if is_high_surrogate c1 then
                        match s3 with
                        | b :: u :: g1 :: g2 :: g3 :: g4 :: ((_ :: _) as s4) =>
                            if isc "\" b && isc "u" u then
                              match hex4 g1 g2 g3 g4 with
                              | None => DecodeError
                              | Some c2 =>
                                  if is_low_surrogate c2
                                  then scan_cons (join_surrogates c1 c2)
                                         (scanstring s4)
                                  else scan_cons c1 (scanstring s3)
                              end
                            else scan_cons c1 (scanstring s3)
                        | _ => scan_cons c1 (scanstring s3)
                        end
                      else scan_cons c1 (scanstring s3)
                  end
              | _ => DecodeError
              end
            else
              match unescape e with
              | Some c' => scan_cons c' (scanstring s2)
              | None => DecodeError
              end
        end
      else if N.leb c 31 then DecodeError
      else scan_cons c (scanstring s1)
  end.

(** *** Numbers

    Decimal digits are read into a [Decimal.uint] and valued by
    [N.of_uint], as [int()] values them. *)

Fixpoint uint_of_digits (ds : str) : Decimal.uint :=
  match ds with
  | [] => Decimal.Nil
  | c :: ds' =>
      let u := uint_of_digits ds' in
      if N.eqb c 48 then Decimal.D0 u
      else if N.eqb c 49 then Decimal.D1 u
      else if N.eqb c 50 then Decimal.D2 u
      else if N.eqb c 51 then Decimal.D3 u
      else if N.eqb c 52 then Decimal.D4 u
      else if N.eqb c 53 then Decimal.D5 u
      else if N.eqb c 54 then Decimal.D6 u
      else if N.eqb c 55 then Decimal.D7 u
      else if N.eqb c 56 then Decimal.D8 u
      else Decimal.D9 u
  end.

Fixpoint digits_of_uint (u : Decimal.uint) : str :=
  match u with
  | Decimal.Nil => []
  | Decimal.D0 u' => 48 :: digits_of_uint u'
  | Decimal.D1 u' => 49 :: digits_of_uint u'
  | Decimal.D2 u' => 50 :: digits_of_uint u'
  | Decimal.D3 u' => 51 :: digits_of_uint u'
  | Decimal.D4 u' => 52 :: digits_of_uint u'
  | Decimal.D5 u' => 53 :: digits_of_uint u'
  | Decimal.D6 u' => 54 :: digits_of_uint u'
  | Decimal.D7 u' => 55 :: digits_of_uint u'
  | Decimal.D8 u' => 56 :: digits_of_uint u'
  | Decimal.D9 u' => 57 :: digits_of_uint u'
  end.

Definition nat_of_digits (ds : str) : N := N.of_uint (uint_of_digits ds).
Definition digits_of_N (n : N) : str := digits_of_uint (N.to_uint n).

Definition signed (negative : bool) (n : N) : Z :=
  if negative then Z.opp (Z.of_N n) else Z.of_N n.

(** An optional leading character [a]: whether it was there, and the rest. *)
Definition optional (a : ascii) (s : str) : bool * str :=
  match s with
  | c :: s' => if isc a c then (true, s') else (false, s)
  | [] => (false, s)
  end.

(** The integer part: [0] or a non-zero digit followed by digits. *)
Definition integer_part (s : str) : option (str * str) :=
  match s with
  | [] => None
  | c :: s' =>
      if in_range 49 57 c then
        let (ds, r) := span isdigit s' in Some (c :: ds, r)
      else if isc "0" c then Some ([c], s')
      else None
  end.

(** The fraction: a dot followed by at least one digit. *)
Definition fraction_part (s : str) : str * str :=
  match s with
  | p :: ((d :: _) as s') =>
      if isc "." p && isdigit d then span isdigit s' else ([], s)
  | _ => ([], s)
  end.

Definition exponent_sign (s : str) : bool * str :=
  match s with
  | c :: s' =>
      if isc "-" c then (true, s')
      else if isc "+" c then (false, s')
      else (false, s)
  | [] => (false, s)
  end.

(** The exponent: [e] or [E], an optional sign, at least one digit;
    without a digit the scanner goes back to before the [e]. *)
Definition exponent_part (s : str) : option Z * str :=
  match s with
  | e :: s' =>
      if isc "e" e || isc "E" e then
        let (negative, s1) := exponent_sign s' in
        let (ds, r) := span isdigit s1 in
        match ds with
        | [] => (None, s)
        | _ :: _ => (Some (signed negative (nat_of_digits ds)), r)
        end
      else (None, s)
  | [] => (None, s)
  end.

(** [_match_number_unicode]: an [int] when there is neither fraction nor
    exponent, a [float] otherwise. *)
Definition match_number (s : str) : scan json :=
  let (negative, s1) := optional "-" s in
  match integer_part s1 with
  | None => DecodeError
  | Some (ints, s2) =>
      let (frac, s3) := fraction_part s2 in
      let (exp, s4) := exponent_part s3 in
      match frac, exp with
      | [], None => Scanned (JInt (signed negative (nat_of_digits ints))) s4
      | _, _ =>
          let e := match exp with Some x => x | None => 0%Z end in
          Scanned
            (JFloat (FDec negative (nat_of_digits (ints ++ frac))
                                   (e - Z.of_nat (List.length frac))))
            s4
      end
  end.

(** *** Values *)

(** [scan_once_unicode], [_parse_object_unicode] and
    [_parse_array_unicode].  A call on a text of [n] characters is given
    more than [2 n] units of fuel, which it cannot use up (see
    [loads_fuel]). *)
Fixpoint scan_once (fuel : nat) (s : str) {struct fuel} : scan json :=
  match fuel with
  | O => NoFuel
  | S fuel' =>
      match s with
      | [] => DecodeError
      | c :: s' =>
          if N.eqb c 34 then scan_map JStr (scanstring s')
          else if isc "{" c then
            match skip_ws s' with
            | [] => DecodeError
            | c' :: s'' =>
                if isc "}" c' then Scanned (JDict []) s''
                else object_items fuel' (c' :: s'') []
            end
          else if isc "[" c then
            match skip_ws s' with
            | [] => DecodeError
            | c' :: s'' =>
                if isc "]" c' then Scanned (JList []) s''
                else array_items fuel' (c' :: s'') []
            end
          else
            match Str.strip_prefix (lit "null") s with
            | Some r => Scanned JNull r
            | None =>
            match Str.strip_prefix (lit "true") s with
            | Some r => Scanned (JBool true) r
            | None =>
            match Str.strip_prefix (lit "false") s with
            | Some r => Scanned (JBool false) r
            | None =>
            match Str.strip_prefix (lit "NaN") s with
            | Some r => Scanned (JFloat FNaN) r
            | None =>
            match Str.strip_prefix (lit "Infinity") s with
            | Some r => Scanned (JFloat (FInf false)) r
            | None =>
            match Str.strip_prefix (lit "-Infinity") s with
            | Some r => Scanned (JFloat (FInf true)) r
            | None => match_number s
            end end end end end end
      end
  end

(** The pairs of an object, from the first character of a key on. *)
with object_items (fuel : nat) (s : str) (acc : dict) {struct fuel}
  : scan json :=
  match fuel with
  | O => NoFuel
  | S fuel' =>
      match s with
      | [] => DecodeError
      | q :: s1 =>
          if N.eqb q 34 then
            match scanstring s1 with
            | Scanned key s2 =>
                match skip_ws s2 with
                | [] => DecodeError
                | c :: s3 =>
                    if isc ":" c then
                      match scan_once fuel' (skip_ws s3) with
                      | Scanned v s4 =>
                          let acc' := set key v acc in
                          match skip_ws s4 with
                          | [] => DecodeError
                          | d :: s5 =>
                              if isc "}" d then Scanned (JDict acc') s5
                              else if isc "," d
                              then object_items fuel' (skip_ws s5) acc'
                              else DecodeError
                          end
                      | DecodeError => DecodeError
                      | NoFuel => NoFuel
                      end
                    else DecodeError
                end
            | DecodeError => DecodeError
            | NoFuel => NoFuel
            end
          else DecodeError
      end
  end

(** The items of an array, from the first character of an item on. *)
with array_items (fuel : nat) (s : str) (acc : list json) {struct fuel}
  : scan json :=
  match fuel with
  | O => NoFuel
  | S fuel' =>
      match scan_once fuel' s with
      | Scanned v s1 =>
          let acc' := acc ++ [v] in
          match skip_ws s1 with
          | [] => DecodeError
          | d :: s2 =>
              if isc "]" d then Scanned (JList acc') s2
              else if isc "," d then array_items fuel' (skip_ws s2) acc'
              else DecodeError
          end
      | DecodeError => DecodeError
      | NoFuel => NoFuel
      end
  end.

(** [json.loads(s)] for a [str]: one value, with whitespace around it. *)
Definition loads (s : str) : result json :=
  if Str.startswith [65279] s then Raise JSONDecodeError
  else
    match scan_once (S (2 * List.length s)) (skip_ws s) with
    | Scanned v rest =>
        match skip_ws rest with
        | [] => Ok v
        | _ :: _ => Raise JSONDecodeError
        end
    | DecodeError => Raise JSONDecodeError
    | NoFuel => Raise OutOfFuel
    end.

(** *** Encoding *)

(** [S_CHAR]: a character the encoder copies as it is. *)
Definition s_char (c : char) : bool :=
  N.leb 32 c && N.leb c 126 && negb (N.eqb c 92) && negb (N.eqb c 34).

(** One digit of ["0123456789abcdef"]. *)
Definition hexdigit (n : N) : char := if N.ltb n 10 then 48 + n else 87 + n.

(** A backslash, [u] and the four hexadecimal digits of [c]. *)
Definition u_escape (c : N) : str :=
  [92; 117;
   hexdigit (N.land (N.shiftr c 12) 15);
   hexdigit (N.land (N.shiftr c 8) 15);
   hexdigit (N.land (N.shiftr c 4) 15);
   hexdigit (N.land c 15)].

(** [ascii_escape_unichar] *)
Definition escape_char (c : char) : str :=
  if s_char c then [c]
  else if N.eqb c 92 then [92; 92]
  else if N.eqb c 34 then [92; 34]
  else if N.eqb c 8 then 92 :: lit "b"
  else if N.eqb c 12 then 92 :: lit "f"
  else if N.eqb c 10 then 92 :: lit "n"
  else if N.eqb c 13 then 92 :: lit "r"
  else if N.eqb c 9 then 92 :: lit "t"
  else if N.leb 65536 c then
    let v := c - 65536 in
    u_escape (N.lor 55296 (N.land (N.shiftr v 10) 1023))
    ++ u_escape (N.lor 56320 (N.land v 1023))
  else u_escape c.

(** [encode_basestring_ascii] *)
Definition encode_basestring_ascii (s : str) : str :=
  34 :: flat_map escape_char s ++ [34].

(** [int.__repr__] *)
Definition int_repr (n : Z) : str :=
  if Z.ltb n 0 then ch "-" :: digits_of_N (Z.abs_N n)
  else digits_of_N (Z.to_N n).

(** The encoder's [floatstr].  A finite float is written here as its
    decimal mantissa and exponent; Python writes the shortest literal
    that rounds to the same binary64 number. *)
Definition floatstr (f : pyfloat) : str :=
  match f with
  | FNaN => lit "NaN"
  | FInf false => lit "Infinity"
  | FInf true => lit "-Infinity"
  | FDec negative m e =>
      (if negative then lit "-" else []) ++ digits_of_N m
      ++ lit "e" ++ int_repr e
  end.

(** [sep.join(parts)] *)
Fixpoint join (sep : str) (parts : list str) : str :=
  match parts with
  | [] => []
  | [p] => p
  | p :: ps => p ++ sep ++ join sep ps
  end.

(** [sorted(items)] for items with distinct [str] keys: by key. *)
Fixpoint insert_item {A : Type} (kv : str * A) (l : list (str * A))
  : list (str * A) :=
  match l with
  | [] => [kv]
  | kv' :: l' =>
      if Str.ltb (fst kv) (fst kv') then kv :: l
      else kv' :: insert_item kv l'
  end.

Definition sort_items {A : Type} (l : list (str * A)) : list (str * A) :=
  fold_right insert_item [] l.

Definition encode_pair (kv : str * str) : str :=
  encode_basestring_ascii (fst kv) ++ lit ": " ++ snd kv.

(** [json.dumps(v, ensure_ascii=True, sort_keys=sort_keys)] with the
    default separators.  The items of a [dict] are encoded and then put in
    key order, which gives the text Python gets by sorting first. *)
Fixpoint dumps (sort_keys : bool) (v : json) : str :=
  match v with
  | JNull => lit "null"
  | JBool true => lit "true"
  | JBool false => lit "false"
  | JInt n => int_repr n
  | JFloat f => floatstr f
  | JStr s => encode_basestring_ascii s
  | JList l => lit "[" ++ join (lit ", ") (map (dumps sort_keys) l) ++ lit "]"
  | JDict d =>
      let items := map (fun kv => (fst kv, dumps sort_keys (snd kv))) d in
      lit "{"
      ++ join (lit ", ")
           (map encode_pair (if sort_keys then sort_items items else items))
      ++ lit "}"
  end.

End Json.

(** A text literal in which ['] stands for the double quote. *)
Definition js (x : string) : str :=
  map (fun c => if N.eqb c 39 then 34 else c) (lit x).

(** ** Regular expressions

    The part of [re] the script uses: single characters and classes,
    sequence, a greedy optional group, greedy and lazy repetition of a
    class, and one capturing group.  [exec] is a backtracking matcher with
    Python's preference order: a greedy operator tries the longer match
    first, a lazy one the shorter. *)

Module Re.

Inductive re : Type :=
| Eps
| Chr (p : char -> bool)
| Seq (a b : re)
| Opt (a : re)
| Star (p : char -> bool)
| StarLazy (p : char -> bool)
| Group (a : re).

Fixpoint text (s : str) : re :=
  match s with
  | [] => Eps
  | c :: s' => Seq (Chr (N.eqb c)) (text s')
  end.

Definition any (c : char) : bool := true.

Section Exec.
Variable R : Type.

(** [exec r s g k]: match [r] at the start of [s], then continue with [k]
    on what is left; [g] is the text captured so far. *)
Fixpoint exec (r : re) (s : str) (g : option str)
    (k : str -> option str -> option R) {struct r} : option R :=
  match r with
  | Eps => k s g
  | Chr p =>
      match s with
      | c :: s' => if p c then k s' g else None
      | [] => None
      end
  | Seq a b => exec a s g (fun s' g' => exec b s' g' k)
  | Opt a =>
      match exec a s g k with
      | Some x => Some x
      | None => k s g
      end
  | Star p =>
      (fix star (s : str) : option R :=
         match s with
         | c :: s' =>
             if p c then
               match star s' with
               | Some x => Some x
               | None => k s g
               end
             else k s g
         | [] => k s g
         end) s
  | StarLazy p =>
      (fix lazy (s : str) : option R :=
         match k s g with
         | Some x => Some x
         | None =>
             match s with
             | c :: s' => if p c then lazy s' else None
             | [] => None
             end
         end) s
  | Group a =>
      exec a s g
        (fun s' _ => k s' (Some (firstn (List.length s - List.length s') s)))
  end.

End Exec.

(** [re.match(r, s)]: the captured group of the preferred match at the
    start of [s]. *)
Definition match_here (r : re) (s : str) : option (option str) :=
  exec r s None (fun _ g => Some g).

(** [re.search(r, s)]: the match at the leftmost position that has one. *)
Fixpoint search (r : re) (s : str) : option (option str) :=
  match match_here r s with
  | Some g => Some g
  | None =>
      match s with
      | [] => None
      | _ :: s' => search r s'
      end
  end.

End Re.

(** ** Python values *)

Module Py.

(** Truth value of an optional [str], as [os.getenv] returns it. *)
Definition truthy_str (x : option str) : bool :=
  match x with
  | Some (_ :: _) => true
  | _ => false
  end.

(** A float literal that rounds to zero: no digit but [0], or a value of
    at most [2^-1075]. *)
Definition float_is_zero (m : N) (e : Z) : bool :=
  N.eqb m 0
  || (Z.ltb e 0 && Z.leb (Z.of_N m * 2 ^ 1075) (10 ^ (- e)))%Z.

(** [bool(v)] *)
Definition truthy (v : json) : bool :=
  match v with
  | JNull => false
  | JBool b => b
  | JInt n => negb (Z.eqb n 0)
  | JFloat FNaN => true
  | JFloat (FInf _) => true
  | JFloat (FDec _ m e) => negb (float_is_zero m e)
  | JStr s => match s with [] => false | _ => true end
  | JList l => match l with [] => false | _ => true end
  | JDict d => match d with [] => false | _ => true end
  end.

(** [obj[key]] for a [str] key. *)
Definition getitem (obj : json) (key : str) : result json :=
  match obj with
  | JDict d =>
      match Json.get key d with
      | Some v => Ok v
      | None => Raise (KeyError (JStr key))
      end
  | _ => Raise TypeError
  end.

(** [obj[0]] *)
Definition getitem0 (obj : json) : result json :=
  match obj with
  | JDict _ => Raise (KeyError (JInt 0))
  | JList (v :: _) => Ok v
  | JList [] => Raise IndexError
  | JStr (c :: _) => Ok (JStr [c])
  | JStr [] => Raise IndexError
  | _ => Raise TypeError
  end.

(** [obj.get(key)]: only a [dict] has the method. *)
Definition get (obj : json) (key : str) : result json :=
  match obj with
  | JDict d =>
      match Json.get key d with
      | Some v => Ok v
      | None => Ok JNull
      end
  | _ => Raise AttributeError
  end.

End Py.

(** ** [posixpath] *)

Module Posixpath.

Definition sep : char := ch "/".

Definition endswith_sep (s : str) : bool :=
  match rev s with
  | c :: _ => N.eqb c sep
  | [] => false
  end.

(** [os.path.join(a, b)] *)
Definition join (a b : str) : str :=
  if Str.startswith [sep] b then b
  else
    match a with
    | [] => b
    | _ :: _ => if endswith_sep a then a ++ b else a ++ sep :: b
    end.

(** [path.split("/")] *)
Fixpoint split (s : str) : list str :=
  match s with
  | [] => [[]]
  | c :: s' =>
      if N.eqb c sep then [] :: split s'
      else
        match split s' with
        | comp :: comps => (c :: comp) :: comps
        | [] => [[c]]
        end
  end.

(** The loop of [normpath] over the components, [new_comps] kept with
    its last component first. *)
Fixpoint normalize (absolute : bool) (comps new_comps : list str)
  : list str :=
  match comps with
  | [] => rev new_comps
  | comp :: rest =>
      if str_eqb comp [] || str_eqb comp (lit ".")
      then normalize absolute rest new_comps
      else if negb (str_eqb comp (lit ".."))
              || (negb absolute && match new_comps with [] => true | _ => false end)
              || match new_comps with
                 | last :: _ => str_eqb last (lit "..")
                 | [] => false
                 end
      then normalize absolute rest (comp :: new_comps)
      else normalize absolute rest (tl new_comps)
  end.

(** [os.path.normpath(path)]: the file a path names when no component is
    a symbolic link. *)
Definition normpath (path : str) : str :=
  match path with
  | [] => lit "."
  | _ :: _ =>
      let slashes :=
        if Str.startswith [sep; sep] path && negb (Str.startswith [sep; sep; sep] path)
        then [sep; sep]
        else if Str.startswith [sep] path then [sep] else [] in
      let absolute := Str.startswith [sep] path in
      let p := slashes ++ Json.join [sep] (normalize absolute (split path) []) in
      match p with
      | [] => lit "."
      | _ :: _ => p
      end
  end.

End Posixpath.

(** ** The script: [take_turn_common.py] *)

Definition DEFAULT_OPENROUTER_URL : str :=
  lit "https://openrouter.ai/api/v1/chat/completions".
Definition DEFAULT_OPENROUTER_MODEL : str := lit "openai/gpt-4o-mini".
Definition DEFAULT_SKILLS_DIR : str := lit "/workspace/skills".

Notation "a +++ b" := (Re.Seq a b) (at level 60, right associativity).

(** The pattern of line 19, compiled with [re.DOTALL]:
    three backticks, an optional [json], spaces, group 1 made of a brace,
    as few characters as possible and a brace, spaces, three backticks. *)
Definition fenced_pattern : Re.re :=
  Re.text (lit "```") +++ Re.Opt (Re.text (lit "json")) +++ Re.Star Str.isspace
  +++ Re.Group (Re.Chr (isc "{") +++ Re.StarLazy Re.any +++ Re.Chr (isc "}"))
  +++ Re.Star Str.isspace +++ Re.text (lit "```").

(** Lines 17 to 21: the text the parse attempts work on. *)
Definition fenced_candidate (raw : str) : str :=
  let text := Str.strip raw in
  match Re.search fenced_pattern text with
  | Some (Some group1) => Str.strip group1
  | _ => text
  end.

Definition no_action : exn :=
  ValueError (lit "LLM response did not contain a JSON object action").

(** Lines 30 to 37: the span from the first opening brace to the last
    closing brace. *)
Definition brace_span (text : str) : result json :=
  match Str.find (ch "{") text, Str.rfind (ch "}") text with
  | Some start, Some end_ =>
      if Nat.ltb start end_ then
        match Json.loads (Str.slice start (S end_) text) with
        | Ok (JDict d) => Ok (JDict d)
        | Ok _ => Raise no_action
        | Raise e => Raise e
        end
      else Raise no_action
  | _, _ => Raise no_action
  end.

(** Lines 23 to 37: the direct parse, then the brace span. *)
Definition parse_attempts (text : str) : result json :=
  match Json.loads text with
  | Ok (JDict d) => Ok (JDict d)
  | Ok _ => brace_span text
  | Raise JSONDecodeError => brace_span text
  | Raise e => Raise e
  end.

Definition _extract_json_object (raw : str) : result json :=
  parse_attempts (fenced_candidate raw).

Definition _build_user_prompt (state : json) : str :=
  lit "You are selecting the next action for an agent sandbox environment."
  ++ [10]
  ++ lit "Return ONLY a JSON object describing the action." ++ [10; 10]
  ++ lit "State:" ++ [10] ++ Json.dumps true state.

(** ** The process and its surroundings

    What a run can observe: standard input, the environment variables, the
    files it can read, the answer of the endpoint to a request, and the
    interpreter's [str()] of a value.  What it does is recorded as a trace
    of events, in order.

    Standard input, the files and the body of a response are texts, taken
    after their decoding: a run that stops with [UnicodeDecodeError] is not
    described, nor is one whose connection fails with an exception other
    than [HTTPError] and [URLError]. *)

Record request : Type := {
  req_url : str;
  req_data : str;
  req_authorization : str;
  req_content_type : str;
  req_method : str;
  req_timeout : Z
}.

(** [urlopen]: a response with a success status and its body, an
    [HTTPError] with the status code and the body, or a [URLError]. *)
Inductive http_outcome : Type :=
| Response (body : str)
| HTTPError (code : Z) (details : str)
| URLError (reason : str).

Record World : Type := {
  stdin : str;
  environ : str -> option str;
  files : str -> option str;
  endpoint : request -> http_outcome;
  py_str : json -> str
}.

Inductive event : Type :=
| Opened (path : str)
| Requested (r : request)
| Stdout (s : str)
| Stderr (e : exn).

Definition io (A : Type) : Type := World -> list event * result A.

Definition ret {A : Type} (a : A) : io A := fun _ => ([], Ok a).

Definition raise {A : Type} (e : exn) : io A := fun _ => ([], Raise e).

Definition lift {A : Type} (r : result A) : io A := fun _ => ([], r).

Definition bind {A B : Type} (m : io A) (k : A -> io B) : io B :=
  fun w =>
    match m w with
    | (t, Ok a) => let (t', r) := k a w in (t ++ t', r)
    | (t, Raise e) => (t, Raise e)
    end.

Notation "x <- m ;; k" := (bind m (fun x => k))
  (at level 61, m at next level, right associativity).
Notation "m ;; k" := (bind m (fun _ => k))
  (at level 61, right associativity).

(** [sys.stdin.read()] *)
Definition read_stdin : io str := fun w => ([], Ok (stdin w)).

(** [os.getenv(name)] and [os.getenv(name, default)] *)
Definition getenv (name : str) : io (option str) :=
  fun w => ([], Ok (environ w name)).

Definition getenv_default (name default : str) : io str :=
  fun w => ([], Ok (match environ w name with Some v => v | None => default end)).

(** [open(path, "r", encoding="utf-8")] and [handle.read()] *)
Definition read_file (path : str) : io str :=
  fun w =>
    ([Opened path],
     match files w path with
     | Some content => Ok content
     | None => Raise (OSError path)
     end).

(** [urllib.request.urlopen(request, timeout=...)] *)
Definition urlopen (r : request) : io http_outcome :=
  fun w => ([Requested r], Ok (endpoint w r)).

(** [sys.stdout.write(s)]; the chunks [json.dump] writes one after the
    other are recorded as one write of the whole text. *)
Definition write_stdout (s : str) : io unit := fun _ => ([Stdout s], Ok tt).

(** [f"{v}"]: a [str] as it is, an [int], a [bool] and [None] by their
    names, any other value as the interpreter writes it. *)
Definition format_with (other : json -> str) (v : json) : str :=
  match v with
  | JStr s => s
  | JInt n => Json.int_repr n
  | JBool true => lit "True"
  | JBool false => lit "False"
  | JNull => lit "None"
  | _ => other v
  end.

Definition format (v : json) : io str :=
  fun w => ([], Ok (format_with (py_str w) v)).

(** [raw.strip()] needs a [str]. *)
Definition as_str (v : json) : result str :=
  match v with
  | JStr s => Ok s
  | _ => Raise AttributeError
  end.

Definition API_KEY_REQUIRED : exn :=
  RuntimeError (lit "OPENROUTER_API_KEY is required").

(** Lines 55 to 70: the request for a skill prompt and a state. *)
Definition openrouter_request (api_key url model prompt_skill : str)
    (state : json) : request :=
  let payload :=
    JDict
      [(lit "model", JStr model);
       (lit "messages",
        JList
          [JDict [(lit "role", JStr (lit "system"));
                  (lit "content", JStr prompt_skill)];
           JDict [(lit "role", JStr (lit "user"));
                  (lit "content", JStr (_build_user_prompt state))]])] in
  {| req_url := url;
     req_data := Json.dumps false payload;
     req_authorization := lit "Bearer " ++ api_key;
     req_content_type := lit "application/json";
     req_method := lit "POST";
     req_timeout := 30 |}.

(** Line 82: [data["choices"][0]["message"]["content"]] *)
Definition message_content (data : json) : result json :=
  match Py.getitem data (lit "choices") with
  | Ok choices =>
      match Py.getitem0 choices with
      | Ok choice =>
          match Py.getitem choice (lit "message") with
          | Ok message => Py.getitem message (lit "content")
          | Raise e => Raise e
          end
      | Raise e => Raise e
      end
  | Raise e => Raise e
  end.

Definition _call_openrouter (prompt_skill : str) (state : json) : io json :=
  api_key <- getenv (lit "OPENROUTER_API_KEY") ;;
  if negb (Py.truthy_str api_key) then raise API_KEY_REQUIRED
  else
    let api_key := match api_key with Some k => k | None => [] end in
    url <- getenv_default (lit "OPENROUTER_API_URL") DEFAULT_OPENROUTER_URL ;;
    model <- getenv_default (lit "OPENROUTER_MODEL") DEFAULT_OPENROUTER_MODEL ;;
    outcome <- urlopen (openrouter_request api_key url model prompt_skill state) ;;
    body <-
      match outcome with
      | Response body => ret body
      | HTTPError code details =>
          raise
            (RuntimeError
               (lit "OpenRouter request failed: " ++ Json.int_repr code
                ++ lit " " ++ details))
      | URLError reason =>
          raise (RuntimeError (lit "OpenRouter request failed: " ++ reason))
      end ;;
    data <- lift (Json.loads body) ;;
    raw_message <- lift (message_content data) ;;
    raw <- lift (as_str raw_message) ;;
    lift (_extract_json_object raw).

Definition ENV_TYPE_REQUIRED : exn :=
  RuntimeError (lit "Input JSON must include env_type").

Definition run_from_stdin : io unit :=
  input <- read_stdin ;;
  state <- lift (Json.loads input) ;;
  env_type <- lift (Py.get state (lit "env_type")) ;;
  if negb (Py.truthy env_type) then raise ENV_TYPE_REQUIRED
  else
    api_key <- getenv (lit "OPENROUTER_API_KEY") ;;
    if negb (Py.truthy_str api_key) then raise API_KEY_REQUIRED
    else
      skills_dir <- getenv_default (lit "SANDBOX_SKILLS_DIR") DEFAULT_SKILLS_DIR ;;
      name <- format env_type ;;
      let skill_path := Posixpath.join skills_dir (name ++ lit "-player.md") in
      skill_prompt <- read_file skill_path ;;
      action <- _call_openrouter skill_prompt state ;;
      write_stdout (Json.dumps false action) ;;
      write_stdout [10].

(** [main]: the trace of the run and the exit status; a failure prints
    [str(exc)] on standard error and exits with 1. *)
Definition main (w : World) : list event * Z :=
  match run_from_stdin w with
  | (t, Ok _) => (t, 0%Z)
  | (t, Raise e) => (t ++ [Stderr e], 1%Z)
  end.


Fixpoint stdout (t : list event) : str :=
  match t with
  | [] => []
  | Stdout s :: t' => s ++ stdout t'
  | _ :: t' => stdout t'
  end.

Fixpoint opened (t : list event) : list str :=
  match t with
  | [] => []
  | Opened p :: t' => p :: opened t'
  | _ :: t' => opened t'
  end.

(** ** Notions the properties are stated with *)


(** The text before the next three backticks and the text after them. *)
Fixpoint until_fence (s : str) : option (str * str) :=
  match Str.strip_prefix (lit "```") s with
  | Some r => Some ([], r)
  | None =>
      match s with
      | [] => None
      | c :: s' =>
          match until_fence s' with
          | Some (a, b) => Some (c :: a, b)
          | None => None
          end
      end
  end.

(** The inner text of the first block fenced by triple backticks, the
    opening fence optionally tagged [json], whatever the block holds. *)
Definition first_fenced_block (s : str) : option str :=
  match until_fence s with
  | Some (_, opened_) =>
      let inner :=
        match Str.strip_prefix (lit "json") opened_ with
        | Some r => r
        | None => opened_
        end in
      match until_fence inner with
      | Some (block, _) => Some block
      | None => None
      end
  | None => None
  end.

(** A text without three backticks in a row. *)
Definition fence_free (s : str) : bool := negb (Str.contains (lit "```") s).

(** A text Python can hold in which no high surrogate is directly followed
    by a low one: the encoder writes such a pair like one character beyond
    the basic plane, and the scanner reads it back as that character. *)
Definition starts_low (s : str) : bool :=
  match s with
  | c :: _ => Json.is_low_surrogate c
  | [] => false
  end.

Fixpoint text_ok (s : str) : bool :=
  match s with
  | [] => true
  | c :: s' =>
      N.ltb c 1114112
      && negb (Json.is_high_surrogate c && starts_low s')
      && text_ok s'
  end.

Fixpoint distinct (keys : list str) : bool :=
  match keys with
  | [] => true
  | k :: ks => negb (existsb (str_eqb k) ks) && distinct ks
  end.

(** Every [dict] in the value has distinct keys, as a Python [dict] has. *)
Fixpoint distinct_keys (v : json) : bool :=
  match v with
  | JList l => forallb distinct_keys l
  | JDict d =>
      distinct (map fst d) && forallb (fun kv => distinct_keys (snd kv)) d
  | _ => true
  end.

(** A value without floats whose texts are as [text_ok] says. *)
Fixpoint plain (v : json) : bool :=
  match v with
  | JNull | JBool _ | JInt _ => true
  | JFloat _ => false
  | JStr s => text_ok s
  | JList l => forallb plain l
  | JDict d => forallb (fun kv => text_ok (fst kv) && plain (snd kv)) d
  end.

(** Two values that differ at most in the order of the items of their
    dicts. *)
#[warnings="-register-all"]
Inductive same_mapping : json -> json -> Prop :=
| same_value (v : json) : same_mapping v v
| same_list (l1 l2 : list json) :
    Forall2 same_mapping l1 l2 -> same_mapping (JList l1) (JList l2)
| same_dict (d1 d2 d : Json.dict) :
    Permutation d1 d ->
    Forall2 (fun a b => fst a = fst b /\ same_mapping (snd a) (snd b)) d d2 ->
    same_mapping (JDict d1) (JDict d2).

Definition is_ascii (c : char) : bool := N.ltb c 128.




(** The body of a completion whose message content is [reply]. *)
Definition completion (reply : json) : json :=
  JDict
    [(lit "choices",
      JList [JDict [(lit "message", JDict [(lit "content", reply)])]])].

(** The configuration a world gives: the credential, the endpoint, the
    model and the directory of the skill documents. *)
Definition api_key_of (w : World) : option str :=
  environ w (lit "OPENROUTER_API_KEY").

Definition url_of (w : World) : str :=
  match environ w (lit "OPENROUTER_API_URL") with
  | Some v => v
  | None => DEFAULT_OPENROUTER_URL
  end.

Definition model_of (w : World) : str :=
  match environ w (lit "OPENROUTER_MODEL") with
  | Some v => v
  | None => DEFAULT_OPENROUTER_MODEL
  end.

Definition skills_dir_of (w : World) : str :=
  match environ w (lit "SANDBOX_SKILLS_DIR") with
  | Some v => v
  | None => DEFAULT_SKILLS_DIR
  end.

(** The request a world's configuration leads to. *)
Definition request_of (w : World) (api_key prompt_skill : str) (state : json)
  : request :=
  openrouter_request api_key (url_of w) (model_of w) prompt_skill state.

(** The path of the skill document for an [env_type] value. *)
Definition skill_path_of (w : World) (env_type : json) : str :=
  Posixpath.join (skills_dir_of w)
    (format_with (py_str w) env_type ++ lit "-player.md").


(** [suffix rest s]: [rest] is what is left of [s] after a prefix. *)
Definition suffix (rest s : str) : Prop := exists pre, s = pre ++ rest.

Definition is_dict (v : json) : bool :=
  match v with JDict _ => true | _ => false end.

(** A reply whose first fenced block holds an array, followed by an
    object. *)
Definition fenced_array_reply : str :=
  lit "```" ++ [10] ++ lit "[1]" ++ [10] ++ js "``` {'a': 1}".

(** [P] holds of every number below [n]. *)
Fixpoint all_below (n : nat) (P : N -> bool) : bool :=
  match n with
  | O => true
  | S n' => P (N.of_nat n') && all_below n' P
  end.

(** What may follow a value inside an array or an object, or at the end
    of the text. *)
Definition closes (rest : str) : Prop :=
  match rest with
  | [] => True
  | c :: _ => c = ch "," \/ c = ch "]" \/ c = ch "}"
  end.

(** A text that goes on with a value: not with a space nor a closing
    bracket. *)
Definition starts_value (s : str) : Prop :=
  match s with
  | c :: _ =>
      Json.is_whitespace c = false /\ isc "]" c = false /\ isc "}" c = false
  | [] => False
  end.

Definition ascii_text (s : str) : Prop := forallb is_ascii s = true.

(** What [scanstring] does after the escape of a high surrogate [c1],
    with [t] left to read: a low surrogate escaped next is joined to it. *)
Definition lookahead (c1 : N) (t : str) : Json.scan str :=
  match t with
  | b :: u :: g1 :: g2 :: g3 :: g4 :: ((_ :: _) as s4) =>
      if isc "\" b && isc "u" u then
        match Json.hex4 g1 g2 g3 g4 with
        | None => Json.DecodeError
        | Some c2 =>
            if Json.is_low_surrogate c2
            then Json.scan_cons (Json.join_surrogates c1 c2)
                   (Json.scanstring s4)
            else Json.scan_cons c1 (Json.scanstring t)
        end
      else Json.scan_cons c1 (Json.scanstring t)
  | _ => Json.scan_cons c1 (Json.scanstring t)
  end.

(** A value the scanner reads back from its encoding, whatever closes it
    and whatever fuel beyond twice the length of the text it is given. *)
Definition reads_back (v : json) : Prop :=
  forall (fuel : nat) (rest : str),
    closes rest ->
    (2 * List.length (Json.dumps false v ++ rest) < fuel)%nat ->
    Json.scan_once fuel (Json.dumps false v ++ rest) = Json.Scanned v rest.



(** A world in the manner of the repository's test: the given input and
    credential, every skill document readable, and an endpoint that
    answers every request with [body]. *)
Definition stub_world (input : str) (api_key : option str) (body : str)
  : World :=
  {| stdin := input;
     environ :=
       fun name =>
         if str_eqb name (lit "OPENROUTER_API_KEY") then api_key else None;
     files := fun _ => Some (lit "skill prompt");
     endpoint := fun _ => Response body;
     py_str := fun _ => lit "?" |}.

(** ** Notions for further properties *)

(** What a trace holds of standard error: the exceptions [main] printed. *)
Fixpoint stderr (t : list event) : list exn :=
  match t with
  | [] => []
  | Stderr e :: t' => e :: stderr t'
  | _ :: t' => stderr t'
  end.

(** A world whose endpoint is [f], and a world without any file. *)
Definition with_endpoint (w : World) (f : request -> http_outcome) : World :=
  {| stdin := stdin w;
     environ := environ w;
     files := files w;
     endpoint := f;
     py_str := py_str w |}.


(** The lines of the user prompt that come before the state. *)
Definition prompt_directive : str :=
  lit "You are selecting the next action for an agent sandbox environment."
  ++ [10]
  ++ lit "Return ONLY a JSON object describing the action." ++ [10; 10]
  ++ lit "State:" ++ [10].

(** A value with the items of every [dict] in the order of their keys. *)
Fixpoint canon (v : json) : json :=
  match v with
  | JList l => JList (map canon l)
  | JDict d => JDict (Json.sort_items (map (fun kv => (fst kv, canon (snd kv))) d))
  | _ => v
  end.

(** A text of spaces only, as [str.strip] sees them. *)
Definition blank (s : str) : bool := forallb Str.isspace s.

(** A printable ASCII character, from the space to the tilde. *)
Definition printable (c : char) : bool := N.leb 32 c && N.leb c 126.

Definition printable_text (s : str) : Prop := forallb printable s = true.

(** A rest that ends a value: the end of the text, a space, a comma or a
    closing bracket. *)
Definition ends_value (rest : str) : bool :=
  match rest with
  | [] => true
  | c :: _ => Json.is_whitespace c || isc "," c || isc "]" c || isc "}" c
  end.

(** Two texts that are the same before the rests [r] and [r2]. *)
Definition same_before (r r2 s s2 : str) : Prop :=
  exists q, s = q ++ r /\ s2 = q ++ r2.

(** * Properties *)

Unset Implicit Arguments.

(** ** Extraction returns objects only *)

Lemma brace_span_object (text : str) (v : json) :
  brace_span text = Ok v -> exists d, v = JDict d.
Proof.
  unfold brace_span.
  destruct (Str.find (ch "{") text) as [start|]; [|discriminate].
  destruct (Str.rfind (ch "}") text) as [end_|]; [|discriminate].
  destruct (Nat.ltb start end_); [|discriminate].
  destruct (Json.loads (Str.slice start (S end_) text)) as [[]|];
    try discriminate.
  intros H; injection H as <-. now exists d.
Qed.

Lemma extract_object (raw : str) (v : json) :
  _extract_json_object raw = Ok v -> exists d, v = JDict d.
Proof.
  unfold _extract_json_object, parse_attempts.
  destruct (Json.loads (fenced_candidate raw)) as [[]|[]];
    try discriminate; try apply brace_span_object.
  intros H; injection H as <-. now exists d.
Qed.

(** Running a bound computation: what a successful run is made of. *)
Lemma bind_ok {A B : Type} (m : io A) (k : A -> io B) (w : World)
    (t : list event) (b : B) :
  (x <- m ;; k x) w = (t, Ok b) ->
  exists t1 a t2, m w = (t1, Ok a) /\ k a w = (t2, Ok b) /\ t = t1 ++ t2.
Proof.
  unfold bind. destruct (m w) as [t1 [a|e]]; [|discriminate].
  destruct (k a w) as [t2 r] eqn:Hk. intros H; injection H as <- ->.
  now exists t1, a, t2.
Qed.

Lemma lift_ok {A : Type} (r : result A) (w : World) (t : list event) (a : A) :
  lift r w = (t, Ok a) -> t = [] /\ r = Ok a.
Proof. unfold lift. intros H; injection H as <- ->. auto. Qed.

Lemma call_openrouter_object (prompt_skill : str) (state : json) (w : World)
    (t : list event) (v : json) :
  _call_openrouter prompt_skill state w = (t, Ok v) -> exists d, v = JDict d.
Proof.
  unfold _call_openrouter. intros H.
  apply bind_ok in H as (t1 & key & t2 & _ & H & _).
  destruct (negb (Py.truthy_str key)); [discriminate|].
  apply bind_ok in H as (? & url & ? & _ & H & _).
  apply bind_ok in H as (? & model & ? & _ & H & _).
  apply bind_ok in H as (? & outcome & ? & _ & H & _).
  apply bind_ok in H as (? & body & ? & _ & H & _).
  apply bind_ok in H as (? & data & ? & _ & H & _).
  apply bind_ok in H as (? & raw_message & ? & _ & H & _).
  apply bind_ok in H as (? & raw & ? & _ & H & _).
  apply lift_ok in H as [_ H]. now apply extract_object in H.
Qed.

(** ** The run, step by step *)

(** The provider call: the credential first, then one request, then the
    envelope and the extraction. *)
Lemma call_openrouter_eq (prompt_skill : str) (state : json) (w : World) :
  _call_openrouter prompt_skill state w =
  match api_key_of w with
  | Some (c :: k) =>
      let r := request_of w (c :: k) prompt_skill state in
      ([Requested r],
       match endpoint w r with
       | Response body =>
           match Json.loads body with
           | Ok data =>
               match message_content data with
               | Ok raw_message =>
                   match as_str raw_message with
                   | Ok raw => _extract_json_object raw
                   | Raise e => Raise e
                   end
               | Raise e => Raise e
               end
           | Raise e => Raise e
           end
       | HTTPError code details =>
           Raise
             (RuntimeError
                (lit "OpenRouter request failed: " ++ Json.int_repr code
                 ++ lit " " ++ details))
       | URLError reason =>
           Raise (RuntimeError (lit "OpenRouter request failed: " ++ reason))
       end)
  | _ => ([], Raise API_KEY_REQUIRED)
  end.
Proof.
  unfold _call_openrouter, api_key_of, request_of, url_of, model_of, bind,
    getenv, getenv_default, urlopen, lift, raise, ret.
  destruct (environ w (lit "OPENROUTER_API_KEY")) as [[|c k]|];
    try reflexivity.
  cbn [Py.truthy_str negb app].
  destruct (endpoint w _) as [body|code details|reason]; try reflexivity.
  destruct (Json.loads body) as [data|e]; [|reflexivity].
  destruct (message_content data) as [raw_message|e]; [|reflexivity].
  destruct (as_str raw_message) as [raw|e]; [|reflexivity].
  destruct (_extract_json_object raw); reflexivity.
Qed.

(** The whole run: the input, the credential, the skill document, the
    provider call, the output. *)
Lemma run_from_stdin_eq (w : World) :
  run_from_stdin w =
  match Json.loads (stdin w) with
  | Raise e => ([], Raise e)
  | Ok state =>
      match Py.get state (lit "env_type") with
      | Raise e => ([], Raise e)
      | Ok env_type =>
          if negb (Py.truthy env_type) then ([], Raise ENV_TYPE_REQUIRED)
          else if negb (Py.truthy_str (api_key_of w))
          then ([], Raise API_KEY_REQUIRED)
          else
            let path := skill_path_of w env_type in
            match files w path with
            | None => ([Opened path], Raise (OSError path))
            | Some skill_prompt =>
                match _call_openrouter skill_prompt state w with
                | (t, Ok action) =>
                    (Opened path :: t
                     ++ [Stdout (Json.dumps false action); Stdout [10]],
                     Ok tt)
                | (t, Raise e) => (Opened path :: t, Raise e)
                end
            end
      end
  end.
Proof.
  unfold run_from_stdin, api_key_of, skill_path_of, skills_dir_of, bind,
    read_stdin, getenv, getenv_default, format, read_file, write_stdout,
    lift, raise.
  destruct (Json.loads (stdin w)) as [state|e]; [|reflexivity].
  destruct (Py.get state (lit "env_type")) as [env_type|e]; [|reflexivity].
  destruct (negb (Py.truthy env_type)); [reflexivity|].
  destruct (negb (Py.truthy_str (environ w (lit "OPENROUTER_API_KEY"))));
    [reflexivity|].
  cbn [app]. cbv zeta.
  destruct (files w _) as [skill_prompt|]; [|reflexivity].
  destruct (_call_openrouter skill_prompt state w) as [t [action|e]];
    reflexivity.
Qed.




Lemma call_openrouter_opens_nothing (prompt_skill : str) (state : json)
    (w : World) :
  opened (fst (_call_openrouter prompt_skill state w)) = [].
Proof.
  rewrite call_openrouter_eq.
  now destruct (api_key_of w) as [[|c k]|].
Qed.

Lemma opened_app (a b : list event) : opened (a ++ b) = opened a ++ opened b.
Proof.
  induction a as [|[] a IH]; cbn; rewrite ?IH; reflexivity.
Qed.

(** ** What the scanner consumes *)

Lemma suffix_refl (s : str) : suffix s s.
Proof. now exists []. Qed.

Lemma suffix_cons (c : char) (rest s : str) :
  suffix rest s -> suffix rest (c :: s).
Proof. intros [pre ->]. now exists (c :: pre). Qed.

Lemma suffix_trans {a b c : str} : suffix a b -> suffix b c -> suffix a c.
Proof. intros [p ->] [q ->]. exists (q ++ p). now rewrite app_assoc. Qed.

Lemma suffix_length {rest s : str} :
  suffix rest s -> (List.length rest <= List.length s)%nat.
Proof. intros [pre ->]. rewrite length_app. lia. Qed.

Lemma suffix_tail {c : char} {rest s : str} :
  suffix (c :: rest) s -> suffix rest s.
Proof. intros [pre ->]. exists (pre ++ [c]). now rewrite <- app_assoc. Qed.

Lemma suffix_skip_ws (s : str) : suffix (Json.skip_ws s) s.
Proof.
  induction s as [|c s IH]; cbn; [apply suffix_refl|].
  destruct (Json.is_whitespace c); [now apply suffix_cons|apply suffix_refl].
Qed.

Lemma skip_ws_length (s : str) :
  (List.length (Json.skip_ws s) <= List.length s)%nat.
Proof. apply suffix_length, suffix_skip_ws. Qed.

Lemma strip_prefix_app (p s r : str) :
  Str.strip_prefix p s = Some r -> s = p ++ r.
Proof.
  revert s; induction p as [|a p IH]; intros s H; cbn in H.
  - now injection H as ->.
  - destruct s as [|b s]; [discriminate|].
    destruct (N.eqb_spec a b) as [->|]; [|discriminate].
    cbn. f_equal. now apply IH.
Qed.

Lemma span_app (p : char -> bool) (s a b : str) :
  Json.span p s = (a, b) -> s = a ++ b.
Proof.
  revert a b; induction s as [|c s IH]; intros a b H; cbn in H.
  - now injection H as <- <-.
  - destruct (p c).
    + destruct (Json.span p s) as [a' b'] eqn:E. injection H as <- <-.
      cbn. f_equal. now apply IH.
    + now injection H as <- <-.
Qed.

Lemma scan_cons_inv (c : char) (r : Json.scan str) (a rest : str) :
  Json.scan_cons c r = Json.Scanned a rest ->
  exists a', r = Json.Scanned a' rest /\ a = c :: a'.
Proof.
  destruct r; cbn; try discriminate.
  intros H; injection H as <- <-. eauto.
Qed.

(** A string scan stops after the closing quote, further on in the text. *)
Lemma scanstring_suffix (s a rest : str) :
  Json.scanstring s = Json.Scanned a rest ->
  suffix rest s /\ (List.length rest < List.length s)%nat.
Proof.
  assert (Hgen : forall n s a rest, (List.length s <= n)%nat ->
            Json.scanstring s = Json.Scanned a rest ->
            suffix rest s /\ (List.length rest < List.length s)%nat).
  { clear. induction n as [|n IH]; intros s a rest Hn H.
    { destruct s; [discriminate|cbn in Hn; lia]. }
    assert (IHs : forall s' a, (List.length s' <= n)%nat ->
              Json.scanstring s' = Json.Scanned a rest -> suffix rest s').
    { intros s' a' Hl Hs'. now destruct (IH s' a' rest Hl Hs'). }
    assert (IHl : forall s' a, (List.length s' <= n)%nat ->
              Json.scanstring s' = Json.Scanned a rest ->
              (List.length rest < List.length s')%nat).
    { intros s' a' Hl Hs'. now destruct (IH s' a' rest Hl Hs'). }
    destruct s as [|c s1]; [discriminate|]. cbn [Json.scanstring] in H.
    destruct (N.eqb c 34).
    { injection H as <- <-. split; [apply suffix_cons, suffix_refl|cbn; lia]. }
    destruct (isc "\" c).
    - destruct s1 as [|e s2]; [discriminate|].
      destruct (isc "u" e).
      + destruct s2 as [|h1 [|h2 [|h3 [|h4 [|b s3]]]]]; try discriminate.
        assert (Hx : forall t3 a', (List.length t3 <= n - 5)%nat ->
                  Json.scanstring t3 = Json.Scanned a' rest ->
                  suffix rest (c :: e :: h1 :: h2 :: h3 :: h4 :: t3) /\
                  (List.length rest
                   < List.length (c :: e :: h1 :: h2 :: h3 :: h4 :: t3))%nat).
        { intros t3 a' Hl3 Ha'. split.
          - do 6 apply suffix_cons. apply (IHs t3 a'); [lia|exact Ha'].
          - assert (Hl : (List.length t3 <= n)%nat) by lia.
            specialize (IHl t3 a' Hl Ha'). cbn. lia. }
        cbn [List.length] in Hn.
        destruct (Json.hex4 h1 h2 h3 h4) as [c1|]; [|discriminate].
        destruct (Json.is_high_surrogate c1);
          [|apply scan_cons_inv in H as (a' & H & _);
            apply (Hx _ a'); [cbn [List.length] in *; lia|exact H]].
        destruct s3 as [|u [|g1 [|g2 [|g3 [|g4 [|y s4]]]]]];
          try (apply scan_cons_inv in H as (a' & H & _);
               apply (Hx _ a'); [cbn [List.length] in *; lia|exact H]).
        destruct (isc "\" b && isc "u" u);
          [|apply scan_cons_inv in H as (a' & H & _);
            apply (Hx _ a'); [cbn [List.length] in *; lia|exact H]].
        destruct (Json.hex4 g1 g2 g3 g4) as [c2|]; [|discriminate].
        destruct (Json.is_low_surrogate c2);
          [|apply scan_cons_inv in H as (a' & H & _);
            apply (Hx _ a'); [cbn [List.length] in *; lia|exact H]].
        apply scan_cons_inv in H as (a' & H & _).
        assert (Hl4 : (List.length (y :: s4) <= n)%nat) by (cbn [List.length] in *; lia).
        split.
        * do 12 apply suffix_cons. now apply (IHs (y :: s4) a').
        * specialize (IHl (y :: s4) a' Hl4 H). cbn [List.length] in *. lia.
      + destruct (Json.unescape e); [|discriminate].
        apply scan_cons_inv in H as (a' & H & _).
        assert (Hl2 : (List.length s2 <= n)%nat) by (cbn [List.length] in *; lia).
        split.
        * do 2 apply suffix_cons. now apply (IHs s2 a').
        * specialize (IHl s2 a' Hl2 H). cbn. lia.
    - destruct (N.leb c 31); [discriminate|].
      apply scan_cons_inv in H as (a' & H & _).
      assert (Hl1 : (List.length s1 <= n)%nat) by (cbn [List.length] in *; lia).
      split.
      + apply suffix_cons. now apply (IHs s1 a').
      + specialize (IHl s1 a' Hl1 H). cbn. lia. }
  apply (Hgen _ s a rest (le_n _)).
Qed.

Lemma scanstring_no_fuel (s : str) : Json.scanstring s <> Json.NoFuel.
Proof.
  assert (Hno : forall n s, (List.length s <= n)%nat ->
            Json.scanstring s <> Json.NoFuel).
  { clear. induction n as [|n IH]; intros s Hl.
    - destruct s; [discriminate|cbn in Hl; lia].
    - assert (Hc : forall c t, (List.length t <= n)%nat ->
                Json.scan_cons c (Json.scanstring t) <> Json.NoFuel).
      { intros c t Ht Hc. specialize (IH t Ht).
        destruct (Json.scanstring t); cbn in Hc; congruence. }
      destruct s as [|c s]; [discriminate|]. cbn [Json.scanstring].
      cbn [List.length] in Hl.
      destruct (N.eqb c 34); [discriminate|].
      destruct (isc "\" c).
      + destruct s as [|e s]; [discriminate|].
        destruct (isc "u" e).
        * destruct s as [|h1 [|h2 [|h3 [|h4 [|b s]]]]]; try discriminate.
          cbn [List.length] in Hl.
          destruct (Json.hex4 h1 h2 h3 h4) as [c1|]; [|discriminate].
          destruct (Json.is_high_surrogate c1);
            [|apply Hc; cbn [List.length]; lia].
          destruct s as [|u [|g1 [|g2 [|g3 [|g4 [|y s]]]]]];
            try (apply Hc; cbn [List.length] in *; lia).
          destruct (isc "\" b && isc "u" u);
            [|apply Hc; cbn [List.length] in *; lia].
          destruct (Json.hex4 g1 g2 g3 g4) as [c2|]; [|discriminate].
          destruct (Json.is_low_surrogate c2);
            apply Hc; cbn [List.length] in *; lia.
        * destruct (Json.unescape e); [|discriminate].
          apply Hc. cbn [List.length] in Hl. lia.
      + destruct (N.leb c 31); [discriminate|]. apply Hc. lia. }
  apply (Hno _ s (le_n _)).
Qed.

Lemma span_suffix (p : char -> bool) (s a b : str) :
  Json.span p s = (a, b) -> suffix b s.
Proof. intros H. exists a. exact (span_app _ _ _ _ H). Qed.

Lemma integer_part_suffix (s ints rest : str) :
  Json.integer_part s = Some (ints, rest) ->
  suffix rest s /\ (List.length rest < List.length s)%nat.
Proof.
  destruct s as [|c s]; [discriminate|]. cbn.
  destruct (in_range 49 57 c).
  - destruct (Json.span Json.isdigit s) as [ds r] eqn:E.
    intros H; injection H as <- <-.
    pose proof (span_suffix _ _ _ _ E) as Hs.
    split; [now apply suffix_cons|]. apply suffix_length in Hs. lia.
  - destruct (isc "0" c); [|discriminate].
    intros H; injection H as <- <-.
    split; [apply suffix_cons, suffix_refl|lia].
Qed.

Lemma fraction_part_suffix (s frac rest : str) :
  Json.fraction_part s = (frac, rest) -> suffix rest s.
Proof.
  destruct s as [|p [|d s]]; cbn - [Json.span];
    try (intros H; injection H as <- <-; apply suffix_refl).
  destruct (isc "." p && Json.isdigit d).
  - intros H. apply suffix_cons. exact (span_suffix _ _ _ _ H).
  - intros H; injection H as <- <-. apply suffix_refl.
Qed.

Lemma exponent_part_suffix (s : str) (exp : option Z) (rest : str) :
  Json.exponent_part s = (exp, rest) -> suffix rest s.
Proof.
  destruct s as [|e s]; cbn - [Json.span].
  { intros H; injection H as <- <-. apply suffix_refl. }
  destruct (isc "e" e || isc "E" e);
    [|intros H; injection H as <- <-; apply suffix_refl].
  destruct (Json.exponent_sign s) as [negative s1] eqn:Es.
  destruct (Json.span Json.isdigit s1) as [ds r] eqn:E.
  destruct ds; intros H; injection H as <- <-; [apply suffix_refl|].
  pose proof (span_suffix _ _ _ _ E) as Hs. apply suffix_cons.
  apply (suffix_trans Hs). clear - Es.
  destruct s as [|c s]; cbn in Es; [injection Es as <- <-; apply suffix_refl|].
  destruct (isc "-" c); [injection Es as <- <-; apply suffix_cons, suffix_refl|].
  destruct (isc "+" c); injection Es as <- <-;
    [apply suffix_cons|]; apply suffix_refl.
Qed.

Lemma match_number_suffix (s : str) (v : json) (rest : str) :
  Json.match_number s = Json.Scanned v rest ->
  suffix rest s /\ (List.length rest < List.length s)%nat
  /\ is_dict v = false.
Proof.
  unfold Json.match_number.
  destruct (Json.optional "-" s) as [negative s1] eqn:E1.
  assert (H1 : suffix s1 s).
  { destruct s as [|c s]; cbn in E1; [injection E1 as <- <-; apply suffix_refl|].
    destruct (isc "-" c); injection E1 as <- <-;
      [apply suffix_cons|]; apply suffix_refl. }
  destruct (Json.integer_part s1) as [[ints s2]|] eqn:E2; [|discriminate].
  apply integer_part_suffix in E2 as [H2 L2].
  destruct (Json.fraction_part s2) as [frac s3] eqn:E3.
  apply fraction_part_suffix in E3.
  destruct (Json.exponent_part s3) as [exp s4] eqn:E4.
  apply exponent_part_suffix in E4.
  assert (Hs : suffix rest s4 -> suffix rest s).
  { intros H. apply (suffix_trans H), (suffix_trans E4), (suffix_trans E3).
    now apply (suffix_trans H2). }
  apply suffix_length in H1, E3, E4.
  destruct frac, exp; intros H; injection H as <- <-;
    (split; [apply Hs, suffix_refl|split; [lia|reflexivity]]).
Qed.

Lemma match_number_no_fuel (s : str) : Json.match_number s <> Json.NoFuel.
Proof.
  unfold Json.match_number.
  destruct (Json.optional "-" s) as [negative s1].
  destruct (Json.integer_part s1) as [[ints s2]|]; [|discriminate].
  destruct (Json.fraction_part s2) as [frac s3].
  destruct (Json.exponent_part s3) as [exp s4].
  destruct frac, exp; discriminate.
Qed.

(** More than twice the length of the text is fuel enough, and a scan
    stops further on in its text; an object or an array ends with its
    closing bracket. *)
Lemma scan_fuel (fuel : nat) :
  (forall s, (2 * List.length s < fuel)%nat ->
     Json.scan_once fuel s <> Json.NoFuel /\
     forall v rest, Json.scan_once fuel s = Json.Scanned v rest ->
       suffix rest s /\ (List.length rest < List.length s)%nat /\
       (is_dict v = true ->
        exists s', s = ch "{" :: s' /\ suffix (ch "}" :: rest) s')) /\
  (forall s acc, (2 * List.length s < fuel)%nat ->
     Json.object_items fuel s acc <> Json.NoFuel /\
     forall v rest, Json.object_items fuel s acc = Json.Scanned v rest ->
       suffix (ch "}" :: rest) s) /\
  (forall s acc, (2 * List.length s + 1 < fuel)%nat ->
     Json.array_items fuel s acc <> Json.NoFuel /\
     forall v rest, Json.array_items fuel s acc = Json.Scanned v rest ->
       suffix (ch "]" :: rest) s /\ is_dict v = false).
Proof.
  induction fuel as [|fuel (IHv & IHo & IHa)].
  { repeat split; intros; lia. }
  split; [|split].
  - (* scan_once *)
    intros s Hf. destruct s as [|c s1].
    { split; [discriminate|]. discriminate. }
    cbn [Json.scan_once List.length] in *.
    destruct (N.eqb c 34).
    { destruct (Json.scanstring s1) as [a r| |] eqn:E; cbn.
      - split; [discriminate|]. intros v rest H; injection H as <- <-.
        apply scanstring_suffix in E as [Hs Hl].
        repeat split; [now apply suffix_cons|lia|discriminate].
      - split; discriminate.
      - now apply scanstring_no_fuel in E. }
    destruct (isc "{" c) eqn:Ec.
    { pose proof (suffix_skip_ws s1) as Hw.
      pose proof (suffix_length Hw) as Lw.
      destruct (Json.skip_ws s1) as [|c' s2]; [split; discriminate|].
      assert (c = ch "{") as -> by (now apply N.eqb_eq in Ec).
      destruct (isc "}" c') eqn:Ec'.
      - assert (c' = ch "}") as -> by (now apply N.eqb_eq in Ec').
        split; [discriminate|]. intros v rest H; injection H as <- <-.
        cbn [List.length] in Lw.
        repeat split; [apply suffix_cons, (suffix_tail Hw)|lia|].
        intros _. now exists s1.
      - cbn [List.length] in Lw.
        destruct (IHo (c' :: s2) []) as [Hno Hok]; [cbn [List.length]; lia|].
        split; [exact Hno|]. intros v rest H. apply Hok in H.
        pose proof (suffix_trans H Hw) as Hs.
        pose proof (suffix_length Hs) as Ls. cbn [List.length] in Ls.
        repeat split;
          [apply suffix_cons, (suffix_tail Hs)|lia|].
        intros _. now exists s1. }
    destruct (isc "[" c).
    { pose proof (suffix_skip_ws s1) as Hw.
      pose proof (suffix_length Hw) as Lw.
      destruct (Json.skip_ws s1) as [|c' s2]; [split; discriminate|].
      cbn [List.length] in Lw.
      destruct (isc "]" c').
      - split; [discriminate|]. intros v rest H; injection H as <- <-.
        repeat split; [apply suffix_cons, (suffix_tail Hw)|lia|discriminate].
      - destruct (IHa (c' :: s2) []) as [Hno Hok]; [cbn [List.length]; lia|].
        split; [exact Hno|]. intros v rest H. apply Hok in H as [H Hv].
        pose proof (suffix_trans H Hw) as Hs.
        pose proof (suffix_length Hs) as Ls. cbn [List.length] in Ls.
        repeat split; [apply suffix_cons, (suffix_tail Hs)|lia|].
        rewrite Hv. discriminate. }
    assert (Hconst : forall (p : str) (k : json) (r : str),
              p <> [] -> is_dict k = false ->
              Str.strip_prefix p (c :: s1) = Some r ->
              Json.Scanned k r <> Json.NoFuel /\
              forall v rest, Json.Scanned k r = Json.Scanned v rest ->
                suffix rest (c :: s1) /\
                (List.length rest < S (List.length s1))%nat /\
                (is_dict v = true ->
                 exists s', c :: s1 = ch "{" :: s' /\
                            suffix (ch "}" :: rest) s')).
    { intros p k r Hp Hk E. split; [discriminate|].
      intros v rest H; injection H as <- <-.
      apply strip_prefix_app in E.
      repeat split.
      - now exists p.
      - change (S (List.length s1)) with (List.length (c :: s1)).
        rewrite E, length_app. destruct p; [now elim Hp|cbn; lia].
      - rewrite Hk. discriminate. }
    destruct (Str.strip_prefix (lit "null") (c :: s1)) eqn:E1;
      [now apply (Hconst (lit "null"))|].
    destruct (Str.strip_prefix (lit "true") (c :: s1)) eqn:E2;
      [now apply (Hconst (lit "true"))|].
    destruct (Str.strip_prefix (lit "false") (c :: s1)) eqn:E3;
      [now apply (Hconst (lit "false"))|].
    destruct (Str.strip_prefix (lit "NaN") (c :: s1)) eqn:E4;
      [now apply (Hconst (lit "NaN"))|].
    destruct (Str.strip_prefix (lit "Infinity") (c :: s1)) eqn:E5;
      [now apply (Hconst (lit "Infinity"))|].
    destruct (Str.strip_prefix (lit "-Infinity") (c :: s1)) eqn:E6;
      [now apply (Hconst (lit "-Infinity"))|].
    split.
    + apply match_number_no_fuel.
    + intros v rest H. apply match_number_suffix in H as (Hs & Hl & Hv).
      repeat split; [exact Hs|exact Hl|]. rewrite Hv. discriminate.
  - (* object_items *)
    intros s acc Hf. cbn [Json.object_items].
    destruct s as [|q s1]; [split; discriminate|].
    cbn [List.length] in Hf.
    destruct (N.eqb q 34); [|split; discriminate].
    destruct (Json.scanstring s1) as [key s2| |] eqn:E1;
      [|split; discriminate|now apply scanstring_no_fuel in E1].
    apply scanstring_suffix in E1 as [H1 L1].
    pose proof (suffix_skip_ws s2) as H2. pose proof (suffix_length H2) as L2.
    destruct (Json.skip_ws s2) as [|c s3]; [split; discriminate|].
    cbn [List.length] in L2.
    destruct (isc ":" c); [|split; discriminate].
    pose proof (suffix_skip_ws s3) as H3. pose proof (suffix_length H3) as L3.
    destruct (IHv (Json.skip_ws s3)) as [Hno Hok]; [lia|].
    destruct (Json.scan_once fuel (Json.skip_ws s3)) as [v s4| |];
      [|split; discriminate|now elim Hno].
    destruct (Hok v s4 eq_refl) as (H4 & L4 & _).
    pose proof (suffix_skip_ws s4) as H5. pose proof (suffix_length H5) as L5.
    assert (Hs : suffix (Json.skip_ws s4) (q :: s1)).
    { apply suffix_cons. apply (suffix_trans H5), (suffix_trans H4).
      apply (suffix_trans H3), (suffix_tail (c := c)).
      now apply (suffix_trans H2). }
    destruct (Json.skip_ws s4) as [|d s5]; [split; discriminate|].
    cbn [List.length] in L5.
    destruct (isc "}" d) eqn:Ed.
    { assert (d = ch "}") as -> by (now apply N.eqb_eq in Ed).
      split; [discriminate|]. intros v' rest H; injection H as <- <-.
      exact Hs. }
    destruct (isc "," d); [|split; discriminate].
    pose proof (suffix_skip_ws s5) as H6. pose proof (suffix_length H6) as L6.
    destruct (IHo (Json.skip_ws s5) (Json.set key v acc)) as [Hno' Hok'];
      [lia|].
    split; [exact Hno'|]. intros v' rest H. apply Hok' in H.
    apply (suffix_trans H), (suffix_trans H6), (suffix_tail Hs).
  - (* array_items *)
    intros s acc Hf. cbn [Json.array_items].
    destruct (IHv s) as [Hno Hok]; [lia|].
    destruct (Json.scan_once fuel s) as [v s1| |];
      [|split; discriminate|now elim Hno].
    destruct (Hok v s1 eq_refl) as (H1 & L1 & _).
    pose proof (suffix_skip_ws s1) as H2. pose proof (suffix_length H2) as L2.
    pose proof (suffix_trans H2 H1) as Hs.
    destruct (Json.skip_ws s1) as [|d s2]; [split; discriminate|].
    cbn [List.length] in L2.
    destruct (isc "]" d) eqn:Ed.
    { assert (d = ch "]") as -> by (now apply N.eqb_eq in Ed).
      split; [discriminate|]. intros v' rest H; injection H as <- <-.
      split; [exact Hs|reflexivity]. }
    destruct (isc "," d); [|split; discriminate].
    pose proof (suffix_skip_ws s2) as H3. pose proof (suffix_length H3) as L3.
    destruct (IHa (Json.skip_ws s2) (acc ++ [v])) as [Hno' Hok']; [lia|].
    split; [exact Hno'|]. intros v' rest H. apply Hok' in H as [H Hv].
    split; [|exact Hv].
    apply (suffix_trans H), (suffix_trans H3), (suffix_tail Hs).
Qed.

(** [json.loads] raises nothing but [JSONDecodeError]: the fuel it gives
    the scanner is enough. *)
Lemma loads_raises (s : str) (e : exn) :
  Json.loads s = Raise e -> e = JSONDecodeError.
Proof.
  unfold Json.loads.
  destruct (Str.startswith [65279] s); [now intros H; injection H as <-|].
  destruct (scan_fuel (S (2 * List.length s))) as (Hno & _).
  specialize (Hno (Json.skip_ws s)).
  pose proof (skip_ws_length s) as Hl.
  destruct (Json.scan_once (S (2 * List.length s)) (Json.skip_ws s))
    as [v rest| |].
  - destruct (Json.skip_ws rest); [discriminate|].
    now intros H; injection H as <-.
  - now intros H; injection H as <-.
  - exfalso. destruct Hno as [Hno _]; [lia|]. now apply Hno.
Qed.

Lemma loads_fuel (s : str) : Json.loads s <> Raise OutOfFuel.
Proof. intros H. now apply loads_raises in H. Qed.


(** ** Braces *)



Lemma lstrip_suffix (s : str) : suffix (Str.lstrip s) s.
Proof.
  induction s as [|c s IH]; cbn; [apply suffix_refl|].
  destruct (Str.isspace c); [now apply suffix_cons|apply suffix_refl].
Qed.

Lemma rstrip_prefix (s : str) : exists t, s = Str.rstrip s ++ t.
Proof.
  induction s as [|c s (t & IH)]; [now exists []|]. cbn.
  destruct (Str.rstrip s) as [|x r].
  - destruct (Str.isspace c); [now exists (c :: s)|now exists s].
  - exists t. cbn. f_equal. exact IH.
Qed.

Lemma strip_infix (s : str) : exists a b, s = a ++ Str.strip s ++ b.
Proof.
  unfold Str.strip. destruct (lstrip_suffix s) as [a Ha].
  destruct (rstrip_prefix (Str.lstrip s)) as [b Hb].
  exists a, b. now rewrite <- Hb.
Qed.






(** ** What a match of the pattern looks like *)

Section ExecInversion.
Variable R : Type.
Implicit Types (k : str -> option str -> option R) (g : option str).

Lemma exec_text (p s : str) g k (x : R) :
  Re.exec (Re.text p) s g k = Some x ->
  exists r, s = p ++ r /\ k r g = Some x.
Proof.
  revert s; induction p as [|c p IH]; intros s; cbn.
  - intros H. now exists s.
  - destruct s as [|c' s]; [discriminate|].
    destruct (N.eqb_spec c c') as [<-|]; [|discriminate].
    intros H. destruct (IH _ H) as (r & -> & Hk). now exists r.
Qed.

Lemma exec_star (p : char -> bool) (s : str) g k (x : R) :
  Re.exec (Re.Star p) s g k = Some x ->
  exists a r, s = a ++ r /\ forallb p a = true /\ k r g = Some x.
Proof.
  cbn. induction s as [|c s IH].
  - intros H. now exists [], [].
  - destruct (p c) eqn:Ep; [|intros H; now exists [], (c :: s)].
    match goal with |- context [match ?m with Some _ => _ | None => _ end] =>
      destruct m as [y|] eqn:E end.
    + intros H; injection H as ->.
      destruct (IH eq_refl) as (a & r & -> & Ha & Hk).
      exists (c :: a), r. cbn. now rewrite Ep, Ha.
    + intros H. now exists [], (c :: s).
Qed.

Lemma exec_lazy (p : char -> bool) (s : str) g k (x : R) :
  Re.exec (Re.StarLazy p) s g k = Some x ->
  exists a r, s = a ++ r /\ k r g = Some x.
Proof.
  cbn. induction s as [|c s IH].
  - destruct (k [] g) eqn:E; [|discriminate].
    intros H; injection H as ->. now exists [], [].
  - destruct (k (c :: s) g) eqn:E.
    + intros H; injection H as ->. now exists [], (c :: s).
    + destruct (p c); [|discriminate].
      intros H. destruct (IH H) as (a & r & -> & Hk). now exists (c :: a), r.
Qed.

Lemma exec_seq (a b : Re.re) (s : str) g k :
  Re.exec (a +++ b) s g k = Re.exec a s g (fun s' g' => Re.exec b s' g' k).
Proof. reflexivity. Qed.

Lemma exec_group (a : Re.re) (s : str) g k :
  Re.exec (Re.Group a) s g k
  = Re.exec a s g
      (fun s' _ => k s' (Some (firstn (List.length s - List.length s') s))).
Proof. reflexivity. Qed.

Lemma exec_opt (a : Re.re) (s : str) g k (x : R) :
  Re.exec (Re.Opt a) s g k = Some x ->
  Re.exec a s g k = Some x \/ k s g = Some x.
Proof.
  cbn [Re.exec]. destruct (Re.exec a s g k); [left|right]; assumption.
Qed.

Lemma exec_chr (p : char -> bool) (s : str) g k (x : R) :
  Re.exec (Re.Chr p) s g k = Some x ->
  exists c r, s = c :: r /\ p c = true /\ k r g = Some x.
Proof.
  cbn [Re.exec]. destruct s as [|c r]; [discriminate|].
  destruct (p c) eqn:E; [|discriminate]. intros H. now exists c, r.
Qed.

End ExecInversion.

Lemma firstn_consumed (s p r : str) :
  s = p ++ r -> firstn (List.length s - List.length r) s = p.
Proof.
  intros ->. rewrite length_app, Nat.add_sub.
  rewrite firstn_app, Nat.sub_diag, firstn_all. cbn. apply app_nil_r.
Qed.

(** A match of the pattern at the start of [s]: an opening fence, the
    optional tag, spaces, a brace span, spaces, a closing fence; the group
    is the brace span. *)
Lemma fenced_match_inv (s : str) (g : option str) :
  Re.match_here fenced_pattern s = Some g ->
  exists tag ws1 body ws2 post,
    s = lit "```" ++ tag ++ ws1 ++ ch "{" :: body ++ ch "}" :: ws2
              ++ lit "```" ++ post
    /\ (tag = [] \/ tag = lit "json")
    /\ forallb Str.isspace ws1 = true /\ forallb Str.isspace ws2 = true
    /\ g = Some (ch "{" :: body ++ [ch "}"]).
Proof.
  unfold Re.match_here, fenced_pattern. intros H.
  rewrite exec_seq in H. apply exec_text in H as (r1 & -> & H).
  rewrite exec_seq in H.
  assert (Htag : exists tag r2, r1 = tag ++ r2 /\
            (tag = [] \/ tag = lit "json") /\
            Re.exec
              (Re.Star Str.isspace
               +++ Re.Group
                     (Re.Chr (isc "{") +++ Re.StarLazy Re.any
                      +++ Re.Chr (isc "}"))
               +++ Re.Star Str.isspace +++ Re.text (lit "```"))
              r2 None (fun _ g0 => Some g0) = Some g).
  { apply exec_opt in H as [H|H].
    - apply exec_text in H as (r2 & -> & H). exists (lit "json"), r2. auto.
    - exists [], r1. auto. }
  clear H. destruct Htag as (tag & r2 & -> & Htag & H).
  rewrite exec_seq in H. apply exec_star in H as (ws1 & r3 & -> & Hws1 & H).
  rewrite exec_seq, exec_group, exec_seq in H.
  apply exec_chr in H as (c & r4 & -> & Ec & H).
  apply N.eqb_eq in Ec as ->.
  rewrite exec_seq in H. apply exec_lazy in H as (body & r5 & -> & H).
  apply exec_chr in H as (c & r6 & -> & Ec & H).
  apply N.eqb_eq in Ec as ->.
  rewrite exec_seq in H. apply exec_star in H as (ws2 & r7 & -> & Hws2 & H).
  apply exec_text in H as (post & -> & H). injection H as <-.
  exists tag, ws1, body, ws2, post. repeat split; auto.
  f_equal.
  assert (Heq : ch "{" :: body ++ ch "}" :: ws2 ++ lit "```" ++ post
                = (ch "{" :: body ++ [ch "}"]) ++ (ws2 ++ lit "```" ++ post))
    by (cbn; now rewrite <- app_assoc).
  exact (firstn_consumed _ _ _ Heq).
Qed.

Lemma search_inv (r : Re.re) (s : str) (g : option str) :
  Re.search r s = Some g ->
  exists pre suf, s = pre ++ suf /\ Re.match_here r suf = Some g.
Proof.
  induction s as [|c s IH]; cbn.
  - destruct (Re.match_here r []) eqn:E; [|discriminate].
    intros H; injection H as ->. now exists [], [].
  - destruct (Re.match_here r (c :: s)) eqn:E.
    + intros H; injection H as ->. now exists [], (c :: s).
    + intros H. destruct (IH H) as (pre & suf & -> & Hm).
      now exists (c :: pre), suf.
Qed.


(** ** Fences *)

Lemma fence_free_cons (c : char) (s : str) :
  fence_free (c :: s) = true ->
  Str.startswith (lit "```") (c :: s) = false /\ fence_free s = true.
Proof.
  unfold fence_free. cbn [Str.contains]. intros H.
  apply negb_true_iff, orb_false_iff in H as [H1 H2].
  split; [exact H1|now rewrite H2].
Qed.

Lemma contains_app (needle a b : str) :
  Str.contains needle b = true -> Str.contains needle (a ++ b) = true.
Proof.
  intros H. induction a as [|c a IH]; [exact H|].
  cbn [app Str.contains]. rewrite IH. apply orb_true_r.
Qed.

Lemma fence_free_suffix (a b : str) :
  fence_free (a ++ b) = true -> fence_free b = true.
Proof.
  unfold fence_free. intros H. apply negb_true_iff in H.
  destruct (Str.contains (lit "```") b) eqn:E; [|reflexivity].
  now rewrite (contains_app _ a _ E) in H.
Qed.

(** A text that does not start with a fence does not start with one when
    a closing brace is put after it. *)
Lemma startswith_fence_brace (b rest : str) :
  Str.startswith (lit "```") b = false ->
  Str.startswith (lit "```") (b ++ ch "}" :: rest) = false.
Proof.
  unfold Str.startswith.
  destruct b as [|c1 [|c2 [|c3 b]]]; cbn [app lit Str.strip_prefix map
    list_ascii_of_string]; change (ch "`") with 96;
    repeat match goal with
           | |- context [N.eqb 96 ?c] => destruct (N.eqb_spec 96 c); subst
           end; try reflexivity; try discriminate.
Qed.

(** Without three backticks in a row nothing matches. *)
Lemma search_no_fence (s : str) :
  fence_free s = true -> Re.search fenced_pattern s = None.
Proof.
  intros H. destruct (Re.search fenced_pattern s) as [g|] eqn:E; [|reflexivity].
  apply search_inv in E as (pre & suf & -> & E).
  apply fenced_match_inv in E as (tag & ws1 & body & ws2 & post & -> & _).
  apply fence_free_suffix in H. discriminate.
Qed.

(** ** Replies without a brace pair *)


(** ** The ways extraction fails *)



(** ** Running the pattern on a fenced brace span *)

Section ExecForward.
Variable R : Type.
Implicit Types (k : str -> option str -> option R) (g : option str).

Lemma exec_text_app (p r : str) g k :
  Re.exec (Re.text p) (p ++ r) g k = k r g.
Proof.
  induction p as [|c p IH]; cbn; [reflexivity|].
  now rewrite N.eqb_refl.
Qed.

Lemma exec_text_head (p : str) (c c' : char) (s : str) g k :
  c <> c' -> Re.exec (Re.text (c :: p)) (c' :: s) g k = None.
Proof.
  intros H. cbn. now destruct (N.eqb_spec c c').
Qed.

Lemma exec_chr_cons (p : char -> bool) (c : char) (r : str) g k :
  Re.exec (Re.Chr p) (c :: r) g k = if p c then k r g else None.
Proof. reflexivity. Qed.

(** A greedy repetition runs over [ws] when the rest does not go on with
    the class and the continuation accepts the rest. *)
Lemma exec_star_app (p : char -> bool) (ws r : str) g k (x : R) :
  forallb p ws = true ->
  match r with c :: _ => p c = false | [] => True end ->
  k r g = Some x ->
  Re.exec (Re.Star p) (ws ++ r) g k = Some x.
Proof.
  intros Hws Hr Hk. cbn [Re.exec].
  induction ws as [|c ws IH]; cbn [app].
  - destruct r as [|c r]; [exact Hk|]. now rewrite Hr.
  - cbn in Hws. apply andb_prop in Hws as [-> Hws]. now rewrite (IH Hws).
Qed.

(** A lazy repetition runs over [body] when the continuation refuses every
    earlier stop and accepts the rest. *)
Lemma exec_lazy_app (body r : str) g k (x : R) :
  (forall a c b, body = a ++ c :: b -> k (c :: b ++ r) g = None) ->
  k r g = Some x ->
  Re.exec (Re.StarLazy Re.any) (body ++ r) g k = Some x.
Proof.
  intros Hno Hk. cbn [Re.exec].
  induction body as [|c body IH]; cbn [app].
  - destruct r; now rewrite Hk.
  - rewrite (Hno [] c body eq_refl). cbn [Re.any]. apply IH.
    intros a c' b ->. apply (Hno (c :: a) c' b eq_refl).
Qed.

Lemma exec_text_none (p s : str) g k :
  Str.startswith p s = false -> Re.exec (Re.text p) s g k = None.
Proof.
  unfold Str.startswith. revert s; induction p as [|c p IH]; intros s;
    cbn [Str.strip_prefix Re.text Re.exec]; [discriminate|].
  destruct s as [|c' s]; [reflexivity|].
  destruct (N.eqb c c'); [apply IH|reflexivity].
Qed.

(** Spaces and a closing fence are not found where the text goes on
    without a fence up to a closing brace. *)
Lemma exec_star_fence_none (b rest : str) g k :
  fence_free b = true ->
  Re.exec (Re.Star Str.isspace) (b ++ ch "}" :: rest) g
    (fun s' g' => Re.exec (Re.text (lit "```")) s' g' k) = None.
Proof.
  intros Hb. cbn [Re.exec].
  induction b as [|c b IH]; cbn [app].
  - reflexivity.
  - apply fence_free_cons in Hb as [Hc Hb].
    rewrite (IH Hb).
    assert (Hf : Re.exec (Re.text (lit "```")) (c :: b ++ ch "}" :: rest) g k
                 = None).
    { apply exec_text_none. exact (startswith_fence_brace (c :: b) rest Hc). }
    rewrite Hf. now destruct (Str.isspace c).
Qed.

End ExecForward.

(** The pattern matches a fenced brace span, and the group is the span. *)
Lemma fenced_match_span (tag ws1 body ws2 post : str) :
  tag = [] \/ tag = lit "json" ->
  forallb Str.isspace ws1 = true -> forallb Str.isspace ws2 = true ->
  fence_free body = true ->
  Re.match_here fenced_pattern
    (lit "```" ++ tag ++ ws1 ++ ch "{" :: body ++ ch "}" :: ws2
       ++ lit "```" ++ post)
  = Some (Some (ch "{" :: body ++ [ch "}"])).
Proof.
  intros Htag Hws1 Hws2 Hbody.
  unfold Re.match_here, fenced_pattern.
  rewrite exec_seq, exec_text_app, exec_seq.
  set (tail := Re.Star Str.isspace
               +++ Re.Group
                     (Re.Chr (isc "{") +++ Re.StarLazy Re.any
                      +++ Re.Chr (isc "}"))
               +++ Re.Star Str.isspace +++ Re.text (lit "```")).
  assert (Htail :
    Re.exec tail
      (ws1 ++ ch "{" :: body ++ ch "}" :: ws2 ++ lit "```" ++ post) None
      (fun _ g0 => Some g0)
    = Some (Some (ch "{" :: body ++ [ch "}"]))).
  { unfold tail. rewrite exec_seq.
    apply exec_star_app; [exact Hws1|reflexivity|].
    rewrite exec_seq, exec_group, exec_seq, exec_chr_cons.
    change (isc "{" (ch "{")) with true. cbv iota beta.
    rewrite exec_seq.
    apply exec_lazy_app.
    - intros a c b ->. rewrite exec_chr_cons.
      destruct (isc "}" c); [|reflexivity].
      rewrite exec_seq. rewrite <- app_assoc. apply exec_star_fence_none.
      apply fence_free_suffix in Hbody.
      now apply fence_free_cons in Hbody as [_ Hbody].
    - rewrite exec_chr_cons. change (isc "}" (ch "}")) with true.
      cbv iota beta. rewrite exec_seq.
      apply exec_star_app; [exact Hws2|reflexivity|].
      rewrite exec_text_app. do 2 f_equal.
      assert (Heq : ch "{" :: body ++ ch "}" :: ws2 ++ lit "```" ++ post
                    = (ch "{" :: body ++ [ch "}"])
                      ++ (ws2 ++ lit "```" ++ post))
        by (cbn; now rewrite <- app_assoc).
      exact (firstn_consumed _ _ _ Heq). }
  destruct Htag as [->| ->].
  - cbn [app Re.exec].
    assert (Hj : Re.exec (Re.text (lit "json"))
                   (ws1 ++ ch "{" :: body ++ ch "}" :: ws2 ++ lit "```" ++ post)
                   None
                   (fun s' g' => Re.exec tail s' g' (fun _ g0 => Some g0))
                 = None).
    { destruct ws1 as [|c ws1]; [reflexivity|].
      cbn in Hws1. apply andb_prop in Hws1 as [Hc _].
      apply exec_text_head. intros <-. discriminate. }
    rewrite Hj. exact Htail.
  - cbn [Re.exec]. rewrite exec_text_app. now rewrite Htail.
Qed.

(** Nothing matches where a fourth backtick follows a fence. *)
Lemma match_here_backticks (s : str) :
  Re.match_here fenced_pattern (lit "```" ++ ch "`" :: s) = None.
Proof. reflexivity. Qed.

(** The search passes over text without a fence, up to the first fence. *)
Lemma search_skip (pre s : str) :
  fence_free pre = true ->
  Re.search fenced_pattern (pre ++ lit "```" ++ s)
  = Re.search fenced_pattern (lit "```" ++ s).
Proof.
  intros H. induction pre as [|c pre IH]; [reflexivity|].
  apply fence_free_cons in H as [Hc H].
  cbn [app Re.search].
  assert (Hm : Re.match_here fenced_pattern (c :: pre ++ lit "```" ++ s)
               = None).
  { destruct (N.eqb_spec 96 c) as [<-|Hne].
    2:{ unfold Re.match_here, fenced_pattern. rewrite exec_seq.
        now apply exec_text_head. }
    destruct pre as [|c2 pre]; [exact (match_here_backticks _)|].
    destruct (N.eqb_spec 96 c2) as [<-|Hne2].
    2:{ unfold Re.match_here, fenced_pattern. rewrite exec_seq.
        apply exec_text_none. unfold Str.startswith.
        cbn [app lit Str.strip_prefix map list_ascii_of_string].
        change (ch "`") with 96. rewrite N.eqb_refl.
        now destruct (N.eqb_spec 96 c2). }
    destruct pre as [|c3 pre]; [exact (match_here_backticks _)|].
    destruct (N.eqb_spec 96 c3) as [<-|Hne3]; [discriminate|].
    unfold Re.match_here, fenced_pattern. rewrite exec_seq.
    apply exec_text_none. unfold Str.startswith.
    cbn [app lit Str.strip_prefix map list_ascii_of_string].
    change (ch "`") with 96. rewrite !N.eqb_refl.
    now destruct (N.eqb_spec 96 c3). }
  rewrite Hm. now apply IH.
Qed.

Lemma search_here (s : str) (g : option str) :
  Re.match_here fenced_pattern s = Some g ->
  Re.search fenced_pattern s = Some g.
Proof. intros H. destruct s; cbn [Re.search]; now rewrite H. Qed.

(** Stripping leaves a text alone that neither starts nor ends with a
    space. *)
Lemma rstrip_snoc (x : str) (c : char) :
  Str.isspace c = false -> Str.rstrip (x ++ [c]) = x ++ [c].
Proof.
  intros H. induction x as [|a x IH]; cbn; [now rewrite H|].
  rewrite IH. now destruct (x ++ [c]) eqn:E; [destruct x; discriminate|].
Qed.

Lemma strip_fixed (c : char) (x : str) (c' : char) :
  Str.isspace c = false -> Str.isspace c' = false ->
  Str.strip (c :: x ++ [c']) = c :: x ++ [c'].
Proof.
  intros H H'. unfold Str.strip. cbn [Str.lstrip]. rewrite H.
  exact (rstrip_snoc (c :: x) c' H').
Qed.

Lemma fenced_candidate_span (raw pre tag ws1 body ws2 post : str) :
  Str.strip raw
  = pre ++ lit "```" ++ tag ++ ws1 ++ ch "{" :: body ++ ch "}" :: ws2
        ++ lit "```" ++ post ->
  fence_free pre = true ->
  tag = [] \/ tag = lit "json" ->
  forallb Str.isspace ws1 = true -> forallb Str.isspace ws2 = true ->
  fence_free body = true ->
  fenced_candidate raw = ch "{" :: body ++ [ch "}"].
Proof.
  intros Hraw Hpre Htag Hws1 Hws2 Hbody. unfold fenced_candidate.
  rewrite Hraw, (search_skip _ _ Hpre).
  rewrite (search_here _ _ (fenced_match_span _ _ _ _ post Htag Hws1 Hws2 Hbody)).
  now apply strip_fixed.
Qed.

(** ** Key order *)

Lemma str_eqb_eq (a b : str) : str_eqb a b = true <-> a = b.
Proof.
  revert b; induction a as [|x a IH]; intros [|y b]; cbn; split;
    try discriminate; try reflexivity.
  - intros H. apply andb_prop in H as [Hx Hab].
    apply N.eqb_eq in Hx as ->. f_equal. now apply IH.
  - intros H; injection H as -> ->. rewrite N.eqb_refl. now apply IH.
Qed.

Lemma str_eqb_refl (a : str) : str_eqb a a = true.
Proof. now apply str_eqb_eq. Qed.

Lemma str_eqb_neq (a b : str) : str_eqb a b = false <-> a <> b.
Proof.
  split.
  - intros H ->. now rewrite str_eqb_refl in H.
  - intros H. destruct (str_eqb a b) eqn:E; [|reflexivity].
    now apply str_eqb_eq in E.
Qed.

Lemma ltb_irrefl (a : str) : Str.ltb a a = false.
Proof.
  induction a as [|x a IH]; cbn; [reflexivity|].
  now rewrite N.ltb_irrefl, N.eqb_refl, IH.
Qed.

Lemma ltb_trans (a b c : str) :
  Str.ltb a b = true -> Str.ltb b c = true -> Str.ltb a c = true.
Proof.
  revert b c; induction a as [|x a IH]; intros [|y b] [|z c]; cbn;
    try discriminate; try reflexivity.
  intros Hab Hbc.
  apply orb_prop in Hab as [Hxy|Hab]; apply orb_prop in Hbc as [Hyz|Hbc].
  - apply N.ltb_lt in Hxy, Hyz.
    assert (H : (x <? z) = true) by (apply N.ltb_lt; lia). now rewrite H.
  - apply andb_prop in Hbc as [Hyz _]. apply N.eqb_eq in Hyz as <-.
    now rewrite Hxy.
  - apply andb_prop in Hab as [Hxy _]. apply N.eqb_eq in Hxy as ->.
    now rewrite Hyz.
  - apply andb_prop in Hab as [Hxy Hab]. apply andb_prop in Hbc as [Hyz Hbc].
    apply N.eqb_eq in Hxy as ->. apply N.eqb_eq in Hyz as ->.
    rewrite N.eqb_refl, (IH _ _ Hab Hbc). apply orb_true_r.
Qed.

Lemma ltb_total (a b : str) :
  a <> b -> Str.ltb a b = true \/ Str.ltb b a = true.
Proof.
  revert b; induction a as [|x a IH]; intros [|y b] H; cbn.
  - now elim H.
  - now left.
  - now right.
  - destruct (N.lt_trichotomy x y) as [Hlt|[->|Hgt]].
    + left. apply N.ltb_lt in Hlt. now rewrite Hlt.
    + rewrite N.ltb_irrefl, N.eqb_refl. cbn.
      apply IH. intros ->. now elim H.
    + right. apply N.ltb_lt in Hgt. now rewrite Hgt.
Qed.

Lemma ltb_asym (a b : str) : Str.ltb a b = true -> Str.ltb b a = false.
Proof.
  intros H. destruct (Str.ltb b a) eqn:E; [|reflexivity].
  now rewrite <- (ltb_irrefl a), <- (ltb_trans _ _ _ H E).
Qed.

Lemma distinct_NoDup (keys : list str) : distinct keys = true -> NoDup keys.
Proof.
  induction keys as [|k ks IH]; cbn; [constructor|].
  intros H. apply andb_prop in H as [Hk Hks].
  constructor; [|now apply IH]. intros Hin.
  apply negb_true_iff in Hk.
  assert (Hex : existsb (str_eqb k) ks = true).
  { apply existsb_exists. exists k. split; [exact Hin|apply str_eqb_refl]. }
  congruence.
Qed.

Section Sorting.
Variable A : Type.
Implicit Types (a b : str * A) (l : list (str * A)).

(** Two items with different keys go into their places in either order. *)
Lemma insert_item_comm a b l :
  fst a <> fst b ->
  Json.insert_item a (Json.insert_item b l)
  = Json.insert_item b (Json.insert_item a l).
Proof.
  intros Hab. induction l as [|x l IH]; cbn.
  - destruct (ltb_total _ _ Hab) as [H|H]; rewrite H, (ltb_asym _ _ H);
      reflexivity.
  - destruct (Str.ltb (fst b) (fst x)) eqn:Hbx;
      destruct (Str.ltb (fst a) (fst x)) eqn:Hax; cbn;
      rewrite ?Hbx, ?Hax.
    + destruct (ltb_total _ _ Hab) as [H|H]; rewrite H, (ltb_asym _ _ H);
        reflexivity.
    + destruct (Str.ltb (fst a) (fst b)) eqn:H; [|reflexivity].
      now rewrite (ltb_trans _ _ _ H Hbx) in Hax.
    + destruct (Str.ltb (fst b) (fst a)) eqn:H; [|reflexivity].
      now rewrite (ltb_trans _ _ _ H Hax) in Hbx.
    + now rewrite IH.
Qed.

(** Items with distinct keys are sorted to the same list whatever their
    order. *)
Lemma sort_items_perm l1 l2 :
  Permutation l1 l2 -> NoDup (map fst l1) ->
  Json.sort_items l1 = Json.sort_items l2.
Proof.
  unfold Json.sort_items.
  induction 1 as [|x l1 l2 _ IH|x y l|l1 l2 l3 H12 IH12 H23 IH23]; intros Hnd.
  - reflexivity.
  - cbn [fold_right map] in *. inversion Hnd; subst. now rewrite IH.
  - cbn [fold_right map] in *. inversion Hnd as [|? ? Hy Hnd']; subst.
    apply insert_item_comm. intros Heq. apply Hy. left. now symmetry.
  - rewrite IH12 by assumption. apply IH23.
    apply (Permutation_NoDup (Permutation_map fst H12) Hnd).
Qed.

End Sorting.

(** ** Values that differ in key order only *)

Section SameMappingInd.
Variable P : json -> json -> Prop.
Hypothesis Hvalue : forall v, P v v.
Hypothesis Hlist : forall l1 l2,
  Forall2 (fun a b => same_mapping a b /\ P a b) l1 l2 ->
  P (JList l1) (JList l2).
Hypothesis Hdict : forall d1 d2 d,
  Permutation d1 d ->
  Forall2 (fun a b => fst a = fst b /\ same_mapping (snd a) (snd b)
                      /\ P (snd a) (snd b)) d d2 ->
  P (JDict d1) (JDict d2).

(** Induction on [same_mapping] with the hypothesis for the items. *)
Lemma same_mapping_induction (a b : json) : same_mapping a b -> P a b.
Proof.
  revert a b. fix IH 3. intros a b [v|l1 l2 HF|d1 d2 d HP HF].
  - apply Hvalue.
  - apply Hlist. induction HF as [|x y l l' Hxy _ IHF]; constructor.
    + split; [exact Hxy|exact (IH x y Hxy)].
    + exact IHF.
  - apply (Hdict d1 d2 d HP). clear HP.
    induction HF as [|x y l l' [Hk Hs] _ IHF]; constructor.
    + repeat split; [exact Hk|exact Hs|exact (IH (snd x) (snd y) Hs)].
    + exact IHF.
Qed.

End SameMappingInd.

Lemma dumps_dict (sort_keys : bool) (d : Json.dict) :
  Json.dumps sort_keys (JDict d)
  = lit "{"
    ++ Json.join (lit ", ")
         (map Json.encode_pair
            (if sort_keys
             then Json.sort_items
                    (map (fun kv => (fst kv, Json.dumps sort_keys (snd kv))) d)
             else map (fun kv => (fst kv, Json.dumps sort_keys (snd kv))) d))
    ++ lit "}".
Proof. reflexivity. Qed.

Lemma dumps_list (sort_keys : bool) (l : list json) :
  Json.dumps sort_keys (JList l)
  = lit "[" ++ Json.join (lit ", ") (map (Json.dumps sort_keys) l) ++ lit "]".
Proof. reflexivity. Qed.

(** Sorted encoding does not see the order of the items. *)
Lemma dumps_same_mapping (a b : json) :
  same_mapping a b -> distinct_keys a = true ->
  Json.dumps true a = Json.dumps true b.
Proof.
  intros H. pattern a, b. revert a b H. apply same_mapping_induction.
  - reflexivity.
  - intros l1 l2 HF Hd. rewrite !dumps_list.
    cbn [distinct_keys] in Hd.
    assert (Hmap : map (Json.dumps true) l1 = map (Json.dumps true) l2).
    { induction HF as [|x y l l' [_ Hxy] _ IH]; [reflexivity|].
      cbn in Hd. apply andb_prop in Hd as [Hx Hl].
      cbn [map]. now rewrite (Hxy Hx), (IH Hl). }
    now rewrite Hmap.
  - intros d1 d2 d HP HF Hd. rewrite !dumps_dict.
    cbn [distinct_keys] in Hd. apply andb_prop in Hd as [Hkeys Hvals].
    set (f := fun kv : str * json => (fst kv, Json.dumps true (snd kv))).
    rewrite (sort_items_perm _ (map f d1) (map f d) (Permutation_map f HP)).
    2:{ rewrite map_map. cbn [f fst]. now apply distinct_NoDup. }
    assert (Hd : forall kv, In kv d -> distinct_keys (snd kv) = true).
    { intros kv Hin. rewrite forallb_forall in Hvals. apply Hvals.
      now apply (Permutation_in _ (Permutation_sym HP)). }
    assert (Hmap : map f d = map f d2).
    { clear - HF Hd.
      induction HF as [|x y l l' (Hk & _ & Hxy) _ IH]; [reflexivity|].
      cbn [map]. rewrite IH by (intros kv Hin; apply Hd; now right).
      unfold f at 1 3.
      now rewrite Hk, (Hxy (Hd x (or_introl eq_refl))). }
    now rewrite Hmap.
Qed.

(** ** Induction on values *)

Section JsonInd.
Variable P : json -> Prop.
Hypothesis Hnull : P JNull.
Hypothesis Hbool : forall b, P (JBool b).
Hypothesis Hint : forall n, P (JInt n).
Hypothesis Hfloat : forall f, P (JFloat f).
Hypothesis Hstr : forall s, P (JStr s).
Hypothesis Hlist : forall l, Forall P l -> P (JList l).
Hypothesis Hdict : forall d, Forall (fun kv => P (snd kv)) d -> P (JDict d).

Lemma json_induction (v : json) : P v.
Proof.
  revert v. fix IH 1. intros [|b|n|f|s|l|d].
  - apply Hnull.
  - apply Hbool.
  - apply Hint.
  - apply Hfloat.
  - apply Hstr.
  - apply Hlist. induction l as [|x l IHl]; constructor.
    + exact (IH x).
    + exact IHl.
  - apply Hdict. induction d as [|kv d IHd]; constructor.
    + exact (IH (snd kv)).
    + exact IHd.
Qed.

End JsonInd.

(** ** ASCII output *)

Lemma ascii_app (a b : str) : ascii_text a -> ascii_text b -> ascii_text (a ++ b).
Proof. unfold ascii_text. intros Ha Hb. now rewrite forallb_app, Ha, Hb. Qed.

Lemma ascii_cons (c : char) (s : str) :
  is_ascii c = true -> ascii_text s -> ascii_text (c :: s).
Proof. unfold ascii_text. cbn. now intros -> ->. Qed.

Lemma ascii_digits_of_uint (u : Decimal.uint) :
  ascii_text (Json.digits_of_uint u).
Proof. induction u; cbn; [reflexivity|now apply ascii_cons..]. Qed.

Lemma ascii_int_repr (n : Z) : ascii_text (Json.int_repr n).
Proof.
  unfold Json.int_repr, Json.digits_of_N.
  destruct (Z.ltb n 0); [apply ascii_cons; [reflexivity|]|];
    apply ascii_digits_of_uint.
Qed.

Lemma ascii_floatstr (f : pyfloat) : ascii_text (Json.floatstr f).
Proof.
  destruct f as [|[]|negative m e]; try reflexivity. cbn [Json.floatstr].
  repeat apply ascii_app.
  - now destruct negative.
  - apply ascii_digits_of_uint.
  - reflexivity.
  - apply ascii_int_repr.
Qed.

Lemma hexdigit_ascii (x : N) : is_ascii (Json.hexdigit (N.land x 15)) = true.
Proof.
  change 15 with (N.ones 4). rewrite N.land_ones.
  assert (H : x mod 2 ^ 4 < 16) by (apply N.mod_lt; discriminate).
  unfold Json.hexdigit, is_ascii.
  destruct (N.ltb_spec (x mod 2 ^ 4) 10); apply N.ltb_lt; lia.
Qed.

Lemma ascii_u_escape (c : N) : ascii_text (Json.u_escape c).
Proof.
  unfold Json.u_escape, ascii_text. cbn [forallb].
  now rewrite !hexdigit_ascii.
Qed.

Lemma ascii_escape_char (c : char) : ascii_text (Json.escape_char c).
Proof.
  unfold Json.escape_char.
  destruct (Json.s_char c) eqn:Hs.
  { unfold ascii_text, Json.s_char, is_ascii in *. cbn.
    apply andb_prop in Hs as [Hs _]. apply andb_prop in Hs as [Hs _].
    apply andb_prop in Hs as [_ Hs]. apply N.leb_le in Hs.
    rewrite andb_true_r. apply N.ltb_lt. lia. }
  repeat match goal with
         | |- context [if ?b then _ else _] => destruct b
         end;
    try reflexivity; try apply ascii_u_escape.
  apply ascii_app; apply ascii_u_escape.
Qed.

Lemma ascii_encode_basestring (s : str) :
  ascii_text (Json.encode_basestring_ascii s).
Proof.
  unfold Json.encode_basestring_ascii.
  apply ascii_cons; [reflexivity|]. apply ascii_app; [|reflexivity].
  induction s as [|c s IH]; [reflexivity|]. cbn.
  apply ascii_app; [apply ascii_escape_char|exact IH].
Qed.

Lemma ascii_join (sep : str) (parts : list str) :
  ascii_text sep -> Forall ascii_text parts ->
  ascii_text (Json.join sep parts).
Proof.
  intros Hsep H. induction H as [|p ps Hp Hps IH]; [reflexivity|].
  cbn. destruct ps; [exact Hp|].
  apply ascii_app; [exact Hp|]. now apply ascii_app.
Qed.

Lemma Forall_insert_item {A : Type} (Q : str * A -> Prop) (kv : str * A)
    (l : list (str * A)) :
  Q kv -> Forall Q l -> Forall Q (Json.insert_item kv l).
Proof.
  intros Hkv H. induction H as [|x l Hx Hl IH]; cbn; [now constructor|].
  destruct (Str.ltb (fst kv) (fst x)); repeat constructor; assumption.
Qed.

Lemma Forall_sort_items {A : Type} (Q : str * A -> Prop)
    (l : list (str * A)) :
  Forall Q l -> Forall Q (Json.sort_items l).
Proof.
  unfold Json.sort_items. induction 1; cbn; [constructor|].
  now apply Forall_insert_item.
Qed.

(** With [ensure_ascii] every character written is ASCII. *)
Lemma ascii_dumps (sort_keys : bool) (v : json) :
  ascii_text (Json.dumps sort_keys v).
Proof.
  induction v as [|[]| | | |l IH|d IH] using json_induction;
    try reflexivity.
  - apply ascii_int_repr.
  - apply ascii_floatstr.
  - apply ascii_encode_basestring.
  - rewrite dumps_list. apply ascii_app; [reflexivity|].
    apply ascii_app; [|reflexivity].
    apply ascii_join; [reflexivity|]. now apply Forall_map.
  - rewrite dumps_dict. apply ascii_app; [reflexivity|].
    apply ascii_app; [|reflexivity].
    apply ascii_join; [reflexivity|]. apply Forall_map.
    assert (H : Forall (fun kv : str * str => ascii_text (Json.encode_pair kv))
                  (map (fun kv => (fst kv, Json.dumps sort_keys (snd kv))) d)).
    { apply Forall_map. induction IH as [|kv d Hkv _ IHd]; constructor; auto.
      unfold Json.encode_pair. cbn [fst snd].
      apply ascii_app; [apply ascii_encode_basestring|].
      apply ascii_app; [reflexivity|exact Hkv]. }
    destruct sort_keys; [now apply Forall_sort_items|exact H].
Qed.

Lemma ascii_build_user_prompt (state : json) :
  ascii_text (_build_user_prompt state).
Proof.
  unfold _build_user_prompt.
  repeat (apply ascii_app; [reflexivity|]). apply ascii_dumps.
Qed.

(** ** Reading back what the encoder wrote *)

Lemma all_below_nat (n : nat) (P : N -> bool) :
  all_below n P = true -> forall x, x < N.of_nat n -> P x = true.
Proof.
  induction n as [|n IH]; cbn [all_below]; intros H x Hx; [lia|].
  apply andb_prop in H as [Hn H].
  destruct (N.eq_dec x (N.of_nat n)) as [->|Hne]; [exact Hn|].
  apply IH; [exact H|lia].
Qed.

Lemma all_below_spec (n : N) (P : N -> bool) :
  all_below (N.to_nat n) P = true -> forall x, x < n -> P x = true.
Proof.
  intros H x Hx. apply (all_below_nat _ _ H). now rewrite N2Nat.id.
Qed.

(** *** Integers *)

Lemma uint_of_digits_of_uint (u : Decimal.uint) :
  Json.uint_of_digits (Json.digits_of_uint u) = u.
Proof. induction u; cbn; now rewrite ?IHu. Qed.

Lemma nat_of_digits_of_N (n : N) : Json.nat_of_digits (Json.digits_of_N n) = n.
Proof.
  unfold Json.nat_of_digits, Json.digits_of_N.
  rewrite uint_of_digits_of_uint. apply DecimalN.Unsigned.of_to.
Qed.

Lemma digits_of_uint_isdigit (u : Decimal.uint) :
  forallb Json.isdigit (Json.digits_of_uint u) = true.
Proof. induction u; cbn; auto. Qed.

(** The digits of a number: [0] alone, or a digit that is not [0] followed
    by digits. *)
Lemma digits_of_N_shape (n : N) :
  n = 0 /\ Json.digits_of_N n = [ch "0"]
  \/ exists c ds,
       Json.digits_of_N n = c :: ds /\ in_range 49 57 c = true
       /\ forallb Json.isdigit ds = true.
Proof.
  destruct n as [|p]; [now left|]. right.
  unfold Json.digits_of_N.
  pose proof (DecimalN.Unsigned.to_of (N.to_uint (N.pos p))) as Hnorm.
  rewrite DecimalN.Unsigned.of_to in Hnorm.
  pose proof (digits_of_uint_isdigit (N.to_uint (N.pos p))) as Hd.
  destruct (N.to_uint (N.pos p)) as [|u|u|u|u|u|u|u|u|u|u] eqn:E;
    cbn [Json.digits_of_uint] in *;
    try (eexists _, _; split; [reflexivity|split; [reflexivity|]];
         now apply andb_prop in Hd as [_ Hd]).
  - exfalso. symmetry in Hnorm.
    now apply DecimalFacts.unorm_nonnil in Hnorm.
  - exfalso. unfold Decimal.unorm in Hnorm. cbn [Decimal.nzhead] in Hnorm.
    destruct (Decimal.nzhead u) as [|u'|u'|u'|u'|u'|u'|u'|u'|u'|u'] eqn:Hu;
      try discriminate.
    + injection Hnorm as ->.
      assert (H0 : N.of_uint (N.to_uint (N.pos p)) = 0) by now rewrite E.
      rewrite DecimalN.Unsigned.of_to in H0. discriminate.
    + now apply DecimalFacts.nzhead_nonzero in Hu.
Qed.

Lemma span_all (p : char -> bool) (ds rest : str) :
  forallb p ds = true ->
  match rest with c :: _ => p c = false | [] => True end ->
  Json.span p (ds ++ rest) = (ds, rest).
Proof.
  intros Hds Hrest. induction ds as [|c ds IH]; cbn.
  - destruct rest as [|c rest]; cbn; [reflexivity|]. now rewrite Hrest.
  - cbn in Hds. apply andb_prop in Hds as [-> Hds]. now rewrite (IH Hds).
Qed.

Lemma closes_not_digit (rest : str) :
  closes rest ->
  match rest with c :: _ => Json.isdigit c = false | [] => True end.
Proof. destruct rest as [|c rest]; [auto|]. now intros [->|[->| ->]]. Qed.

Lemma fraction_part_closes (rest : str) :
  closes rest -> Json.fraction_part rest = ([], rest).
Proof.
  destruct rest as [|c [|d rest]]; try reflexivity.
  now intros [->|[->| ->]].
Qed.

Lemma exponent_part_closes (rest : str) :
  closes rest -> Json.exponent_part rest = (None, rest).
Proof.
  destruct rest as [|c rest]; [reflexivity|].
  now intros [->|[->| ->]].
Qed.

Lemma isdigit_cases (c : char) :
  Json.isdigit c = true ->
  c = 48 \/ c = 49 \/ c = 50 \/ c = 51 \/ c = 52 \/ c = 53 \/ c = 54
  \/ c = 55 \/ c = 56 \/ c = 57.
Proof.
  unfold Json.isdigit, in_range. intros H.
  apply andb_prop in H as [H1 H2]. apply N.leb_le in H1, H2. lia.
Qed.

Lemma integer_part_digits (n : N) (rest : str) :
  closes rest ->
  Json.integer_part (Json.digits_of_N n ++ rest)
  = Some (Json.digits_of_N n, rest).
Proof.
  intros Hrest.
  destruct (digits_of_N_shape n) as [[-> ->]|(c & ds & -> & Hc & Hds)].
  - reflexivity.
  - cbn [app Json.integer_part]. rewrite Hc.
    now rewrite (span_all _ _ _ Hds (closes_not_digit _ Hrest)).
Qed.

(** The scanner reads the digits of a natural number back. *)
Lemma match_number_digits (n : N) (rest : str) :
  closes rest ->
  Json.match_number (Json.digits_of_N n ++ rest)
  = Json.Scanned (JInt (Z.of_N n)) rest.
Proof.
  intros Hrest. unfold Json.match_number.
  assert (Hopt : Json.optional "-" (Json.digits_of_N n ++ rest)
                 = (false, Json.digits_of_N n ++ rest)).
  { destruct (digits_of_N_shape n) as [[-> ->]|(c & ds & -> & Hc & Hds)];
      [reflexivity|].
    cbn [app Json.optional].
    destruct (isdigit_cases c) as [->|[->|[->|[->|[->|[->|[->|[->|[->| ->]]]]]]]]];
      try reflexivity.
    unfold in_range in Hc. apply andb_prop in Hc as [H1 H2].
    apply N.leb_le in H1, H2. unfold Json.isdigit, in_range.
    apply andb_true_intro; split; apply N.leb_le; lia. }
  rewrite Hopt, (integer_part_digits _ _ Hrest).
  rewrite (fraction_part_closes _ Hrest), (exponent_part_closes _ Hrest).
  now rewrite nat_of_digits_of_N.
Qed.

Lemma match_number_negative (n : N) (rest : str) :
  closes rest ->
  Json.match_number (ch "-" :: Json.digits_of_N n ++ rest)
  = Json.Scanned (JInt (- Z.of_N n)) rest.
Proof.
  intros Hrest. unfold Json.match_number. cbn [Json.optional].
  change (isc "-" (ch "-")) with true. cbv iota.
  rewrite (integer_part_digits _ _ Hrest).
  rewrite (fraction_part_closes _ Hrest), (exponent_part_closes _ Hrest).
  now rewrite nat_of_digits_of_N.
Qed.

(** *** Text *)

Lemma hexval_hexdigit_all :
  all_below (N.to_nat 16)
    (fun n => match Json.hexval (Json.hexdigit n) with
              | Some m => N.eqb m n
              | None => false
              end) = true.
Proof. reflexivity. Qed.

Lemma hexval_hexdigit (n : N) :
  n < 16 -> Json.hexval (Json.hexdigit n) = Some n.
Proof.
  intros Hn. pose proof (all_below_spec _ _ hexval_hexdigit_all n Hn) as H.
  cbv beta in H. destruct (Json.hexval (Json.hexdigit n)); [|discriminate].
  f_equal. now apply N.eqb_eq.
Qed.

Lemma nibble (c n : N) : N.land (N.shiftr c n) 15 = c / 2 ^ n mod 16.
Proof.
  change 15 with (N.ones 4). now rewrite N.land_ones, N.shiftr_div_pow2.
Qed.

Lemma nibbles (c : N) :
  c < 65536 ->
  ((c / 4096 mod 16 * 16 + c / 256 mod 16) * 16 + c / 16 mod 16) * 16
  + c mod 16 = c.
Proof. intros H. zify. Z.to_euclidean_division_equations. lia. Qed.

(** Four hexadecimal digits are read back to the number they write. *)
Lemma hex4_u_escape (c : N) :
  c < 65536 ->
  exists h1 h2 h3 h4,
    Json.u_escape c = [92; 117; h1; h2; h3; h4]
    /\ Json.hex4 h1 h2 h3 h4 = Some c.
Proof.
  intros Hc. unfold Json.u_escape. do 4 eexists. split; [reflexivity|].
  replace (N.land c 15) with (N.land (N.shiftr c 0) 15)
    by now rewrite N.shiftr_0_r.
  rewrite !nibble. unfold Json.hex4.
  rewrite !hexval_hexdigit by (apply N.mod_lt; discriminate).
  f_equal. change (2 ^ 12) with 4096. change (2 ^ 8) with 256.
  change (2 ^ 4) with 16. change (2 ^ 0) with 1. rewrite N.div_1_r.
  now apply nibbles.
Qed.

Lemma lor_add (a x : N) :
  N.land a 1023 = 0 -> x < 1024 -> N.lor a x = a + x.
Proof.
  intros Ha Hx. rewrite N.add_nocarry_lxor, N.lxor_lor; try reflexivity.
  all: apply N.bits_inj; intros i; rewrite N.land_spec, N.bits_0.
  all: destruct (N.ltb_spec i 10) as [Hi|Hi].
  all: try (assert (Hbit : N.testbit (N.land a 1023) i = false)
              by (now rewrite Ha, N.bits_0);
            rewrite N.land_spec in Hbit;
            change 1023 with (N.ones 10) in Hbit;
            rewrite (N.ones_spec_low 10 i Hi), andb_true_r in Hbit;
            now rewrite Hbit).
  all: rewrite (N.bits_above_log2 x i); [apply andb_false_r|].
  all: destruct (N.eq_dec x 0) as [->|Hx0]; [cbn; lia|].
  all: apply N.log2_lt_pow2; [lia|].
  all: apply N.lt_le_trans with (2 ^ 10);
    [exact Hx|apply N.pow_le_mono_r; lia].
Qed.

(** The two halves the encoder writes for a character beyond the basic
    plane: a high and a low surrogate that join to the character. *)
Lemma surrogate_pair (c : N) :
  65536 <= c < 1114112 ->
  let v := c - 65536 in
  let hi := N.lor 55296 (N.land (N.shiftr v 10) 1023) in
  let lo := N.lor 56320 (N.land v 1023) in
  Json.is_high_surrogate hi = true /\ Json.is_low_surrogate lo = true
  /\ Json.join_surrogates hi lo = c /\ hi < 65536 /\ lo < 65536.
Proof.
  intros Hc v hi lo.
  assert (Hv : v < 1048576) by (unfold v; lia).
  assert (Hx : N.land (N.shiftr v 10) 1023 = v / 1024).
  { change 1023 with (N.ones 10). rewrite N.land_ones, N.shiftr_div_pow2.
    change (2 ^ 10) with 1024. apply N.mod_small.
    apply N.Div0.div_lt_upper_bound. lia. }
  assert (Hy : N.land v 1023 = v mod 1024).
  { change 1023 with (N.ones 10). now rewrite N.land_ones. }
  assert (Hx' : v / 1024 < 1024) by (apply N.Div0.div_lt_upper_bound; lia).
  assert (Hy' : v mod 1024 < 1024) by (apply N.mod_lt; lia).
  assert (Hhi : hi = 55296 + v / 1024).
  { unfold hi. rewrite Hx. now apply lor_add. }
  assert (Hlo : lo = 56320 + v mod 1024).
  { unfold lo. rewrite Hy. now apply lor_add. }
  rewrite Hhi, Hlo.
  unfold Json.is_high_surrogate, Json.is_low_surrogate, Json.join_surrogates,
    in_range.
  pose proof (N.div_mod v 1024) as Hdm.
  repeat split; try (apply andb_true_intro; split; apply N.leb_le); lia.
Qed.

Lemma scanstring_u_lookahead (h1 h2 h3 h4 x : char) (t : str) :
  Json.scanstring (92 :: 117 :: h1 :: h2 :: h3 :: h4 :: x :: t)
  = match Json.hex4 h1 h2 h3 h4 with
    | None => Json.DecodeError
    | Some c1 =>
        if Json.is_high_surrogate c1 then lookahead c1 (x :: t)
        else Json.scan_cons c1 (Json.scanstring (x :: t))
    end.
Proof. reflexivity. Qed.

Lemma lookahead_first (c1 : N) (b : char) (t : str) :
  isc "\" b = false ->
  lookahead c1 (b :: t) = Json.scan_cons c1 (Json.scanstring (b :: t)).
Proof.
  intros Hb. unfold lookahead.
  destruct t as [|u [|g1 [|g2 [|g3 [|g4 [|y s4]]]]]]; try reflexivity.
  now rewrite Hb.
Qed.

Lemma lookahead_second (c1 : N) (b u : char) (t : str) :
  isc "u" u = false ->
  lookahead c1 (b :: u :: t)
  = Json.scan_cons c1 (Json.scanstring (b :: u :: t)).
Proof.
  intros Hu. unfold lookahead.
  destruct t as [|g1 [|g2 [|g3 [|g4 [|y s4]]]]]; try reflexivity.
  now rewrite Hu, andb_false_r.
Qed.

Lemma lookahead_escape (c1 : N) (h1 h2 h3 h4 : char) (c2 : N) (y : char)
    (s4 : str) :
  Json.hex4 h1 h2 h3 h4 = Some c2 -> Json.is_low_surrogate c2 = false ->
  lookahead c1 (92 :: 117 :: h1 :: h2 :: h3 :: h4 :: y :: s4)
  = Json.scan_cons c1
      (Json.scanstring (92 :: 117 :: h1 :: h2 :: h3 :: h4 :: y :: s4)).
Proof.
  intros Hh Hlow. unfold lookahead.
  change (isc "\" 92 && isc "u" 117) with true. cbv iota.
  now rewrite Hh, Hlow.
Qed.

Lemma high_not_low (c : N) :
  Json.is_high_surrogate c = true -> Json.is_low_surrogate c = false.
Proof.
  unfold Json.is_high_surrogate, Json.is_low_surrogate, in_range.
  intros H. apply andb_prop in H as [_ H]. apply N.leb_le in H.
  apply andb_false_iff. left. apply N.leb_gt. lia.
Qed.

Lemma escaped_nonempty (s rest : str) :
  exists x t, flat_map Json.escape_char s ++ 34 :: rest = x :: t.
Proof.
  destruct (flat_map Json.escape_char s ++ 34 :: rest) as [|x t] eqn:E.
  - destruct (flat_map Json.escape_char s); discriminate.
  - now exists x, t.
Qed.

(** After a high surrogate the scanner finds no low surrogate when the
    text the encoder wrote does not go on with one. *)
Lemma lookahead_encoded (c1 : N) (s rest : str) :
  text_ok s = true -> starts_low s = false ->
  lookahead c1 (flat_map Json.escape_char s ++ 34 :: rest)
  = Json.scan_cons c1
      (Json.scanstring (flat_map Json.escape_char s ++ 34 :: rest)).
Proof.
  intros Hs Hlow. destruct s as [|c s].
  { cbn [flat_map app]. now apply lookahead_first. }
  cbn [text_ok] in Hs. apply andb_prop in Hs as [Hc _].
  apply andb_prop in Hc as [Hmax _]. apply N.ltb_lt in Hmax.
  cbn [starts_low] in Hlow.
  cbn [flat_map]. rewrite <- app_assoc.
  destruct (escaped_nonempty s rest) as (x & t & ->).
  unfold Json.escape_char.
  destruct (Json.s_char c) eqn:Hsc.
  { unfold Json.s_char in Hsc.
    apply andb_prop in Hsc as [Hsc _]. apply andb_prop in Hsc as [_ H92].
    apply negb_true_iff in H92. cbn [app]. now apply lookahead_first. }
  destruct (N.eqb_spec c 92) as [->|_]; [now apply lookahead_second|].
  destruct (N.eqb_spec c 34) as [->|_]; [now apply lookahead_second|].
  destruct (N.eqb_spec c 8) as [->|_]; [now apply lookahead_second|].
  destruct (N.eqb_spec c 12) as [->|_]; [now apply lookahead_second|].
  destruct (N.eqb_spec c 10) as [->|_]; [now apply lookahead_second|].
  destruct (N.eqb_spec c 13) as [->|_]; [now apply lookahead_second|].
  destruct (N.eqb_spec c 9) as [->|_]; [now apply lookahead_second|].
  destruct (N.leb_spec 65536 c) as [Hbig|Hsmall].
  - destruct (surrogate_pair c (conj Hbig Hmax))
      as (Hhi & _ & _ & Hhi' & Hlo').
    cbv zeta in *.
    destruct (hex4_u_escape _ Hhi') as (h1 & h2 & h3 & h4 & -> & Hh).
    destruct (hex4_u_escape _ Hlo') as (g1 & g2 & g3 & g4 & -> & _).
    cbn [app]. apply (lookahead_escape _ _ _ _ _ _ _ _ Hh).
    now apply high_not_low.
  - destruct (hex4_u_escape _ Hsmall) as (h1 & h2 & h3 & h4 & -> & Hh).
    cbn [app]. now apply (lookahead_escape _ _ _ _ _ _ _ _ Hh).
Qed.

(** One escaped character is read back before the rest of an encoded
    text. *)
Lemma scanstring_escape (c : char) (s rest : str) :
  c < 1114112 ->
  Json.is_high_surrogate c && starts_low s = false ->
  text_ok s = true ->
  Json.scanstring
    (Json.escape_char c ++ flat_map Json.escape_char s ++ 34 :: rest)
  = Json.scan_cons c
      (Json.scanstring (flat_map Json.escape_char s ++ 34 :: rest)).
Proof.
  intros Hmax Hpair Hs.
  pose proof (lookahead_encoded c s rest Hs) as Hlook.
  destruct (escaped_nonempty s rest) as (x & t & E). rewrite E in *.
  unfold Json.escape_char.
  destruct (Json.s_char c) eqn:Hsc.
  { unfold Json.s_char in Hsc.
    apply andb_prop in Hsc as [Hsc H34]. apply andb_prop in Hsc as [Hsc H92].
    apply andb_prop in Hsc as [H32 _].
    apply negb_true_iff in H34, H92. apply N.leb_le in H32.
    cbn [app Json.scanstring]. unfold isc. change (ch "\") with 92.
    rewrite H34, H92.
    destruct (N.leb_spec c 31); [lia|reflexivity]. }
  destruct (N.eqb_spec c 92) as [->|_]; [reflexivity|].
  destruct (N.eqb_spec c 34) as [->|_]; [reflexivity|].
  destruct (N.eqb_spec c 8) as [->|_]; [reflexivity|].
  destruct (N.eqb_spec c 12) as [->|_]; [reflexivity|].
  destruct (N.eqb_spec c 10) as [->|_]; [reflexivity|].
  destruct (N.eqb_spec c 13) as [->|_]; [reflexivity|].
  destruct (N.eqb_spec c 9) as [->|_]; [reflexivity|].
  destruct (N.leb_spec 65536 c) as [Hbig|Hsmall].
  - destruct (surrogate_pair c (conj Hbig Hmax))
      as (Hhi & Hlo & Hjoin & Hhi' & Hlo').
    cbv zeta in *.
    destruct (hex4_u_escape _ Hhi') as (h1 & h2 & h3 & h4 & -> & Hh).
    destruct (hex4_u_escape _ Hlo') as (g1 & g2 & g3 & g4 & -> & Hg).
    cbn [app]. rewrite scanstring_u_lookahead, Hh, Hhi.
    unfold lookahead. change (isc "\" 92 && isc "u" 117) with true. cbv iota.
    now rewrite Hg, Hlo, Hjoin.
  - destruct (hex4_u_escape _ Hsmall) as (h1 & h2 & h3 & h4 & -> & Hh).
    cbn [app]. rewrite scanstring_u_lookahead, Hh.
    destruct (Json.is_high_surrogate c) eqn:Hhigh; [|reflexivity].
    cbn [andb] in Hpair. now apply Hlook.
Qed.

(** An encoded text is read back up to its closing quote. *)
Lemma scanstring_encoded (s rest : str) :
  text_ok s = true ->
  Json.scanstring (flat_map Json.escape_char s ++ 34 :: rest)
  = Json.Scanned s rest.
Proof.
  intros Hs. induction s as [|c s IH]; [reflexivity|].
  cbn [text_ok] in Hs. apply andb_prop in Hs as [Hc Hs].
  apply andb_prop in Hc as [Hmax Hpair].
  apply N.ltb_lt in Hmax. apply negb_true_iff in Hpair.
  cbn [flat_map]. rewrite <- app_assoc.
  rewrite (scanstring_escape c s rest Hmax Hpair Hs), (IH Hs). reflexivity.
Qed.

(** *** Values *)

Lemma scan_once_digit (fuel : nat) (c : char) (t : str) :
  Json.isdigit c = true ->
  Json.scan_once (S fuel) (c :: t) = Json.match_number (c :: t).
Proof.
  intros H.
  destruct (isdigit_cases c H)
    as [->|[->|[->|[->|[->|[->|[->|[->|[->| ->]]]]]]]]]; reflexivity.
Qed.

Lemma scan_once_minus (fuel : nat) (c : char) (t : str) :
  Json.isdigit c = true ->
  Json.scan_once (S fuel) (ch "-" :: c :: t)
  = Json.match_number (ch "-" :: c :: t).
Proof.
  intros H.
  destruct (isdigit_cases c H)
    as [->|[->|[->|[->|[->|[->|[->|[->|[->| ->]]]]]]]]]; reflexivity.
Qed.

Lemma digits_of_N_head (n : N) :
  exists c ds, Json.digits_of_N n = c :: ds /\ Json.isdigit c = true.
Proof.
  destruct (digits_of_N_shape n) as [[_ ->]|(c & ds & -> & Hc & _)].
  - now exists (ch "0"), [].
  - exists c, ds. split; [reflexivity|].
    unfold in_range in Hc. apply andb_prop in Hc as [H1 H2].
    apply N.leb_le in H1, H2. unfold Json.isdigit, in_range.
    apply andb_true_intro; split; apply N.leb_le; lia.
Qed.

Lemma scan_once_int (fuel : nat) (n : Z) (rest : str) :
  closes rest ->
  Json.scan_once (S fuel) (Json.int_repr n ++ rest) = Json.Scanned (JInt n) rest.
Proof.
  intros Hrest. unfold Json.int_repr.
  destruct (Z.ltb_spec n 0) as [Hneg|Hpos].
  - destruct (digits_of_N_head (Z.abs_N n)) as (c & ds & E & Hc).
    cbn [app]. pose proof (match_number_negative (Z.abs_N n) rest Hrest) as H.
    rewrite E in *. cbn [app] in *. rewrite (scan_once_minus _ _ _ Hc), H.
    do 2 f_equal. rewrite N2Z.inj_abs_N. lia.
  - destruct (digits_of_N_head (Z.to_N n)) as (c & ds & E & Hc).
    pose proof (match_number_digits (Z.to_N n) rest Hrest) as H.
    rewrite E in *. cbn [app] in *. rewrite (scan_once_digit _ _ _ Hc), H.
    do 2 f_equal. now apply Z2N.id.
Qed.

Lemma digit_starts_value (c : char) (t : str) :
  Json.isdigit c = true -> starts_value (c :: t).
Proof.
  intros H.
  destruct (isdigit_cases c H)
    as [->|[->|[->|[->|[->|[->|[->|[->|[->| ->]]]]]]]]]; now cbn.
Qed.

(** What the encoder writes starts like a value. *)
Lemma dumps_starts_value (v : json) (rest : str) :
  plain v = true -> starts_value (Json.dumps false v ++ rest).
Proof.
  destruct v as [|[]|n| | | |]; try discriminate; intros _; try now cbn.
  cbn [Json.dumps]. unfold Json.int_repr.
  destruct (Z.ltb n 0); [now cbn|].
  destruct (digits_of_N_head (Z.to_N n)) as (c & ds & -> & Hc).
  now apply digit_starts_value.
Qed.

Lemma skip_ws_starts_value (s : str) : starts_value s -> Json.skip_ws s = s.
Proof. destruct s as [|c s]; [easy|]. cbn. now intros (-> & _). Qed.

Lemma skip_ws_space (s : str) :
  starts_value s -> Json.skip_ws (32 :: s) = s.
Proof. intros H. cbn. now apply skip_ws_starts_value. Qed.

Lemma closes_bracket (rest : str) : closes (ch "]" :: rest).
Proof. cbn. auto. Qed.

Lemma closes_brace (rest : str) : closes (ch "}" :: rest).
Proof. cbn. auto. Qed.

Lemma closes_comma (rest : str) : closes (ch "," :: rest).
Proof. cbn. auto. Qed.

Lemma join_cons2 (sep p q : str) (ps : list str) :
  Json.join sep (p :: q :: ps) = p ++ sep ++ Json.join sep (q :: ps).
Proof. reflexivity. Qed.

Lemma array_items_eq (fuel : nat) (s : str) (acc : list json) :
  Json.array_items (S fuel) s acc
  = match Json.scan_once fuel s with
    | Json.Scanned v s1 =>
        match Json.skip_ws s1 with
        | [] => Json.DecodeError
        | d :: s2 =>
            if isc "]" d then Json.Scanned (JList (acc ++ [v])) s2
            else if isc "," d
            then Json.array_items fuel (Json.skip_ws s2) (acc ++ [v])
            else Json.DecodeError
        end
    | Json.DecodeError => Json.DecodeError
    | Json.NoFuel => Json.NoFuel
    end.
Proof. reflexivity. Qed.

Lemma array_items_dumps (l : list json) :
  Forall reads_back l -> forallb plain l = true -> l <> [] ->
  forall (fuel : nat) (acc : list json) (rest : str),
    (2 * List.length
           (Json.join (lit ", ") (map (Json.dumps false) l) ++ ch "]" :: rest)
     + 1 < fuel)%nat ->
    Json.array_items fuel
      (Json.join (lit ", ") (map (Json.dumps false) l) ++ ch "]" :: rest) acc
    = Json.Scanned (JList (acc ++ l)) rest.
Proof.
  induction 1 as [|v l Hv Hl IH]; intros Hplain Hne fuel acc rest Hfuel;
    [now elim Hne|].
  cbn [forallb] in Hplain. apply andb_prop in Hplain as [Hpv Hpl].
  destruct fuel as [|fuel]; [lia|]. rewrite array_items_eq.
  destruct l as [|v2 l].
  - cbn [map Json.join] in *.
    rewrite (Hv fuel (ch "]" :: rest) (closes_bracket rest)) by lia.
    reflexivity.
  - cbn [map] in *. rewrite join_cons2 in *.
    set (J := Json.join (lit ", ")
                (Json.dumps false v2 :: map (Json.dumps false) l)) in *.
    assert (Hs : (Json.dumps false v ++ lit ", " ++ J) ++ ch "]" :: rest
                 = Json.dumps false v
                   ++ ch "," :: 32 :: (J ++ ch "]" :: rest)).
    { now rewrite <- !app_assoc. }
    rewrite Hs in *. rewrite length_app in Hfuel. cbn [List.length] in Hfuel.
    rewrite (Hv fuel _ (closes_comma _))
      by (rewrite length_app; cbn [List.length]; lia).
    cbn [Json.skip_ws]. change (Json.is_whitespace (ch ",")) with false.
    cbv iota. change (isc "]" (ch ",")) with false.
    change (isc "," (ch ",")) with true. cbv iota.
    assert (Hstart : starts_value (J ++ ch "]" :: rest)).
    { assert (Hpv2 : plain v2 = true)
        by (cbn [forallb] in Hpl; now apply andb_prop in Hpl as [? _]).
      unfold J. destruct l; cbn [map Json.join];
        rewrite <- ?app_assoc; now apply dumps_starts_value. }
    rewrite (skip_ws_space _ Hstart).
    rewrite (IH Hpl ltac:(discriminate) fuel (acc ++ [v]) rest) by lia.
    now rewrite <- app_assoc.
Qed.

Lemma set_fresh (k : str) (v : json) (acc : Json.dict) :
  Json.get k acc = None -> Json.set k v acc = acc ++ [(k, v)].
Proof.
  induction acc as [|[k' v'] acc IH]; cbn; [reflexivity|].
  destruct (str_eqb k' k); [discriminate|]. intros H. now rewrite IH.
Qed.

Lemma get_snoc (k k' : str) (v : json) (acc : Json.dict) :
  Json.get k acc = None -> str_eqb k' k = false ->
  Json.get k (acc ++ [(k', v)]) = None.
Proof.
  induction acc as [|[k2 v2] acc IH]; cbn; [now intros _ ->|].
  destruct (str_eqb k2 k); [discriminate|]. exact IH.
Qed.

Lemma object_items_eq (fuel : nat) (s1 : str) (acc : Json.dict) :
  Json.object_items (S fuel) (34 :: s1) acc
  = match Json.scanstring s1 with
    | Json.Scanned key s2 =>
        match Json.skip_ws s2 with
        | [] => Json.DecodeError
        | c :: s3 =>
            if isc ":" c then
              match Json.scan_once fuel (Json.skip_ws s3) with
              | Json.Scanned v s4 =>
                  match Json.skip_ws s4 with
                  | [] => Json.DecodeError
                  | d :: s5 =>
                      if isc "}" d
                      then Json.Scanned (JDict (Json.set key v acc)) s5
                      else if isc "," d
                      then Json.object_items fuel (Json.skip_ws s5)
                             (Json.set key v acc)
                      else Json.DecodeError
                  end
              | Json.DecodeError => Json.DecodeError
              | Json.NoFuel => Json.NoFuel
              end
            else Json.DecodeError
        end
    | Json.DecodeError => Json.DecodeError
    | Json.NoFuel => Json.NoFuel
    end.
Proof. reflexivity. Qed.

(** The text of one item: the encoded key, a colon, a space and the
    encoded value. *)
Lemma encode_pair_eq (k : str) (v : json) (tail : str) :
  Json.encode_pair (k, Json.dumps false v) ++ tail
  = 34 :: flat_map Json.escape_char k
         ++ 34 :: ch ":" :: 32 :: Json.dumps false v ++ tail.
Proof.
  unfold Json.encode_pair, Json.encode_basestring_ascii. cbn [fst snd].
  cbn [app]. f_equal. rewrite <- !app_assoc. reflexivity.
Qed.

Lemma encode_pair_length (k : str) (v : json) :
  (3 <= List.length (Json.encode_pair (k, Json.dumps false v)))%nat.
Proof.
  pose proof (encode_pair_eq k v []) as H. rewrite app_nil_r in H.
  rewrite H. cbn [List.length]. rewrite length_app. cbn [List.length]. lia.
Qed.

Lemma object_items_dumps (d : Json.dict) :
  Forall (fun kv => reads_back (snd kv)) d ->
  forallb (fun kv => text_ok (fst kv) && plain (snd kv)) d = true ->
  d <> [] ->
  forall (fuel : nat) (acc : Json.dict) (rest : str),
    distinct (map fst d) = true ->
    (forall kv, In kv d -> Json.get (fst kv) acc = None) ->
    (2 * List.length
           (Json.join (lit ", ")
              (map Json.encode_pair
                 (map (fun kv => (fst kv, Json.dumps false (snd kv))) d))
            ++ ch "}" :: rest)
     < fuel)%nat ->
    Json.object_items fuel
      (Json.join (lit ", ")
         (map Json.encode_pair
            (map (fun kv => (fst kv, Json.dumps false (snd kv))) d))
       ++ ch "}" :: rest) acc
    = Json.Scanned (JDict (acc ++ d)) rest.
Proof.
  induction 1 as [|[k v] d Hv Hd IH];
    intros Hplain Hne fuel acc rest Hkeys Hfresh Hfuel; [now elim Hne|].
  cbn [forallb fst snd] in Hplain. apply andb_prop in Hplain as [Hkv Hpd].
  apply andb_prop in Hkv as [Hk Hpv].
  cbn [map distinct fst] in Hkeys. apply andb_prop in Hkeys as [Hknew Hkd].
  apply negb_true_iff in Hknew.
  pose proof (Hfresh (k, v) (or_introl eq_refl)) as Hkacc. cbn [fst] in Hkacc.
  cbn [snd] in Hv.
  destruct fuel as [|fuel]; [lia|].
  destruct d as [|[k2 v2] d].
  - cbn [map Json.join fst snd] in *.
    rewrite encode_pair_eq in *. rewrite object_items_eq.
    rewrite (scanstring_encoded _ _ Hk).
    cbn [Json.skip_ws]. change (Json.is_whitespace (ch ":")) with false.
    cbv iota. change (isc ":" (ch ":")) with true. cbv iota.
    rewrite (skip_ws_space _ (dumps_starts_value v _ Hpv)).
    cbn [List.length] in Hfuel. rewrite length_app in Hfuel.
    cbn [List.length] in Hfuel.
    rewrite (Hv fuel _ (closes_brace rest)) by lia.
    cbn [Json.skip_ws]. change (Json.is_whitespace (ch "}")) with false.
    cbv iota. change (isc "}" (ch "}")) with true. cbv iota.
    now rewrite (set_fresh _ _ _ Hkacc).
  - cbn [map] in *. rewrite join_cons2 in *. cbn [fst snd] in *.
    set (J := Json.join (lit ", ")
                (Json.encode_pair (k2, Json.dumps false v2)
                 :: map Json.encode_pair
                      (map (fun kv => (fst kv, Json.dumps false (snd kv))) d)))
      in *.
    assert (Hs : (Json.encode_pair (k, Json.dumps false v) ++ lit ", " ++ J)
                 ++ ch "}" :: rest
                 = 34 :: flat_map Json.escape_char k
                     ++ 34 :: ch ":" :: 32
                        :: Json.dumps false v
                           ++ ch "," :: 32 :: (J ++ ch "}" :: rest)).
    { rewrite <- app_assoc, encode_pair_eq. now rewrite <- !app_assoc. }
    rewrite Hs in *. rewrite object_items_eq.
    rewrite (scanstring_encoded _ _ Hk).
    cbn [Json.skip_ws]. change (Json.is_whitespace (ch ":")) with false.
    cbv iota. change (isc ":" (ch ":")) with true. cbv iota.
    rewrite (skip_ws_space _ (dumps_starts_value v _ Hpv)).
    cbn [List.length] in Hfuel. rewrite length_app in Hfuel.
    cbn [List.length] in Hfuel. rewrite length_app in Hfuel.
    cbn [List.length] in Hfuel.
    rewrite (Hv fuel _ (closes_comma _))
      by (rewrite length_app; cbn [List.length]; lia).
    cbn [Json.skip_ws]. change (Json.is_whitespace (ch ",")) with false.
    cbv iota. change (isc "}" (ch ",")) with false.
    change (isc "," (ch ",")) with true. cbv iota.
    assert (Hstart : starts_value (J ++ ch "}" :: rest)).
    { unfold J. destruct d; cbn [map Json.join]; rewrite ?join_cons2;
        rewrite <- ?app_assoc; rewrite encode_pair_eq; now cbn. }
    rewrite (skip_ws_space _ Hstart), (set_fresh _ _ _ Hkacc).
    rewrite (IH Hpd ltac:(discriminate) fuel (acc ++ [(k, v)]) rest Hkd).
    + now rewrite <- app_assoc.
    + intros kv Hin. apply get_snoc; [apply Hfresh; now right|].
      destruct (str_eqb k (fst kv)) eqn:E; [|reflexivity].
      assert (Hex : existsb (str_eqb k) (map fst ((k2, v2) :: d)) = true).
      { apply existsb_exists. exists (fst kv). split; [|exact E].
        now apply in_map. }
      cbn [map fst] in Hex. congruence.
    + lia.
Qed.

Lemma scan_once_list (fuel : nat) (s : str) :
  Json.scan_once (S fuel) (ch "[" :: s)
  = match Json.skip_ws s with
    | [] => Json.DecodeError
    | c :: s' =>
        if isc "]" c then Json.Scanned (JList []) s'
        else Json.array_items fuel (c :: s') []
    end.
Proof. reflexivity. Qed.

Lemma scan_once_dict (fuel : nat) (s : str) :
  Json.scan_once (S fuel) (ch "{" :: s)
  = match Json.skip_ws s with
    | [] => Json.DecodeError
    | c :: s' =>
        if isc "}" c then Json.Scanned (JDict []) s'
        else Json.object_items fuel (c :: s') []
    end.
Proof. reflexivity. Qed.

(** The scanner reads back every value without floats whose texts are
    made of scalar values and whose dicts have distinct keys. *)
Lemma dumps_reads_back (v : json) :
  plain v = true -> distinct_keys v = true -> reads_back v.
Proof.
  induction v as [|b|n|f|s|l IH|d IH] using json_induction;
    intros Hplain Hkeys fuel rest Hrest Hfuel;
    (destruct fuel as [|fuel]; [lia|]).
  - reflexivity.
  - destruct b; reflexivity.
  - now apply scan_once_int.
  - discriminate.
  - cbn [Json.dumps plain] in *. unfold Json.encode_basestring_ascii.
    cbn [app]. rewrite <- app_assoc. cbn [app Json.scan_once].
    change (N.eqb 34 34) with true. cbv iota.
    now rewrite (scanstring_encoded _ _ Hplain).
  - rewrite dumps_list in *. cbn [plain distinct_keys] in *.
    change (lit "[") with [ch "["] in *. change (lit "]") with [ch "]"] in *.
    cbn [app] in *. rewrite <- app_assoc in *. cbn [app] in *.
    rewrite scan_once_list.
    destruct l as [|v l].
    { reflexivity. }
    assert (Hback : Forall reads_back (v :: l)).
    { rewrite Forall_forall in *. intros x Hx.
      rewrite forallb_forall in Hplain, Hkeys. now apply IH; auto. }
    set (J := Json.join (lit ", ") (map (Json.dumps false) (v :: l))) in *.
    assert (Hstart : starts_value (J ++ ch "]" :: rest)).
    { assert (Hpv : plain v = true)
        by (cbn [forallb] in Hplain; now apply andb_prop in Hplain as [? _]).
      unfold J. destruct l; cbn [map Json.join];
        rewrite <- ?app_assoc; now apply dumps_starts_value. }
    rewrite (skip_ws_starts_value _ Hstart).
    pose proof (array_items_dumps (v :: l) Hback Hplain ltac:(discriminate)
                  fuel [] rest) as Hitems.
    fold J in Hitems. cbn [List.length] in Hfuel.
    destruct (J ++ ch "]" :: rest) as [|c s'] eqn:E; [easy|].
    destruct Hstart as (_ & -> & _). apply Hitems. lia.
  - rewrite dumps_dict in *. cbn [plain distinct_keys] in *.
    change (lit "{") with [ch "{"] in *. change (lit "}") with [ch "}"] in *.
    cbn [app] in *. rewrite <- app_assoc in *. cbn [app] in *.
    rewrite scan_once_dict.
    apply andb_prop in Hkeys as [Hdist Hkeys].
    destruct d as [|[k v] d].
    { reflexivity. }
    assert (Hback : Forall (fun kv => reads_back (snd kv)) ((k, v) :: d)).
    { rewrite Forall_forall in *. intros x Hx.
      rewrite forallb_forall in Hplain, Hkeys.
      apply IH; [exact Hx| |now apply Hkeys].
      specialize (Hplain x Hx). now apply andb_prop in Hplain as [_ ?]. }
    set (J := Json.join (lit ", ")
                (map Json.encode_pair
                   (map (fun kv => (fst kv, Json.dumps false (snd kv)))
                      ((k, v) :: d)))) in *.
    assert (Hstart : starts_value (J ++ ch "}" :: rest)).
    { unfold J. destruct d; cbn [map Json.join fst snd]; rewrite ?join_cons2;
        rewrite <- ?app_assoc; rewrite encode_pair_eq; now cbn. }
    rewrite (skip_ws_starts_value _ Hstart).
    pose proof (object_items_dumps ((k, v) :: d) Hback Hplain
                  ltac:(discriminate) fuel [] rest Hdist
                  (fun _ _ => eq_refl)) as Hitems.
    fold J in Hitems. cbn [List.length] in Hfuel.
    destruct (J ++ ch "}" :: rest) as [|c s'] eqn:E; [easy|].
    destruct Hstart as (_ & _ & ->). apply Hitems. lia.
Qed.

(** [json.loads(json.dumps(v)) == v] *)
Lemma loads_dumps (v : json) :
  plain v = true -> distinct_keys v = true ->
  Json.loads (Json.dumps false v) = Ok v.
Proof.
  intros Hplain Hkeys. unfold Json.loads.
  pose proof (dumps_starts_value v [] Hplain) as Hstart.
  rewrite app_nil_r in Hstart.
  assert (Hbom : Str.startswith [65279] (Json.dumps false v) = false).
  { pose proof (ascii_dumps false v) as Ha. unfold ascii_text in Ha.
    destruct (Json.dumps false v) as [|c s]; [reflexivity|].
    cbn in Ha. apply andb_prop in Ha as [Hc _].
    unfold is_ascii in Hc. apply N.ltb_lt in Hc.
    unfold Str.startswith. cbn [Str.strip_prefix].
    destruct (N.eqb_spec 65279 c); [lia|reflexivity]. }
  rewrite Hbom, (skip_ws_starts_value _ Hstart).
  pose proof (dumps_reads_back v Hplain Hkeys
                (S (2 * List.length (Json.dumps false v))) [] I) as H.
  rewrite app_nil_r in H. rewrite H by lia. reflexivity.
Qed.



(** ** The claims *)

(** C5: every value [_extract_json_object] returns is a JSON object, for
    every reply text; hence every action a run writes on standard output
    is the encoding of a JSON object, followed by a line feed. *)
Theorem C5_action_is_object :
  (forall (raw : str) (v : json),
      _extract_json_object raw = Ok v -> exists d, v = JDict d) /\
  (forall (w : World) (t : list event),
      run_from_stdin w = (t, Ok tt) ->
      exists d, stdout t = Json.dumps false (JDict d) ++ [10]).
Proof.
  split; [exact extract_object|].
  intros w t H. unfold run_from_stdin in H.
  apply bind_ok in H as (t0 & input & ? & H0 & H & ->).
  apply bind_ok in H as (t1 & state & ? & H1 & H & ->).
  apply bind_ok in H as (t2 & env_type & ? & H2 & H & ->).
  destruct (negb (Py.truthy env_type)); [discriminate|].
  apply bind_ok in H as (t3 & key & ? & H3 & H & ->).
  destruct (negb (Py.truthy_str key)); [discriminate|].
  apply bind_ok in H as (t4 & dir & ? & H4 & H & ->).
  apply bind_ok in H as (t5 & name & ? & H5 & H & ->).
  apply bind_ok in H as (t6 & skill & ? & H6 & H & ->).
  apply bind_ok in H as (t7 & action & ? & H7 & H & ->).
  destruct (call_openrouter_object _ _ _ _ _ H7) as [d ->]. exists d.
  injection H0 as <- _. apply lift_ok in H1 as [-> _].
  apply lift_ok in H2 as [-> _]. injection H3 as <- _. injection H4 as <- _.
  injection H5 as <- _.
  unfold read_file in H6. injection H6 as <- _.
  unfold bind, write_stdout in H. injection H as <-.
  assert (Ht7 : stdout t7 = []).
  { clear - H7. unfold _call_openrouter in H7.
    apply bind_ok in H7 as (? & key & ? & H0 & H & ->).
    destruct (negb (Py.truthy_str key)); [discriminate|].
    apply bind_ok in H as (? & url & ? & H1 & H & ->).
    apply bind_ok in H as (? & model & ? & H2 & H & ->).
    apply bind_ok in H as (? & outcome & ? & H3 & H & ->).
    apply bind_ok in H as (? & body & ? & H4 & H & ->).
    apply bind_ok in H as (? & data & ? & H5 & H & ->).
    apply bind_ok in H as (? & raw_message & ? & H6 & H & ->).
    apply bind_ok in H as (? & raw & ? & H7 & H & ->).
    injection H0 as <- _. injection H1 as <- _. injection H2 as <- _.
    injection H3 as <- _. apply lift_ok in H5 as [-> _].
    apply lift_ok in H6 as [-> _]. apply lift_ok in H7 as [-> _].
    apply lift_ok in H as [-> _].
    destruct outcome; [|discriminate..]. injection H4 as <- _. reflexivity. }
  cbn [app stdout]. 
  assert (Happ : forall a b, stdout (a ++ b) = stdout a ++ stdout b).
  { induction a as [|[] a IH]; intros; cbn; rewrite ?IH, ?app_assoc; auto. }
  rewrite Happ, Ht7. reflexivity.
Qed.

(** A reply fenced as in the repository's test is extracted to an object. *)
Lemma C5_witness :
  exists d,
    JDict [(lit "action", JStr (lit "explore")); (lit "target", JStr (lit "ruins"))]
    = JDict d.
Proof.
  apply (proj1 C5_action_is_object
           (lit "```json" ++ [10]
            ++ js "{'action':'explore','target':'ruins'}" ++ [10] ++ lit "```")).
  vm_compute. reflexivity.
Defined.

(** *** C2 *)

(** C2 as stated fails: the first fenced block of this reply is the array,
    yet the candidate is the whole reply, and extraction returns the
    object after the block where the block's text gives no action. *)
Lemma C2_counterexample :
  first_fenced_block (Str.strip fenced_array_reply)
  = Some ([10] ++ lit "[1]" ++ [10])
  /\ fenced_candidate fenced_array_reply = fenced_array_reply
  /\ fenced_candidate fenced_array_reply <> [10] ++ lit "[1]" ++ [10]
  /\ fenced_candidate fenced_array_reply <> lit "[1]"
  /\ _extract_json_object fenced_array_reply = Ok (JDict [(lit "a", JInt 1)])
  /\ parse_attempts ([10] ++ lit "[1]" ++ [10]) = Raise no_action.
Proof. vm_compute. repeat split; discriminate. Qed.

(** C2 (amended): when the trimmed reply starts with a text without three
    backticks in a row, followed by a fence, with or without the tag
    [json], optional spaces, a brace, a text without three backticks in a
    row, a brace, optional spaces and a closing fence, the candidate of
    the parse attempts is the text from brace to brace. *)
Theorem C2_fenced_brace_span (raw pre tag ws1 body ws2 post : str) :
  Str.strip raw
  = pre ++ lit "```" ++ tag ++ ws1 ++ ch "{" :: body ++ ch "}" :: ws2
        ++ lit "```" ++ post ->
  fence_free pre = true ->
  tag = [] \/ tag = lit "json" ->
  forallb Str.isspace ws1 = true -> forallb Str.isspace ws2 = true ->
  fence_free body = true ->
  fenced_candidate raw = ch "{" :: body ++ [ch "}"]
  /\ _extract_json_object raw = parse_attempts (ch "{" :: body ++ [ch "}"]).
Proof.
  intros Hraw Hpre Htag Hws1 Hws2 Hbody.
  pose proof (fenced_candidate_span raw pre tag ws1 body ws2 post
                Hraw Hpre Htag Hws1 Hws2 Hbody) as H.
  split; [exact H|]. unfold _extract_json_object. now rewrite H.
Qed.

(** The fenced reply of the repository's test, after a sentence with
    inline code. *)
Lemma C2_witness :
  let raw :=
    lit "I pick `explore`: ```json" ++ [10]
    ++ js "{'action':'explore','target':'ruins'}" ++ [10] ++ lit "``` done" in
  fenced_candidate raw = js "{'action':'explore','target':'ruins'}"
  /\ _extract_json_object raw
     = parse_attempts (js "{'action':'explore','target':'ruins'}").
Proof.
  apply (C2_fenced_brace_span _ (lit "I pick `explore`: ") (lit "json") [10]
           (js "'action':'explore','target':'ruins'") [10] (lit " done"));
    try reflexivity.
  now right.
Defined.

(** *** C3 *)




(** *** C4 *)


(** *** C6 *)




(** *** C8 *)




(** *** C9 *)



(** *** C10 *)

(** C10: for every [env_type] StateIngest lets through, once the
    credential is there, the run opens one file: [os.path.join] of the
    configured directory and the text of [env_type] followed by
    [-player.md]; a [str] is taken as it is.  So for [../x] under the
    default directory the path is [/workspace/skills/../x-player.md],
    which names [/workspace/x-player.md], outside the directory. *)
Theorem C10_skill_path (w : World) (state env_type : json) :
  Json.loads (stdin w) = Ok state ->
  Py.get state (lit "env_type") = Ok env_type ->
  Py.truthy env_type = true ->
  Py.truthy_str (api_key_of w) = true ->
  opened (fst (run_from_stdin w))
  = [Posixpath.join (skills_dir_of w)
       (format_with (py_str w) env_type ++ lit "-player.md")]
  /\ (forall s, env_type = JStr s ->
        skill_path_of w env_type
        = Posixpath.join (skills_dir_of w) (s ++ lit "-player.md"))
  /\ (env_type = JStr (lit "../x") -> skills_dir_of w = DEFAULT_SKILLS_DIR ->
        skill_path_of w env_type = lit "/workspace/skills/../x-player.md"
        /\ Posixpath.normpath (skill_path_of w env_type)
           = lit "/workspace/x-player.md"
        /\ Str.startswith (lit "/workspace/skills/")
             (Posixpath.normpath (skill_path_of w env_type)) = false).
Proof.
  intros Hstate Hget Htruthy Hkey.
  split; [|split; [|intros Henv Hdir; repeat split]].
  - rewrite run_from_stdin_eq, Hstate, Hget, Htruthy, Hkey. cbn [negb].
    cbv zeta. fold (skill_path_of w env_type).
    destruct (files w (skill_path_of w env_type)) as [skill|]; [|reflexivity].
    pose proof (call_openrouter_opens_nothing skill state w) as Ho.
    destruct (_call_openrouter skill state w) as [t [action|e]];
      cbn [fst opened] in *; rewrite ?opened_app, Ho; reflexivity.
  - intros s ->. reflexivity.
  - unfold skill_path_of. rewrite Hdir, Henv. reflexivity.
  - unfold skill_path_of. rewrite Hdir, Henv. reflexivity.
  - unfold skill_path_of. rewrite Hdir, Henv. reflexivity.
Qed.

(** An input whose [env_type] climbs out of the skills directory. *)
Lemma C10_witness :
  opened
    (fst (run_from_stdin
            (stub_world (js "{'env_type': '../x'}") (Some (lit "k")) [])))
  = [lit "/workspace/skills/../x-player.md"]
  /\ Posixpath.normpath (lit "/workspace/skills/../x-player.md")
     = lit "/workspace/x-player.md".
Proof.
  pose proof (C10_skill_path
                (stub_world (js "{'env_type': '../x'}") (Some (lit "k")) [])
                (JDict [(lit "env_type", JStr (lit "../x"))])
                (JStr (lit "../x")) eq_refl eq_refl eq_refl eq_refl)
    as (Hopen & _ & Hx).
  split; [exact Hopen|]. exact (proj1 (proj2 (Hx eq_refl eq_refl))).
Defined.

(** *** C1 *)




(** *** C7 *)

(** C7: two states that are the same mapping, whatever the order in which
    their keys were inserted, at any depth, are rendered to the same user
    prompt, character by character; and every character of the prompt is
    ASCII. *)
Theorem C7_prompt_deterministic (s1 s2 : json) :
  same_mapping s1 s2 -> distinct_keys s1 = true ->
  _build_user_prompt s1 = _build_user_prompt s2
  /\ forallb is_ascii (_build_user_prompt s1) = true.
Proof.
  intros Hsame Hkeys. split; [|apply ascii_build_user_prompt].
  unfold _build_user_prompt. now rewrite (dumps_same_mapping _ _ Hsame Hkeys).
Qed.

(** The state of the repository's test with its keys in two orders. *)
Lemma C7_witness :
  _build_user_prompt
    (JDict [(lit "env_type", JStr (lit "rpg"));
            (lit "game_state",
             JDict [(lit "turn", JInt 1); (lit "hp", JInt 2)])])
  = _build_user_prompt
      (JDict [(lit "game_state",
               JDict [(lit "hp", JInt 2); (lit "turn", JInt 1)]);
              (lit "env_type", JStr (lit "rpg"))])
  /\ forallb is_ascii
       (_build_user_prompt
          (JDict [(lit "env_type", JStr (lit "rpg"));
                  (lit "game_state",
                   JDict [(lit "turn", JInt 1); (lit "hp", JInt 2)])]))
     = true.
Proof.
  apply C7_prompt_deterministic; [|reflexivity].
  apply same_dict
    with (d := [(lit "game_state",
                 JDict [(lit "turn", JInt 1); (lit "hp", JInt 2)]);
                (lit "env_type", JStr (lit "rpg"))]).
  - apply perm_swap.
  - repeat constructor; cbn [fst snd].
    apply same_dict with (d := [(lit "hp", JInt 2); (lit "turn", JInt 1)]).
    + apply perm_swap.
    + repeat constructor.
Defined.

(** * Further properties of the turn *)

(** ** The shape of a run *)

(** With a credential the provider call records its one request. *)
Lemma call_openrouter_trace (prompt_skill : str) (state : json) (w : World)
    (c : char) (k : str) :
  api_key_of w = Some (c :: k) ->
  fst (_call_openrouter prompt_skill state w)
  = [Requested (request_of w (c :: k) prompt_skill state)].
Proof. intros Hkey. now rewrite call_openrouter_eq, Hkey. Qed.

Lemma truthy_str_some (x : option str) :
  Py.truthy_str x = true -> exists c k, x = Some (c :: k).
Proof. destruct x as [[|c k]|]; try discriminate. now exists c, k. Qed.

(** A run stops before the skill document, at the skill document, after
    the request, or after the line it writes. *)
Lemma run_cases (w : World) :
  (exists e, run_from_stdin w = ([], Raise e))
  \/ exists state env_type c k,
       Json.loads (stdin w) = Ok state
       /\ Py.get state (lit "env_type") = Ok env_type
       /\ Py.truthy env_type = true
       /\ api_key_of w = Some (c :: k)
       /\ ((files w (skill_path_of w env_type) = None
            /\ run_from_stdin w
               = ([Opened (skill_path_of w env_type)],
                  Raise (OSError (skill_path_of w env_type))))
           \/ exists skill_prompt,
                files w (skill_path_of w env_type) = Some skill_prompt
                /\ ((exists e,
                       run_from_stdin w
                       = ([Opened (skill_path_of w env_type);
                           Requested
                             (request_of w (c :: k) skill_prompt state)],
                          Raise e))
                    \/ exists d,
                         run_from_stdin w
                         = ([Opened (skill_path_of w env_type);
                             Requested
                               (request_of w (c :: k) skill_prompt state);
                             Stdout (Json.dumps false (JDict d));
                             Stdout [10]],
                            Ok tt))).
Proof.
  rewrite run_from_stdin_eq.
  destruct (Json.loads (stdin w)) as [state|e] eqn:Hstate;
    [|left; now exists e].
  destruct (Py.get state (lit "env_type")) as [env_type|e] eqn:Hget;
    [|left; now exists e].
  destruct (Py.truthy env_type) eqn:Htruthy; cbn [negb];
    [|left; now eexists].
  destruct (Py.truthy_str (api_key_of w)) eqn:Hkey; cbn [negb];
    [|left; now eexists].
  apply truthy_str_some in Hkey as (c & k & Hkey).
  right. exists state, env_type, c, k. repeat split; try assumption.
  cbv zeta.
  destruct (files w (skill_path_of w env_type)) as [skill_prompt|] eqn:Hfile;
    [|now left].
  right. exists skill_prompt. split; [reflexivity|].
  pose proof (call_openrouter_trace skill_prompt state w c k Hkey) as Ht.
  destruct (_call_openrouter skill_prompt state w) as [t [action|e]] eqn:E;
    cbn [fst] in Ht; subst t.
  - right. destruct (call_openrouter_object _ _ _ _ _ E) as [d ->].
    now exists d.
  - left. now exists e.
Qed.

(** The run of an accepted input with a credential and a readable skill
    document, as the provider call ends. *)
Lemma run_call (w : World) (state env_type : json) (skill_prompt : str) :
  Json.loads (stdin w) = Ok state ->
  Py.get state (lit "env_type") = Ok env_type ->
  Py.truthy env_type = true ->
  Py.truthy_str (api_key_of w) = true ->
  files w (skill_path_of w env_type) = Some skill_prompt ->
  run_from_stdin w
  = match _call_openrouter skill_prompt state w with
    | (t, Ok action) =>
        (Opened (skill_path_of w env_type) :: t
         ++ [Stdout (Json.dumps false action); Stdout [10]],
         Ok tt)
    | (t, Raise e) => (Opened (skill_path_of w env_type) :: t, Raise e)
    end.
Proof.
  intros Hstate Hget Htruthy Hkey Hfile.
  rewrite run_from_stdin_eq, Hstate, Hget, Htruthy, Hkey. cbn [negb].
  cbv zeta. now rewrite Hfile.
Qed.

(** [os.path.join] with a name that does not start with a slash. *)
Lemma join_relative (a b : str) :
  Str.startswith [Posixpath.sep] b = false ->
  Posixpath.join a b
  = match a with
    | [] => b
    | _ :: _ => if Posixpath.endswith_sep a then a ++ b
                else a ++ Posixpath.sep :: b
    end.
Proof. intros H. unfold Posixpath.join. now rewrite H. Qed.

(** ** The request *)

Lemma ascii_text_ok (s : str) : ascii_text s -> text_ok s = true.
Proof.
  unfold ascii_text. induction s as [|c s IH]; [reflexivity|].
  cbn [forallb text_ok]. intros H. apply andb_prop in H as [Hc Hs].
  rewrite (IH Hs), andb_true_r. unfold is_ascii in Hc.
  apply N.ltb_lt in Hc. apply andb_true_intro. split.
  - apply N.ltb_lt. unfold char in *. lia.
  - unfold Json.is_high_surrogate, in_range.
    unfold char in *. destruct (N.leb_spec 55296 c); [lia|reflexivity].
Qed.

Lemma text_ok_lit (x : string) : text_ok (lit x) = true.
Proof.
  unfold lit. induction x as [|a x IH]; [reflexivity|].
  cbn [list_ascii_of_string map text_ok]. rewrite IH, andb_true_r.
  pose proof (N_ascii_bounded a) as Ha. unfold ch.
  apply andb_true_intro. split.
  - apply N.ltb_lt. lia.
  - unfold Json.is_high_surrogate, in_range.
    destruct (N.leb_spec 55296 (N_of_ascii a)); [lia|reflexivity].
Qed.

(** ** Trimming *)

Lemma lstrip_blank (s : str) : blank s = true -> Str.lstrip s = [].
Proof.
  unfold blank. induction s as [|c s IH]; [reflexivity|].
  cbn [forallb Str.lstrip]. intros H. apply andb_prop in H as [-> Hs].
  now apply IH.
Qed.

Lemma rstrip_blank (s : str) : blank s = true -> Str.rstrip s = [].
Proof.
  unfold blank. induction s as [|c s IH]; [reflexivity|].
  cbn [forallb Str.rstrip]. intros H. apply andb_prop in H as [-> Hs].
  now rewrite (IH Hs).
Qed.

Lemma lstrip_app_blank (a s : str) :
  blank a = true -> Str.lstrip (a ++ s) = Str.lstrip s.
Proof.
  unfold blank. induction a as [|c a IH]; [reflexivity|].
  cbn [forallb app Str.lstrip]. intros H. apply andb_prop in H as [-> Ha].
  now apply IH.
Qed.

Lemma rstrip_app_blank (s b : str) :
  blank b = true -> Str.rstrip (s ++ b) = Str.rstrip s.
Proof.
  intros Hb. induction s as [|c s IH]; [now apply rstrip_blank|].
  cbn [app Str.rstrip]. now rewrite IH.
Qed.

(** Spaces around a text do not change what [strip] gives. *)
Lemma strip_padding (a s b : str) :
  blank a = true -> blank b = true ->
  Str.strip (a ++ s ++ b) = Str.strip s.
Proof.
  intros Ha Hb. unfold Str.strip. rewrite (lstrip_app_blank a _ Ha).
  induction s as [|c s IH].
  - cbn [app]. now rewrite (lstrip_blank b Hb).
  - cbn [app Str.lstrip]. destruct (Str.isspace c); [exact IH|].
    exact (rstrip_app_blank (c :: s) b Hb).
Qed.




(** ** Texts without a character *)







Lemma contains_app_l (needle a b : str) :
  Str.contains needle a = true -> Str.contains needle (a ++ b) = true.
Proof.
  induction a as [|c a IH]; cbn [app Str.contains].
  - intros H. rewrite orb_false_r in H. unfold Str.startswith in H.
    destruct needle; [|discriminate].
    destruct b; reflexivity.
  - intros H. apply orb_true_iff in H as [H|H].
    + unfold Str.startswith in *.
      destruct (Str.strip_prefix needle (c :: a)) as [r|] eqn:E;
        [|discriminate].
      apply strip_prefix_app in E. 
      assert (E' : Str.strip_prefix needle (needle ++ r ++ b)
                   = Some (r ++ b)).
      { clear. induction needle as [|x n IHn]; [reflexivity|].
        cbn [app Str.strip_prefix]. now rewrite N.eqb_refl. }
      change (c :: a ++ b) with ((c :: a) ++ b).
      rewrite E, <- app_assoc, E'. reflexivity.
    + rewrite (IH H). apply orb_true_r.
Qed.

Lemma fence_free_prefix (a b : str) :
  fence_free (a ++ b) = true -> fence_free a = true.
Proof.
  unfold fence_free. intros H. apply negb_true_iff in H.
  destruct (Str.contains (lit "```") a) eqn:E; [|reflexivity].
  now rewrite (contains_app_l _ _ b E) in H.
Qed.

Lemma fence_free_infix (a s b : str) :
  fence_free (a ++ s ++ b) = true -> fence_free s = true.
Proof.
  intros H. apply fence_free_suffix in H. now apply fence_free_prefix in H.
Qed.

(** ** Objects inside a reply *)



(** ** The piece of the reply an action comes from *)

Lemma candidate_infix (raw : str) :
  exists a c, raw = a ++ fenced_candidate raw ++ c.
Proof.
  unfold fenced_candidate.
  destruct (strip_infix raw) as (a & b & Hraw).
  destruct (Re.search fenced_pattern (Str.strip raw)) as [[g|]|] eqn:E;
    try now exists a, b.
  apply search_inv in E as (pre & suf & Htext & E).
  apply fenced_match_inv in E
    as (tag & ws1 & body & ws2 & post & -> & _ & _ & _ & Hg).
  injection Hg as ->.
  destruct (strip_infix (ch "{" :: body ++ [ch "}"])) as (a' & b' & Hg).
  exists (a ++ pre ++ lit "```" ++ tag ++ ws1 ++ a'),
         (b' ++ ws2 ++ lit "```" ++ post ++ b).
  rewrite Hraw at 1. rewrite Htext.
  replace (ch "{" :: body ++ ch "}" :: ws2 ++ lit "```" ++ post)
    with ((ch "{" :: body ++ [ch "}"]) ++ ws2 ++ lit "```" ++ post)
    by (cbn [app]; rewrite <- !app_assoc; reflexivity).
  rewrite Hg at 1. now rewrite <- !app_assoc.
Qed.

Lemma parse_attempts_piece (text : str) (v : json) :
  parse_attempts text = Ok v ->
  exists a b c, text = a ++ b ++ c /\ Json.loads b = Ok v.
Proof.
  unfold parse_attempts, brace_span.
  assert (Hspan :
    match Str.find (ch "{") text, Str.rfind (ch "}") text with
    | Some start, Some end_ =>
        if Nat.ltb start end_ then
          match Json.loads (Str.slice start (S end_) text) with
          | Ok (JDict d) => Ok (JDict d)
          | Ok _ => Raise no_action
          | Raise e => Raise e
          end
        else Raise no_action
    | _, _ => Raise no_action
    end = Ok v ->
    exists a b c, text = a ++ b ++ c /\ Json.loads b = Ok v).
  { destruct (Str.find (ch "{") text) as [start|]; [|discriminate].
    destruct (Str.rfind (ch "}") text) as [end_|]; [|discriminate].
    destruct (Nat.ltb start end_); [|discriminate].
    destruct (Json.loads (Str.slice start (S end_) text)) as [[]|] eqn:E;
      try discriminate.
    intros H. injection H as <-.
    exists (firstn start text), (Str.slice start (S end_) text),
      (skipn (S end_ - start) (skipn start text)).
    split; [|exact E]. unfold Str.slice.
    now rewrite firstn_skipn, firstn_skipn. }
  destruct (Json.loads text) as [[]|[]] eqn:E; try discriminate;
    try exact Hspan.
  intros H. injection H as <-. exists [], text, [].
  now rewrite app_nil_r.
Qed.

(** ** Key order and the state in the prompt *)

Section SortMap.
Variables (A B : Type) (f : A -> B).

Lemma insert_item_map (kv : str * A) (l : list (str * A)) :
  Json.insert_item (fst kv, f (snd kv))
    (map (fun x => (fst x, f (snd x))) l)
  = map (fun x => (fst x, f (snd x))) (Json.insert_item kv l).
Proof.
  induction l as [|kv' l IH]; [reflexivity|].
  cbn [map Json.insert_item fst]. destruct (Str.ltb (fst kv) (fst kv')).
  - reflexivity.
  - cbn [map]. now rewrite IH.
Qed.

Lemma sort_items_map (l : list (str * A)) :
  Json.sort_items (map (fun x => (fst x, f (snd x))) l)
  = map (fun x => (fst x, f (snd x))) (Json.sort_items l).
Proof.
  unfold Json.sort_items. induction l as [|kv l IH]; [reflexivity|].
  cbn [map fold_right]. rewrite IH. apply insert_item_map.
Qed.

End SortMap.

Lemma insert_item_permutation {A : Type} (kv : str * A)
    (l : list (str * A)) :
  Permutation (kv :: l) (Json.insert_item kv l).
Proof.
  induction l as [|kv' l IH]; [reflexivity|]. cbn [Json.insert_item].
  destruct (Str.ltb (fst kv) (fst kv')); [reflexivity|].
  rewrite perm_swap. now apply perm_skip.
Qed.

Lemma sort_items_permutation {A : Type} (l : list (str * A)) :
  Permutation l (Json.sort_items l).
Proof.
  unfold Json.sort_items. induction l as [|kv l IH]; [reflexivity|].
  cbn [fold_right]. rewrite <- insert_item_permutation. now apply perm_skip.
Qed.

Lemma NoDup_distinct (keys : list str) : NoDup keys -> distinct keys = true.
Proof.
  induction 1 as [|k ks Hk _ IH]; [reflexivity|]. cbn [distinct].
  rewrite IH, andb_true_r. apply negb_true_iff.
  destruct (existsb (str_eqb k) ks) eqn:E; [|reflexivity].
  apply existsb_exists in E as (x & Hx & E). apply str_eqb_eq in E.
  now subst x.
Qed.

(** Sorting the keys while encoding is encoding the value with its keys
    sorted. *)
Lemma dumps_canon (v : json) : Json.dumps true v = Json.dumps false (canon v).
Proof.
  induction v as [|b|n|f|s|l IH|d IH] using json_induction;
    try reflexivity.
  - rewrite dumps_list. cbn [canon]. rewrite dumps_list, map_map.
    do 2 f_equal. f_equal. apply map_ext_in. intros x Hx.
    rewrite Forall_forall in IH. now apply IH.
  - rewrite dumps_dict. cbn [canon]. rewrite dumps_dict.
    do 2 f_equal. f_equal. f_equal.
    rewrite <- (sort_items_map _ _ (Json.dumps false)), map_map.
    cbn [fst snd]. f_equal. apply map_ext_in. intros x Hx.
    rewrite Forall_forall in IH. now rewrite (IH x Hx).
Qed.

Lemma plain_canon (v : json) : plain v = true -> plain (canon v) = true.
Proof.
  induction v as [|b|n|f|s|l IH|d IH] using json_induction;
    try (intros H; exact H).
  - cbn [canon plain]. rewrite !forallb_forall. intros H x Hx.
    apply in_map_iff in Hx as (y & <- & Hy).
    rewrite Forall_forall in IH. apply IH; [exact Hy|now apply H].
  - cbn [canon plain]. intros H. rewrite forallb_forall in H.
    apply forallb_forall. apply Forall_forall, Forall_sort_items.
    apply Forall_forall. intros x Hx.
    apply in_map_iff in Hx as (y & <- & Hy). cbn [fst snd].
    specialize (H y Hy). apply andb_prop in H as [Hk Hv].
    rewrite Hk. rewrite Forall_forall in IH. now rewrite (IH y Hy Hv).
Qed.

Lemma distinct_keys_canon (v : json) :
  distinct_keys v = true -> distinct_keys (canon v) = true.
Proof.
  induction v as [|b|n|f|s|l IH|d IH] using json_induction;
    try (intros H; exact H).
  - cbn [canon distinct_keys]. rewrite !forallb_forall. intros H x Hx.
    apply in_map_iff in Hx as (y & <- & Hy).
    rewrite Forall_forall in IH. apply IH; [exact Hy|now apply H].
  - cbn [canon distinct_keys]. intros H. apply andb_prop in H as [Hd H].
    rewrite forallb_forall in H. apply andb_true_intro. split.
    + apply NoDup_distinct.
      apply (Permutation_NoDup (l := map fst d)); [|now apply distinct_NoDup].
      rewrite <- sort_items_permutation, map_map. cbn [fst]. reflexivity.
    + apply forallb_forall. apply Forall_forall, Forall_sort_items.
      apply Forall_forall. intros x Hx.
      apply in_map_iff in Hx as (y & <- & Hy). cbn [snd].
      rewrite Forall_forall in IH. apply (IH y Hy). now apply H.
Qed.

(** A value and the value with its keys sorted are the same mapping. *)
Lemma same_mapping_canon (v : json) : same_mapping v (canon v).
Proof.
  induction v as [|b|n|f|s|l IH|d IH] using json_induction;
    try apply same_value.
  - cbn [canon]. apply same_list.
    induction IH as [|x l Hx _ IHl]; constructor; assumption.
  - cbn [canon]. rewrite sort_items_map.
    apply same_dict with (d := Json.sort_items d).
    + apply sort_items_permutation.
    + assert (H : Forall (fun kv => same_mapping (snd kv) (canon (snd kv)))
                    (Json.sort_items d)).
      { now apply Forall_sort_items. }
      induction H as [|x l Hx _ IHl]; constructor; [|exact IHl].
      split; [reflexivity|exact Hx].
Qed.

(** Two values that are equal once their keys are sorted are the same
    mapping. *)
Lemma canon_same_mapping (a : json) :
  forall b, canon a = canon b -> same_mapping a b.
Proof.
  induction a as [|x|n|f|s|l IH|d IH] using json_induction;
    intros b Hb.
  1-5: destruct b; cbn [canon] in Hb; try discriminate Hb;
       try (injection Hb as ->); apply same_value.
  - destruct b as [| | | | |l'|]; cbn [canon] in Hb; try discriminate.
    injection Hb as Hb. apply same_list. revert l' Hb.
    induction IH as [|x l Hx _ IHl]; intros [|y l'] Hb;
      try discriminate; constructor.
    + apply Hx. now injection Hb.
    + apply IHl. now injection Hb.
  - destruct b as [| | | | | |d']; cbn [canon] in Hb; try discriminate.
    injection Hb as Hb. rewrite !sort_items_map in Hb.
    assert (Hs : Forall (fun kv => forall b,
                           canon (snd kv) = canon b ->
                           same_mapping (snd kv) b) (Json.sort_items d)).
    { now apply Forall_sort_items. }
    assert (HF : Forall2 (fun x y => fst x = fst y
                                     /\ same_mapping (snd x) (snd y))
                   (Json.sort_items d) (Json.sort_items d')).
    { revert Hb. generalize (Json.sort_items d') as l'.
      induction Hs as [|x l Hx _ IHl]; intros [|y l'] Hb;
        try discriminate; constructor.
      - cbn [map] in Hb. injection Hb as Hk Hv _.
        split; [exact Hk|now apply Hx].
      - apply IHl. cbn [map] in Hb. now injection Hb. }
    apply Forall2_flip in HF.
    destruct (Permutation_Forall2
                (Permutation_sym (sort_items_permutation d')) HF)
      as (l & Hperm & HF').
    apply same_dict with (d := l).
    + now rewrite <- Hperm, <- sort_items_permutation.
    + apply Forall2_flip in HF'. exact HF'.
Qed.

Lemma build_user_prompt_eq (state : json) :
  _build_user_prompt state = prompt_directive ++ Json.dumps true state.
Proof.
  unfold _build_user_prompt, prompt_directive. now rewrite <- !app_assoc.
Qed.

(** What [json.loads] gives on the state as the prompt holds it. *)
Lemma loads_dumps_sorted (state : json) :
  plain state = true -> distinct_keys state = true ->
  Json.loads (Json.dumps true state) = Ok (canon state).
Proof.
  intros Hplain Hkeys. rewrite dumps_canon.
  apply loads_dumps; [now apply plain_canon|now apply distinct_keys_canon].
Qed.

(** ** The file a run opens *)

Lemma run_opens (w : World) (state env_type : json) :
  Json.loads (stdin w) = Ok state ->
  Py.get state (lit "env_type") = Ok env_type ->
  Py.truthy env_type = true ->
  Py.truthy_str (api_key_of w) = true ->
  opened (fst (run_from_stdin w)) = [skill_path_of w env_type].
Proof.
  intros Hstate Hget Htruthy Hkey.
  rewrite run_from_stdin_eq, Hstate, Hget, Htruthy, Hkey. cbn [negb].
  cbv zeta.
  destruct (files w (skill_path_of w env_type)) as [skill|]; [|reflexivity].
  pose proof (call_openrouter_opens_nothing skill state w) as Ho.
  destruct (_call_openrouter skill state w) as [t [action|e]];
    cbn [fst opened] in *; rewrite ?opened_app, Ho; reflexivity.
Qed.

Lemma startswith_app (p s r : str) :
  Str.startswith p s = true -> Str.startswith p (s ++ r) = true.
Proof.
  unfold Str.startswith. revert s.
  induction p as [|a p IH]; intros s; [reflexivity|].
  destruct s as [|b s]; cbn [Str.strip_prefix app]; [discriminate|].
  destruct (N.eqb a b); [apply IH|discriminate].
Qed.

Lemma startswith_sep_false (s r : str) :
  s <> [] -> existsb (isc "/") s = false ->
  Str.startswith [Posixpath.sep] (s ++ r) = false.
Proof.
  destruct s as [|c s]; [easy|]. intros _ H. cbn [existsb] in H.
  apply orb_false_iff in H as [Hc _]. unfold isc in Hc.
  unfold Str.startswith, Posixpath.sep. cbn [app Str.strip_prefix].
  rewrite N.eqb_sym, Hc. reflexivity.
Qed.

(** ** Texts the scanner skips *)

Lemma skip_ws_nil (s : str) :
  Json.skip_ws s = [] -> forallb Json.is_whitespace s = true.
Proof.
  induction s as [|c s IH]; [reflexivity|]. cbn [Json.skip_ws forallb].
  destruct (Json.is_whitespace c); [exact IH|discriminate].
Qed.

(** ** Printable output *)

Lemma printable_app (a b : str) :
  printable_text a -> printable_text b -> printable_text (a ++ b).
Proof.
  unfold printable_text. intros Ha Hb. now rewrite forallb_app, Ha, Hb.
Qed.

Lemma printable_cons (c : char) (s : str) :
  printable c = true -> printable_text s -> printable_text (c :: s).
Proof. unfold printable_text. cbn. now intros -> ->. Qed.

Lemma printable_digits_of_uint (u : Decimal.uint) :
  printable_text (Json.digits_of_uint u).
Proof. induction u; cbn; [reflexivity|now apply printable_cons..]. Qed.

Lemma printable_int_repr (n : Z) : printable_text (Json.int_repr n).
Proof.
  unfold Json.int_repr, Json.digits_of_N.
  destruct (Z.ltb n 0); [apply printable_cons; [reflexivity|]|];
    apply printable_digits_of_uint.
Qed.

Lemma printable_floatstr (f : pyfloat) : printable_text (Json.floatstr f).
Proof.
  destruct f as [|[]|negative m e]; try reflexivity. cbn [Json.floatstr].
  repeat apply printable_app.
  - now destruct negative.
  - apply printable_digits_of_uint.
  - reflexivity.
  - apply printable_int_repr.
Qed.

Lemma hexdigit_printable (x : N) :
  printable (Json.hexdigit (N.land x 15)) = true.
Proof.
  change 15 with (N.ones 4). rewrite N.land_ones.
  assert (H : x mod 2 ^ 4 < 16) by (apply N.mod_lt; discriminate).
  unfold Json.hexdigit, printable.
  generalize dependent (x mod 2 ^ 4). intros n H.
  destruct (N.ltb_spec n 10); apply andb_true_intro; split;
    apply N.leb_le; lia.
Qed.

Lemma printable_u_escape (c : N) : printable_text (Json.u_escape c).
Proof.
  unfold Json.u_escape, printable_text. cbn [forallb].
  now rewrite !hexdigit_printable.
Qed.

Lemma printable_escape_char (c : char) :
  printable_text (Json.escape_char c).
Proof.
  unfold Json.escape_char.
  destruct (Json.s_char c) eqn:Hs.
  { unfold printable_text, Json.s_char, printable in *. cbn.
    apply andb_prop in Hs as [Hs _]. apply andb_prop in Hs as [Hs _].
    now rewrite Hs. }
  repeat match goal with
         | |- context [if ?b then _ else _] => destruct b
         end;
    try reflexivity; try apply printable_u_escape.
  apply printable_app; apply printable_u_escape.
Qed.

Lemma printable_encode_basestring (s : str) :
  printable_text (Json.encode_basestring_ascii s).
Proof.
  unfold Json.encode_basestring_ascii.
  apply printable_cons; [reflexivity|]. apply printable_app; [|reflexivity].
  induction s as [|c s IH]; [reflexivity|]. cbn.
  apply printable_app; [apply printable_escape_char|exact IH].
Qed.

Lemma printable_join (sep : str) (parts : list str) :
  printable_text sep -> Forall printable_text parts ->
  printable_text (Json.join sep parts).
Proof.
  intros Hsep H. induction H as [|p ps Hp Hps IH]; [reflexivity|].
  cbn. destruct ps; [exact Hp|].
  apply printable_app; [exact Hp|]. now apply printable_app.
Qed.

(** Every character the encoder writes is printable: what is not is
    written as an escape. *)
Lemma printable_dumps (sort_keys : bool) (v : json) :
  printable_text (Json.dumps sort_keys v).
Proof.
  induction v as [|[]| | | |l IH|d IH] using json_induction;
    try reflexivity.
  - apply printable_int_repr.
  - apply printable_floatstr.
  - apply printable_encode_basestring.
  - rewrite dumps_list. apply printable_app; [reflexivity|].
    apply printable_app; [|reflexivity].
    apply printable_join; [reflexivity|]. now apply Forall_map.
  - rewrite dumps_dict. apply printable_app; [reflexivity|].
    apply printable_app; [|reflexivity].
    apply printable_join; [reflexivity|]. apply Forall_map.
    assert (H : Forall (fun kv : str * str =>
                          printable_text (Json.encode_pair kv))
                  (map (fun kv => (fst kv, Json.dumps sort_keys (snd kv))) d)).
    { apply Forall_map. induction IH as [|kv d Hkv _ IHd]; constructor; auto.
      unfold Json.encode_pair. cbn [fst snd].
      apply printable_app; [apply printable_encode_basestring|].
      apply printable_app; [reflexivity|exact Hkv]. }
    destruct sort_keys; [now apply Forall_sort_items|exact H].
Qed.

Lemma printable_no_line_feed (s : str) : printable_text s -> ~ In 10 s.
Proof.
  unfold printable_text. intros H Hin.
  rewrite forallb_forall in H. specialize (H 10 Hin). discriminate.
Qed.

(** ** A candidate from brace to brace *)


(** ** The keys of what the scanner returns *)









(** ** The line a run writes *)





(** * What a scan looks at

    The scanner reads a value from the start of a text and leaves the
    rest.  The lemmas of this part show that it looks at the rest only to
    see where a number ends: with another rest that also ends a value, the
    same value is read from the same characters. *)

(** ** Strings *)

Lemma app_same_tail {A : Type} (p r : list A) : p ++ r = r -> p = [].
Proof.
  intros H. apply (f_equal (@List.length A)) in H. rewrite length_app in H.
  destruct p; [reflexivity|cbn in H; lia].
Qed.

Lemma scanstring_plain (c : char) (s1 : str) :
  N.eqb c 34 = false -> isc "\" c = false -> N.leb c 31 = false ->
  Json.scanstring (c :: s1) = Json.scan_cons c (Json.scanstring s1).
Proof. intros H1 H2 H3. cbn [Json.scanstring]. now rewrite H1, H2, H3. Qed.

Lemma scanstring_control (c : char) (s1 : str) :
  N.eqb c 34 = false -> isc "\" c = false -> N.leb c 31 = true ->
  Json.scanstring (c :: s1) = Json.DecodeError.
Proof. intros H1 H2 H3. cbn [Json.scanstring]. now rewrite H1, H2, H3. Qed.

Lemma scanstring_escape1 (e : char) (s2 : str) :
  isc "u" e = false ->
  Json.scanstring (92 :: e :: s2)
  = match Json.unescape e with
    | Some c' => Json.scan_cons c' (Json.scanstring s2)
    | None => Json.DecodeError
    end.
Proof.
  intros H. cbn [Json.scanstring]. change (N.eqb 92 34) with false.
  change (isc "\" 92) with true. cbv iota. now rewrite H.
Qed.

Lemma scanstring_u_short (s2 : str) :
  (List.length s2 < 5)%nat ->
  Json.scanstring (92 :: 117 :: s2) = Json.DecodeError.
Proof.
  destruct s2 as [|h1 [|h2 [|h3 [|h4 [|x t]]]]]; try reflexivity.
  cbn [List.length]. lia.
Qed.

Lemma lookahead_u_short (c1 : N) (t2 : str) :
  (List.length t2 < 5)%nat ->
  lookahead c1 (92 :: 117 :: t2) = Json.DecodeError.
Proof.
  destruct t2 as [|g1 [|g2 [|g3 [|g4 [|y t]]]]]; try reflexivity.
  cbn [List.length]. lia.
Qed.

Lemma lookahead_join (c1 : N) (g1 g2 g3 g4 : char) (c2 : N) (y : char)
    (s4 : str) :
  Json.hex4 g1 g2 g3 g4 = Some c2 -> Json.is_low_surrogate c2 = true ->
  lookahead c1 (92 :: 117 :: g1 :: g2 :: g3 :: g4 :: y :: s4)
  = Json.scan_cons (Json.join_surrogates c1 c2) (Json.scanstring (y :: s4)).
Proof.
  intros Hh Hlow. unfold lookahead.
  change (isc "\" 92 && isc "u" 117) with true. cbv iota.
  now rewrite Hh, Hlow.
Qed.

Lemma lookahead_bad_hex (c1 : N) (g1 g2 g3 g4 y : char) (s4 : str) :
  Json.hex4 g1 g2 g3 g4 = None ->
  lookahead c1 (92 :: 117 :: g1 :: g2 :: g3 :: g4 :: y :: s4)
  = Json.DecodeError.
Proof.
  intros Hh. unfold lookahead.
  change (isc "\" 92 && isc "u" 117) with true. cbv iota. now rewrite Hh.
Qed.

Lemma lookahead_suffix (c1 : N) (t a rest : str) :
  lookahead c1 t = Json.Scanned a rest ->
  suffix rest t /\ (List.length rest < List.length t)%nat.
Proof.
  assert (Hfall : forall x,
            Json.scan_cons c1 (Json.scanstring x) = Json.Scanned a rest ->
            suffix rest x /\ (List.length rest < List.length x)%nat).
  { intros x H. apply scan_cons_inv in H as (a' & H & _).
    now apply scanstring_suffix in H. }
  unfold lookahead.
  destruct t as [|b [|u [|g1 [|g2 [|g3 [|g4 [|y s4]]]]]]];
    try apply Hfall.
  destruct (isc "\" b && isc "u" u); [|apply Hfall].
  destruct (Json.hex4 g1 g2 g3 g4) as [c2|]; [|discriminate].
  destruct (Json.is_low_surrogate c2); [|apply Hfall].
  intros H. apply scan_cons_inv in H as (a' & H & _).
  apply scanstring_suffix in H as [Hs Hl]. split.
  - now do 6 apply suffix_cons.
  - cbn [List.length] in *. lia.
Qed.

(** The step of the induction: what is read after the characters [pre]
    is read in the same way when the rest is another one. *)
Lemma replace_step (n : nat) (pre p X r a' : str)
    (scan : str -> Json.scan str) :
  (forall p', (List.length p' <= n)%nat ->
     forall a r r2, scan (p' ++ r) = Json.Scanned a r ->
                    scan (p' ++ r2) = Json.Scanned a r2) ->
  (forall x a rest, scan x = Json.Scanned a rest ->
     suffix rest x /\ (List.length rest < List.length x)%nat) ->
  (List.length p <= S n)%nat -> pre <> [] ->
  p ++ r = pre ++ X ->
  scan X = Json.Scanned a' r ->
  exists x p',
    p = pre ++ x :: p' /\ X = x :: p' ++ r
    /\ forall r2, scan (x :: p' ++ r2) = Json.Scanned a' r2.
Proof.
  intros IH Hsuf Hlen Hpre Hp HX.
  destruct (Hsuf _ _ _ HX) as [[p' Hp'] Hl]. subst X.
  rewrite app_assoc in Hp. apply app_inv_tail in Hp. subst p.
  rewrite length_app in Hl, Hlen.
  destruct p' as [|x p']; [cbn [List.length] in Hl; lia|].
  exists x, p'. repeat split. intros r2.
  apply (IH (x :: p')) with (r := r); [|exact HX].
  destruct pre; [now elim Hpre|]. cbn [List.length] in *. lia.
Qed.

Ltac same_head HX :=
  let E := fresh "E" in
  injection HX as E _; subst.

(** What [scanstring] reads from the characters [p] it reads with any
    rest, and so does the scan after the escape of a high surrogate. *)
Lemma string_replace (n : nat) :
  forall p, (List.length p <= n)%nat ->
    (forall a r r2, Json.scanstring (p ++ r) = Json.Scanned a r ->
                    Json.scanstring (p ++ r2) = Json.Scanned a r2)
    /\ (forall c1 a r r2, lookahead c1 (p ++ r) = Json.Scanned a r ->
                          lookahead c1 (p ++ r2) = Json.Scanned a r2).
Proof.
  induction n as [|n IH].
  { intros p Hp. destruct p; [|cbn in Hp; lia]. split.
    - intros a r r2 H. apply scanstring_suffix in H as [_ H]. cbn in H. lia.
    - intros c1 a r r2 H. apply lookahead_suffix in H as [_ H].
      cbn in H. lia. }
  assert (IHP : forall p', (List.length p' <= n)%nat ->
            forall a r r2, Json.scanstring (p' ++ r) = Json.Scanned a r ->
                           Json.scanstring (p' ++ r2) = Json.Scanned a r2).
  { intros p' Hp'. apply (IH p' Hp'). }
  assert (IHQ : forall c1 p', (List.length p' <= n)%nat ->
            forall a r r2, lookahead c1 (p' ++ r) = Json.Scanned a r ->
                           lookahead c1 (p' ++ r2) = Json.Scanned a r2).
  { intros c1 p' Hp'. apply (IH p' Hp'). }
  assert (HP : forall p, (List.length p <= S n)%nat ->
            forall a r r2, Json.scanstring (p ++ r) = Json.Scanned a r ->
                           Json.scanstring (p ++ r2) = Json.Scanned a r2).
  { intros p Hp a r r2 H. unfold str, char in *.
    remember (p ++ r) as s eqn:Es. destruct s as [|c s1]; [discriminate|].
    symmetry in Es.
    destruct (N.eqb c 34) eqn:Eq.
    { apply N.eqb_eq in Eq. subst c. cbn [Json.scanstring] in H.
      change (N.eqb 34 34) with true in H. cbv iota in H.
      injection H as <- <-.
      change (34 :: s1) with ([34] ++ s1) in Es. apply app_inv_tail in Es.
      subst p. reflexivity. }
    destruct (isc "\" c) eqn:Eb.
    { apply N.eqb_eq in Eb. change (ch "\") with 92 in Eb. subst c.
      destruct s1 as [|e s2]; [discriminate H|].
      destruct (isc "u" e) eqn:Eu.
      - apply N.eqb_eq in Eu. change (ch "u") with 117 in Eu. subst e.
        destruct (Nat.ltb (List.length s2) 5) eqn:El.
        { apply Nat.ltb_lt in El. rewrite (scanstring_u_short _ El) in H.
          discriminate. }
        apply Nat.ltb_ge in El.
        destruct s2 as [|h1 [|h2 [|h3 [|h4 [|x t]]]]];
          try (cbn [List.length] in El; lia).
        rewrite scanstring_u_lookahead in H.
        destruct (Json.hex4 h1 h2 h3 h4) as [c1|] eqn:Eh; [|discriminate].
        destruct (Json.is_high_surrogate c1) eqn:Ehigh.
        + destruct (replace_step n [92; 117; h1; h2; h3; h4] p (x :: t) r a
                      (lookahead c1) (IHQ c1) (lookahead_suffix c1) Hp
                      ltac:(discriminate) Es H)
            as (x' & p' & -> & HX & Hgoal).
          same_head HX. cbn [app].
          rewrite scanstring_u_lookahead, Eh, Ehigh. apply Hgoal.
        + apply scan_cons_inv in H as (a' & H & ->).
          destruct (replace_step n [92; 117; h1; h2; h3; h4] p (x :: t) r a'
                      Json.scanstring IHP scanstring_suffix Hp
                      ltac:(discriminate) Es H)
            as (x' & p' & -> & HX & Hgoal).
          same_head HX. cbn [app].
          now rewrite scanstring_u_lookahead, Eh, Ehigh, Hgoal.
      - rewrite (scanstring_escape1 _ _ Eu) in H.
        destruct (Json.unescape e) as [c'|] eqn:Ee; [|discriminate].
        apply scan_cons_inv in H as (a' & H & ->).
        destruct (replace_step n [92; e] p s2 r a'
                    Json.scanstring IHP scanstring_suffix Hp
                    ltac:(discriminate) Es H)
          as (x' & p' & -> & HX & Hgoal).
        cbn [app]. now rewrite (scanstring_escape1 _ _ Eu), Ee, Hgoal. }
    destruct (N.leb c 31) eqn:Ec.
    { rewrite (scanstring_control _ _ Eq Eb Ec) in H. discriminate. }
    rewrite (scanstring_plain _ _ Eq Eb Ec) in H.
    apply scan_cons_inv in H as (a' & H & ->).
    destruct (replace_step n [c] p s1 r a'
                Json.scanstring IHP scanstring_suffix Hp
                ltac:(discriminate) Es H)
      as (x' & p' & -> & HX & Hgoal).
    cbn [app]. now rewrite (scanstring_plain _ _ Eq Eb Ec), Hgoal. }
  assert (HQ : forall p, (List.length p <= S n)%nat ->
            forall c1 a r r2, lookahead c1 (p ++ r) = Json.Scanned a r ->
                              lookahead c1 (p ++ r2) = Json.Scanned a r2).
  { intros p Hp c1 a r r2 H. unfold str, char in *.
    remember (p ++ r) as s eqn:Es. destruct s as [|b t]; [discriminate|].
    symmetry in Es.
    destruct (isc "\" b) eqn:Eb.
    2:{ rewrite (lookahead_first _ _ _ Eb) in H.
        apply scan_cons_inv in H as (a' & H & ->). unfold char in *.
        rewrite <- Es in H. pose proof (HP p Hp a' r r2 H) as Hg.
        destruct p as [|b' p'].
        { cbn [app] in H. apply scanstring_suffix in H as [_ Hl]. lia. }
        cbn [app] in Es. injection Es as -> _. cbn [app] in *.
        rewrite (lookahead_first _ _ _ Eb). unfold char in *.
        now rewrite Hg. }
    apply N.eqb_eq in Eb. change (ch "\") with 92 in Eb. subst b.
    destruct t as [|u t2]; [discriminate H|].
    destruct (isc "u" u) eqn:Eu.
    2:{ rewrite (lookahead_second _ _ _ _ Eu) in H.
        apply scan_cons_inv in H as (a' & H & ->).
        rewrite (scanstring_escape1 _ _ Eu) in H.
        destruct (Json.unescape u) as [c'|] eqn:Ee; [|discriminate].
        apply scan_cons_inv in H as (a'' & H & ->).
        destruct (replace_step n [92; u] p t2 r a''
                    Json.scanstring IHP scanstring_suffix Hp
                    ltac:(discriminate) Es H)
          as (x' & p' & -> & HX & Hgoal).
        cbn [app].
        now rewrite (lookahead_second _ _ _ _ Eu),
          (scanstring_escape1 _ _ Eu), Ee, Hgoal. }
    apply N.eqb_eq in Eu. change (ch "u") with 117 in Eu. subst u.
    destruct (Nat.ltb (List.length t2) 5) eqn:El.
    { apply Nat.ltb_lt in El. rewrite (lookahead_u_short _ _ El) in H.
      discriminate. }
    apply Nat.ltb_ge in El.
    destruct t2 as [|g1 [|g2 [|g3 [|g4 [|y s4]]]]];
      try (cbn [List.length] in El; lia).
    destruct (Json.hex4 g1 g2 g3 g4) as [c2|] eqn:Eh.
    2:{ rewrite (lookahead_bad_hex _ _ _ _ _ _ _ Eh) in H. discriminate. }
    destruct (Json.is_low_surrogate c2) eqn:Elow.
    - rewrite (lookahead_join _ _ _ _ _ _ _ _ Eh Elow) in H.
      apply scan_cons_inv in H as (a' & H & ->).
      destruct (replace_step n [92; 117; g1; g2; g3; g4] p (y :: s4) r a'
                  Json.scanstring IHP scanstring_suffix Hp
                  ltac:(discriminate) Es H)
        as (x' & p' & -> & HX & Hgoal).
      same_head HX. cbn [app].
      now rewrite (lookahead_join _ _ _ _ _ _ _ _ Eh Elow), Hgoal.
    - rewrite (lookahead_escape _ _ _ _ _ _ _ _ Eh Elow) in H.
      apply scan_cons_inv in H as (a' & H & ->).
      rewrite scanstring_u_lookahead, Eh in H.
      destruct (Json.is_high_surrogate c2) eqn:Ehigh.
      + destruct (replace_step n [92; 117; g1; g2; g3; g4] p (y :: s4) r a'
                    (lookahead c2) (IHQ c2) (lookahead_suffix c2) Hp
                    ltac:(discriminate) Es H)
          as (x' & p' & -> & HX & Hgoal).
        same_head HX. cbn [app].
        now rewrite (lookahead_escape _ _ _ _ _ _ _ _ Eh Elow),
          scanstring_u_lookahead, Eh, Ehigh, Hgoal.
      + apply scan_cons_inv in H as (a'' & H & ->).
        destruct (replace_step n [92; 117; g1; g2; g3; g4] p (y :: s4) r a''
                    Json.scanstring IHP scanstring_suffix Hp
                    ltac:(discriminate) Es H)
          as (x' & p' & -> & HX & Hgoal).
        same_head HX. cbn [app].
        now rewrite (lookahead_escape _ _ _ _ _ _ _ _ Eh Elow),
          scanstring_u_lookahead, Eh, Ehigh, Hgoal. }
  intros p Hp. split; [now apply HP|intros c1; now apply HQ].
Qed.

Lemma scanstring_replace (p r r2 a : str) :
  Json.scanstring (p ++ r) = Json.Scanned a r ->
  Json.scanstring (p ++ r2) = Json.Scanned a r2.
Proof.
  intros H. now apply (proj1 (string_replace (List.length p) p (le_n _)) a r).
Qed.

(** ** Numbers *)

Ltac ends_cases r H :=
  destruct r as [|?c ?t];
  [|cbn [ends_value] in H; unfold Json.is_whitespace, isc in H;
    repeat (apply orb_prop in H as [H|H]);
    apply N.eqb_eq in H; subst].

Lemma span_local (r : str) :
  ends_value r = true ->
  forall q, exists ds m,
    Json.span Json.isdigit (q ++ r) = (ds, m ++ r)
    /\ forall r2, ends_value r2 = true ->
         Json.span Json.isdigit (q ++ r2) = (ds, m ++ r2).
Proof.
  intros Hr q. induction q as [|c q (ds & m & H & H2)].
  - exists [], []. split.
    + ends_cases r Hr; reflexivity.
    + intros r2 Hr2. ends_cases r2 Hr2; reflexivity.
  - cbn [app Json.span]. destruct (Json.isdigit c).
    + exists (c :: ds), m. rewrite H. split; [reflexivity|].
      intros r2 Hr2. now rewrite (H2 r2 Hr2).
    + exists [], (c :: q). split; [reflexivity|]. reflexivity.
Qed.

Lemma optional_local (r : str) :
  ends_value r = true ->
  forall q, exists neg m,
    Json.optional "-" (q ++ r) = (neg, m ++ r)
    /\ forall r2, ends_value r2 = true ->
         Json.optional "-" (q ++ r2) = (neg, m ++ r2).
Proof.
  intros Hr [|c q].
  - exists false, []. split.
    + ends_cases r Hr; reflexivity.
    + intros r2 Hr2. ends_cases r2 Hr2; reflexivity.
  - cbn [app Json.optional]. destruct (isc "-" c).
    + exists true, q. now split.
    + exists false, (c :: q). now split.
Qed.

Lemma sign_local (r : str) :
  ends_value r = true ->
  forall q, exists neg m,
    Json.exponent_sign (q ++ r) = (neg, m ++ r)
    /\ forall r2, ends_value r2 = true ->
         Json.exponent_sign (q ++ r2) = (neg, m ++ r2).
Proof.
  intros Hr [|c q].
  - exists false, []. split.
    + ends_cases r Hr; reflexivity.
    + intros r2 Hr2. ends_cases r2 Hr2; reflexivity.
  - cbn [app Json.exponent_sign]. destruct (isc "-" c).
    + exists true, q. now split.
    + destruct (isc "+" c).
      * exists false, q. now split.
      * exists false, (c :: q). now split.
Qed.

Lemma integer_local (r : str) :
  ends_value r = true ->
  forall q ints rest,
    Json.integer_part (q ++ r) = Some (ints, rest) ->
    exists m, rest = m ++ r
      /\ forall r2, ends_value r2 = true ->
           Json.integer_part (q ++ r2) = Some (ints, m ++ r2).
Proof.
  intros Hr [|c q] ints rest.
  - cbn [app]. ends_cases r Hr; discriminate.
  - cbn [app Json.integer_part]. destruct (in_range 49 57 c).
    + destruct (span_local r Hr q) as (ds & m & H & H2). rewrite H.
      intros E. injection E as <- <-. exists m. split; [reflexivity|].
      intros r2 Hr2. now rewrite (H2 r2 Hr2).
    + destruct (isc "0" c); [|discriminate].
      intros E. injection E as <- <-. exists q. now split.
Qed.

Lemma fraction_local (r : str) :
  ends_value r = true ->
  forall q, exists frac m,
    Json.fraction_part (q ++ r) = (frac, m ++ r)
    /\ forall r2, ends_value r2 = true ->
         Json.fraction_part (q ++ r2) = (frac, m ++ r2).
Proof.
  intros Hr [|x [|y q]].
  - exists [], []. split.
    + ends_cases r Hr; try reflexivity; destruct t; reflexivity.
    + intros r2 Hr2.
      ends_cases r2 Hr2; try reflexivity; destruct t; reflexivity.
  - exists [], [x]. split.
    + ends_cases r Hr; cbn; rewrite ?andb_false_r; reflexivity.
    + intros r2 Hr2.
      ends_cases r2 Hr2; cbn; rewrite ?andb_false_r; reflexivity.
  - cbn [app Json.fraction_part].
    destruct (isc "." x && Json.isdigit y).
    + destruct (span_local r Hr (y :: q)) as (ds & m & H & H2).
      exists ds, m. split; [exact H|exact H2].
    + exists [], (x :: y :: q). now split.
Qed.

Lemma exponent_local (r : str) :
  ends_value r = true ->
  forall q, exists exp m,
    Json.exponent_part (q ++ r) = (exp, m ++ r)
    /\ forall r2, ends_value r2 = true ->
         Json.exponent_part (q ++ r2) = (exp, m ++ r2).
Proof.
  intros Hr [|e q].
  - exists None, []. split.
    + ends_cases r Hr; reflexivity.
    + intros r2 Hr2. ends_cases r2 Hr2; reflexivity.
  - cbn [app Json.exponent_part]. destruct (isc "e" e || isc "E" e).
    + destruct (sign_local r Hr q) as (neg & m1 & H1 & H1').
      destruct (span_local r Hr m1) as (ds & m & H & H').
      rewrite H1, H. destruct ds as [|d ds].
      * exists None, (e :: q). split; [reflexivity|].
        intros r2 Hr2. now rewrite (H1' r2 Hr2), (H' r2 Hr2).
      * exists (Some (Json.signed neg (Json.nat_of_digits (d :: ds)))), m.
        split; [reflexivity|].
        intros r2 Hr2. now rewrite (H1' r2 Hr2), (H' r2 Hr2).
    + exists None, (e :: q). now split.
Qed.

(** A number is read in the same way before any rest that ends a
    value. *)
Lemma match_number_local (r : str) :
  ends_value r = true ->
  forall q v rest,
    Json.match_number (q ++ r) = Json.Scanned v rest ->
    exists m, rest = m ++ r
      /\ forall r2, ends_value r2 = true ->
           Json.match_number (q ++ r2) = Json.Scanned v (m ++ r2).
Proof.
  intros Hr q v rest. unfold Json.match_number.
  destruct (optional_local r Hr q) as (neg & m1 & H1 & H1'). rewrite H1.
  destruct (Json.integer_part (m1 ++ r)) as [[ints s2]|] eqn:E2;
    [|discriminate].
  destruct (integer_local r Hr m1 ints s2 E2) as (m2 & -> & H2').
  destruct (fraction_local r Hr m2) as (frac & m3 & H3 & H3'). rewrite H3.
  destruct (exponent_local r Hr m3) as (exp & m4 & H4 & H4'). rewrite H4.
  intros H. exists m4. split.
  - destruct frac, exp; now injection H.
  - intros r2 Hr2.
    rewrite (H1' r2 Hr2), (H2' r2 Hr2), (H3' r2 Hr2), (H4' r2 Hr2).
    destruct frac, exp; injection H as <- _; reflexivity.
Qed.

(** ** The same text before two rests *)

Lemma same_before_length (r r2 s s2 : str) :
  same_before r r2 s s2 ->
  (List.length s2 + List.length r = List.length s + List.length r2)%nat.
Proof. intros (q & -> & ->). rewrite !length_app. lia. Qed.

Lemma suffix_strict (a : str) (c : char) (s : str) :
  suffix a (c :: s) -> (List.length a <= List.length s)%nat -> suffix a s.
Proof.
  intros [[|x pre] H] Hl.
  - cbn [app] in H. subst a. cbn [List.length] in Hl. lia.
  - cbn [app] in H. injection H as _ ->. now exists pre.
Qed.

Lemma same_before_tail (r r2 : str) (c : char) (x x2 : str) :
  same_before r r2 (c :: x) x2 -> suffix r x ->
  exists y2, x2 = c :: y2 /\ same_before r r2 x y2.
Proof.
  intros ([|a q] & H & ->) Hs.
  - cbn [app] in H. subst r. apply suffix_length in Hs.
    cbn [List.length] in Hs. lia.
  - cbn [app] in H. injection H as <- ->. exists (q ++ r2).
    split; [reflexivity|]. now exists q.
Qed.

Lemma skip_ws_rel (r r2 x x2 : str) (c : char) (y : str) :
  same_before r r2 x x2 -> Json.skip_ws x = c :: y -> suffix r y ->
  exists y2, Json.skip_ws x2 = c :: y2 /\ same_before r r2 y y2.
Proof.
  intros (q & -> & ->) H Hs. induction q as [|a q IH].
  - cbn [app] in H. pose proof (skip_ws_length r) as Hl.
    rewrite H in Hl. apply suffix_length in Hs. cbn [List.length] in Hl. lia.
  - cbn [app Json.skip_ws] in *. destruct (Json.is_whitespace a).
    + now apply IH.
    + injection H as <- <-. exists (q ++ r2). split; [reflexivity|].
      now exists q.
Qed.

Lemma scanstring_rel (r r2 x x2 a rest : str) :
  same_before r r2 x x2 -> Json.scanstring x = Json.Scanned a rest ->
  suffix r rest ->
  exists rest2, Json.scanstring x2 = Json.Scanned a rest2
                /\ same_before r r2 rest rest2.
Proof.
  intros (q & -> & ->) H [m Hm]. subst rest.
  destruct (scanstring_suffix _ _ _ H) as [[p Hp] _].
  rewrite app_assoc in Hp. apply app_inv_tail in Hp. subst q.
  exists (m ++ r2). split; [|now exists m].
  rewrite <- !app_assoc in *. now apply (scanstring_replace p (m ++ r)).
Qed.

Lemma match_number_rel (r r2 x x2 : str) (v : json) (rest : str) :
  ends_value r = true -> ends_value r2 = true ->
  same_before r r2 x x2 -> Json.match_number x = Json.Scanned v rest ->
  exists rest2, Json.match_number x2 = Json.Scanned v rest2
                /\ same_before r r2 rest rest2.
Proof.
  intros Hr Hr2 (q & -> & ->) H.
  destruct (match_number_local r Hr q v rest H) as (m & -> & H2).
  exists (m ++ r2). split; [now apply H2|now exists m].
Qed.

(** A literal none of whose characters ends a value is found, or not, in
    the same way. *)
Lemma strip_prefix_rel (p r r2 x x2 : str) :
  (forall c t, In c p -> ends_value (c :: t) = false) ->
  ends_value r = true -> ends_value r2 = true ->
  same_before r r2 x x2 ->
  match Str.strip_prefix p x with
  | Some rest =>
      exists rest2, Str.strip_prefix p x2 = Some rest2
                    /\ same_before r r2 rest rest2
  | None => Str.strip_prefix p x2 = None
  end.
Proof.
  intros Hp Hr Hr2 (q & -> & ->). revert q.
  induction p as [|a p IH]; intros q.
  - cbn [Str.strip_prefix]. exists (q ++ r2). split; [reflexivity|].
    now exists q.
  - assert (Hend : forall z, ends_value z = true ->
              Str.strip_prefix (a :: p) z = None).
    { intros [|b t] Hz; [reflexivity|]. cbn [Str.strip_prefix].
      destruct (N.eqb_spec a b) as [->|]; [|reflexivity].
      rewrite (Hp b t (or_introl eq_refl)) in Hz. discriminate. }
    destruct q as [|b q].
    + cbn [app]. now rewrite (Hend r Hr), (Hend r2 Hr2).
    + cbn [app Str.strip_prefix]. destruct (N.eqb a b); [|reflexivity].
      apply IH. intros c t Hc. apply Hp. now right.
Qed.

Lemma literal_chars (x : string) :
  forallb (fun c => negb (ends_value [c])) (lit x) = true ->
  forall c t, In c (lit x) -> ends_value (c :: t) = false.
Proof.
  intros H c t Hc. rewrite forallb_forall in H. specialize (H c Hc).
  now apply negb_true_iff in H.
Qed.

(** ** Values *)

Lemma scan_once_suffix (fuel : nat) (s : str) (v : json) (rest : str) :
  (2 * List.length s < fuel)%nat ->
  Json.scan_once fuel s = Json.Scanned v rest ->
  suffix rest s /\ (List.length rest < List.length s)%nat.
Proof.
  intros Hf H. destruct (scan_fuel fuel) as (Hv & _).
  destruct (Hv s Hf) as (_ & Hok). now destruct (Hok v rest H) as (? & ? & _).
Qed.

Lemma object_items_suffix (fuel : nat) (s : str) (acc : Json.dict)
    (v : json) (rest : str) :
  (2 * List.length s < fuel)%nat ->
  Json.object_items fuel s acc = Json.Scanned v rest ->
  suffix (ch "}" :: rest) s.
Proof.
  intros Hf H. destruct (scan_fuel fuel) as (_ & Ho & _).
  destruct (Ho s acc Hf) as (_ & Hok). exact (Hok v rest H).
Qed.

Lemma array_items_suffix (fuel : nat) (s : str) (acc : list json)
    (v : json) (rest : str) :
  (2 * List.length s + 1 < fuel)%nat ->
  Json.array_items fuel s acc = Json.Scanned v rest ->
  suffix (ch "]" :: rest) s.
Proof.
  intros Hf H. destruct (scan_fuel fuel) as (_ & _ & Ha).
  destruct (Ha s acc Hf) as (_ & Hok). now destruct (Hok v rest H).
Qed.

Lemma same_before_cons (r r2 : str) (c : char) (x y : str) :
  same_before r r2 x y -> same_before r r2 (c :: x) (c :: y).
Proof. intros (q & -> & ->). now exists (c :: q). Qed.

(** What comes after a closing bracket that a suffix of the text starts
    with. *)
Lemma suffix_after (r : str) (c : char) (rest : str) (c' : char) (y : str) :
  suffix r rest -> suffix (c :: rest) (c' :: y) -> suffix r y.
Proof.
  intros Hr Hs. apply suffix_strict with c'.
  - exact (suffix_trans Hr (suffix_tail Hs)).
  - apply suffix_length in Hr, Hs. cbn [List.length] in *. lia.
Qed.

Section ScanLocal.
Variables r r2 : str.
Hypothesis Hr : ends_value r = true.
Hypothesis Hr2 : ends_value r2 = true.

Local Notation "'rel'" := (same_before r r2).

Lemma literal_rel (x : string) (k : json) (s s2 : str) (v : json)
    (rest : str) (other : Json.scan json) (other2 : Json.scan json) :
  forallb (fun c => negb (ends_value [c])) (lit x) = true ->
  rel s s2 ->
  (other = Json.Scanned v rest ->
   exists rest2, other2 = Json.Scanned v rest2 /\ rel rest rest2) ->
  match Str.strip_prefix (lit x) s with
  | Some r1 => Json.Scanned k r1
  | None => other
  end = Json.Scanned v rest ->
  exists rest2,
    match Str.strip_prefix (lit x) s2 with
    | Some r1 => Json.Scanned k r1
    | None => other2
    end = Json.Scanned v rest2
    /\ rel rest rest2.
Proof.
  intros Hx Hrel Hother.
  pose proof (strip_prefix_rel (lit x) r r2 s s2 (literal_chars x Hx)
                Hr Hr2 Hrel) as HL.
  destruct (Str.strip_prefix (lit x) s) as [r1|].
  - destruct HL as (rest2 & -> & Hrel2). intros H. injection H as <- <-.
    now exists rest2.
  - rewrite HL. exact Hother.
Qed.

(** The scanner reads the same value from two texts that are the same
    before rests that end a value, and leaves rests of which the same
    holds. *)
Lemma scan_local (fuel : nat) :
  (forall s s2 v rest fuel2,
      (2 * List.length s < fuel)%nat -> (2 * List.length s2 < fuel2)%nat ->
      rel s s2 -> Json.scan_once fuel s = Json.Scanned v rest ->
      suffix r rest ->
      exists rest2, Json.scan_once fuel2 s2 = Json.Scanned v rest2
                    /\ rel rest rest2) /\
  (forall s s2 acc v rest fuel2,
      (2 * List.length s < fuel)%nat -> (2 * List.length s2 < fuel2)%nat ->
      rel s s2 -> Json.object_items fuel s acc = Json.Scanned v rest ->
      suffix r rest ->
      exists rest2, Json.object_items fuel2 s2 acc = Json.Scanned v rest2
                    /\ rel rest rest2) /\
  (forall s s2 acc v rest fuel2,
      (2 * List.length s + 1 < fuel)%nat ->
      (2 * List.length s2 + 1 < fuel2)%nat ->
      rel s s2 -> Json.array_items fuel s acc = Json.Scanned v rest ->
      suffix r rest ->
      exists rest2, Json.array_items fuel2 s2 acc = Json.Scanned v rest2
                    /\ rel rest rest2).
Proof.
  induction fuel as [|fuel (IHv & IHo & IHa)].
  { repeat split; intros; lia. }
  split; [|split].
  - (* scan_once *)
    intros s s2 v rest fuel2 Hf Hf2 Hrel H Hsuf.
    destruct fuel2 as [|fuel2]; [lia|].
    destruct s as [|c s1]; [discriminate|].
    pose proof (scan_once_suffix _ _ _ _ Hf H) as [Hs Hl].
    assert (Hr1 : suffix r s1).
    { apply suffix_strict with c; [exact (suffix_trans Hsuf Hs)|].
      apply suffix_length in Hsuf. cbn [List.length] in Hl. lia. }
    pose proof Hrel as Hrel0.
    destruct (same_before_tail _ _ _ _ _ Hrel Hr1) as (s1x & -> & Hrel1).
    pose proof (same_before_length _ _ _ _ Hrel1) as Hlen1.
    cbn [List.length] in Hf, Hf2.
    cbn [Json.scan_once] in H |- *.
    destruct (N.eqb c 34).
    { destruct (Json.scanstring s1) as [a rest1| |] eqn:E; try discriminate.
      cbn [Json.scan_map] in H. injection H as <- <-.
      destruct (scanstring_rel _ _ _ _ _ _ Hrel1 E Hsuf)
        as (rest2 & E2 & Hrel2).
      exists rest2. now rewrite E2. }
    destruct (isc "{" c).
    { pose proof (skip_ws_length s1) as Hw.
      destruct (Json.skip_ws s1) as [|c' s3] eqn:Ew; [discriminate|].
      cbn [List.length] in Hw.
      destruct (isc "}" c') eqn:Ec'.
      - injection H as <- <-.
        destruct (skip_ws_rel _ _ _ _ _ _ Hrel1 Ew Hsuf)
          as (y2 & Ew2 & Hrely).
        rewrite Ew2, Ec'. now exists y2.
      - assert (Hf3 : (2 * List.length (c' :: s3) < fuel)%nat)
          by (cbn [List.length]; lia).
        pose proof (object_items_suffix _ _ _ _ _ Hf3 H) as Hso.
        pose proof (suffix_after _ _ _ _ _ Hsuf Hso) as Hr3.
        destruct (skip_ws_rel _ _ _ _ _ _ Hrel1 Ew Hr3)
          as (y2 & Ew2 & Hrely).
        rewrite Ew2, Ec'.
        pose proof (same_before_length _ _ _ _ Hrely) as Hleny.
        apply (IHo (c' :: s3) (c' :: y2) [] v rest fuel2);
          try assumption.
        + cbn [List.length]. lia.
        + now apply same_before_cons. }
    destruct (isc "[" c).
    { pose proof (skip_ws_length s1) as Hw.
      destruct (Json.skip_ws s1) as [|c' s3] eqn:Ew; [discriminate|].
      cbn [List.length] in Hw.
      destruct (isc "]" c') eqn:Ec'.
      - injection H as <- <-.
        destruct (skip_ws_rel _ _ _ _ _ _ Hrel1 Ew Hsuf)
          as (y2 & Ew2 & Hrely).
        rewrite Ew2, Ec'. now exists y2.
      - assert (Hf3 : (2 * List.length (c' :: s3) + 1 < fuel)%nat)
          by (cbn [List.length]; lia).
        pose proof (array_items_suffix _ _ _ _ _ Hf3 H) as Hso.
        pose proof (suffix_after _ _ _ _ _ Hsuf Hso) as Hr3.
        destruct (skip_ws_rel _ _ _ _ _ _ Hrel1 Ew Hr3)
          as (y2 & Ew2 & Hrely).
        rewrite Ew2, Ec'.
        pose proof (same_before_length _ _ _ _ Hrely) as Hleny.
        apply (IHa (c' :: s3) (c' :: y2) [] v rest fuel2);
          try assumption.
        + cbn [List.length]. lia.
        + now apply same_before_cons. }
    revert H.
    apply (literal_rel "null" JNull _ _ _ _ _ _ eq_refl Hrel0).
    apply (literal_rel "true" (JBool true) _ _ _ _ _ _ eq_refl Hrel0).
    apply (literal_rel "false" (JBool false) _ _ _ _ _ _ eq_refl Hrel0).
    apply (literal_rel "NaN" (JFloat FNaN) _ _ _ _ _ _ eq_refl Hrel0).
    apply (literal_rel "Infinity" (JFloat (FInf false)) _ _ _ _ _ _ eq_refl
             Hrel0).
    apply (literal_rel "-Infinity" (JFloat (FInf true)) _ _ _ _ _ _ eq_refl
             Hrel0).
    now apply match_number_rel.
  - (* object_items *)
    intros s s2 acc v rest fuel2 Hf Hf2 Hrel H Hsuf.
    destruct fuel2 as [|fuel2]; [lia|].
    destruct s as [|q0 s1]; [discriminate|].
    cbn [Json.object_items] in H.
    destruct (N.eqb q0 34) eqn:Eq; [|discriminate].
    destruct (Json.scanstring s1) as [key t2| |] eqn:E1; try discriminate.
    destruct (Json.skip_ws t2) as [|c s3] eqn:E2; [discriminate|].
    destruct (isc ":" c) eqn:Ec; [|discriminate].
    destruct (Json.skip_ws s3) as [|c3 y3] eqn:E3w;
      [destruct fuel; discriminate|].
    destruct (Json.scan_once fuel (c3 :: y3)) as [v' s4| |] eqn:E3;
      try discriminate.
    destruct (Json.skip_ws s4) as [|d s5] eqn:E4; [discriminate|].
    cbv zeta in H.
    pose proof (scanstring_suffix _ _ _ E1) as [Hs1 Hl1].
    pose proof (suffix_skip_ws t2) as Hs2. rewrite E2 in Hs2.
    pose proof (skip_ws_length t2) as Hl2. rewrite E2 in Hl2.
    pose proof (suffix_skip_ws s3) as Hs3. rewrite E3w in Hs3.
    pose proof (skip_ws_length s3) as Hl3. rewrite E3w in Hl3.
    cbn [List.length] in Hf, Hf2, Hl2, Hl3.
    assert (Hf3 : (2 * List.length (c3 :: y3) < fuel)%nat)
      by (cbn [List.length]; lia).
    pose proof (scan_once_suffix _ _ _ _ Hf3 E3) as [Hs4 Hl4].
    pose proof (suffix_skip_ws s4) as Hs5. rewrite E4 in Hs5.
    pose proof (skip_ws_length s4) as Hl5. rewrite E4 in Hl5.
    cbn [List.length] in Hl4, Hl5.
    pose proof (skip_ws_length s5) as Hl6.
    assert (Hr5 : suffix r s5).
    { destruct (isc "}" d); [injection H as _ <-; exact Hsuf|].
      destruct (isc "," d); [|discriminate].
      assert (Hf5 : (2 * List.length (Json.skip_ws s5) < fuel)%nat) by lia.
      pose proof (object_items_suffix _ _ _ _ _ Hf5 H) as Hs6.
      apply (suffix_trans Hsuf), (suffix_trans (suffix_tail Hs6)).
      apply suffix_skip_ws. }
    assert (Hr4 : suffix r s4).
    { exact (suffix_trans (suffix_cons d _ _ Hr5) Hs5). }
    assert (Hry3 : suffix r y3).
    { apply suffix_strict with c3; [exact (suffix_trans Hr4 Hs4)|].
      apply suffix_length in Hr4. lia. }
    assert (Hr3 : suffix r s3).
    { exact (suffix_trans (suffix_cons c3 _ _ Hry3) Hs3). }
    assert (Hrt2 : suffix r t2).
    { exact (suffix_trans (suffix_cons c _ _ Hr3) Hs2). }
    assert (Hr1 : suffix r s1) by exact (suffix_trans Hrt2 Hs1).
    destruct (same_before_tail _ _ _ _ _ Hrel Hr1) as (s1x & -> & Hrel1).
    destruct (scanstring_rel _ _ _ _ _ _ Hrel1 E1 Hrt2)
      as (t2x & E1x & Hrel2).
    destruct (skip_ws_rel _ _ _ _ _ _ Hrel2 E2 Hr3) as (s3x & E2x & Hrel3).
    destruct (skip_ws_rel _ _ _ _ _ _ Hrel3 E3w Hry3)
      as (y3x & E3wx & Hrel3y).
    pose proof (same_before_length _ _ _ _ Hrel1) as Hn1.
    pose proof (same_before_length _ _ _ _ Hrel3y) as Hn3.
    cbn [List.length] in Hf2.
    assert (Hf3x : (2 * List.length (c3 :: y3x) < fuel2)%nat)
      by (cbn [List.length]; lia).
    destruct (IHv (c3 :: y3) (c3 :: y3x) v' s4 fuel2 Hf3 Hf3x
                (same_before_cons _ _ _ _ _ Hrel3y) E3 Hr4)
      as (s4x & E3x & Hrel4).
    destruct (skip_ws_rel _ _ _ _ _ _ Hrel4 E4 Hr5) as (s5x & E4x & Hrel5).
    cbn [Json.object_items]. rewrite Eq, E1x, E2x, Ec, E3wx, E3x, E4x.
    cbv zeta.
    destruct (isc "}" d).
    { injection H as <- <-. now exists s5x. }
    destruct (isc "," d); [|discriminate].
    destruct (Json.skip_ws s5) as [|c6 y6] eqn:E6;
      [destruct fuel; discriminate|].
    cbn [List.length] in Hl6.
    assert (Hf6 : (2 * List.length (c6 :: y6) < fuel)%nat)
      by (cbn [List.length]; lia).
    pose proof (object_items_suffix _ _ _ _ _ Hf6 H) as Hs6.
    pose proof (suffix_after _ _ _ _ _ Hsuf Hs6) as Hry6.
    destruct (skip_ws_rel _ _ _ _ _ _ Hrel5 E6 Hry6) as (y6x & E6x & Hrel6).
    rewrite E6x.
    pose proof (same_before_length _ _ _ _ Hrel6) as Hn6.
    apply (IHo (c6 :: y6) (c6 :: y6x) _ v rest fuel2); try assumption.
    + cbn [List.length]. lia.
    + now apply same_before_cons.
  - (* array_items *)
    intros s s2 acc v rest fuel2 Hf Hf2 Hrel H Hsuf.
    destruct fuel2 as [|fuel2]; [lia|].
    cbn [Json.array_items] in H.
    destruct (Json.scan_once fuel s) as [v' s1| |] eqn:E1; try discriminate.
    destruct (Json.skip_ws s1) as [|d t2] eqn:E2; [discriminate|].
    cbv zeta in H.
    assert (Hf1 : (2 * List.length s < fuel)%nat) by lia.
    pose proof (scan_once_suffix _ _ _ _ Hf1 E1) as [Hs1 Hl1].
    pose proof (suffix_skip_ws s1) as Hs2. rewrite E2 in Hs2.
    pose proof (skip_ws_length s1) as Hl2. rewrite E2 in Hl2.
    cbn [List.length] in Hl2.
    pose proof (skip_ws_length t2) as Hl3.
    assert (Hrt2 : suffix r t2).
    { destruct (isc "]" d); [injection H as _ <-; exact Hsuf|].
      destruct (isc "," d); [|discriminate].
      assert (Hf3 : (2 * List.length (Json.skip_ws t2) + 1 < fuel)%nat)
        by lia.
      pose proof (array_items_suffix _ _ _ _ _ Hf3 H) as Hs3.
      apply (suffix_trans Hsuf), (suffix_trans (suffix_tail Hs3)).
      apply suffix_skip_ws. }
    assert (Hr1 : suffix r s1).
    { exact (suffix_trans (suffix_cons d _ _ Hrt2) Hs2). }
    pose proof (same_before_length _ _ _ _ Hrel) as Hn.
    assert (Hf1x : (2 * List.length s2 < fuel2)%nat) by lia.
    destruct (IHv s s2 v' s1 fuel2 Hf1 Hf1x Hrel E1 Hr1)
      as (s1x & E1x & Hrel1).
    destruct (skip_ws_rel _ _ _ _ _ _ Hrel1 E2 Hrt2) as (t2x & E2x & Hrel2).
    cbn [Json.array_items]. rewrite E1x, E2x. cbv zeta.
    destruct (isc "]" d).
    { injection H as <- <-. now exists t2x. }
    destruct (isc "," d); [|discriminate].
    destruct (Json.skip_ws t2) as [|c3 y3] eqn:E3.
    { destruct fuel as [|fuel']; [discriminate|].
      cbn [Json.array_items] in H. destruct fuel'; discriminate. }
    cbn [List.length] in Hl3.
    assert (Hf3 : (2 * List.length (c3 :: y3) + 1 < fuel)%nat)
      by (cbn [List.length]; lia).
    pose proof (array_items_suffix _ _ _ _ _ Hf3 H) as Hs3.
    pose proof (suffix_after _ _ _ _ _ Hsuf Hs3) as Hry3.
    destruct (skip_ws_rel _ _ _ _ _ _ Hrel2 E3 Hry3) as (y3x & E3x & Hrel3).
    rewrite E3x.
    pose proof (same_before_length _ _ _ _ Hrel3) as Hn3.
    apply (IHa (c3 :: y3) (c3 :: y3x) _ v rest fuel2); try assumption.
    + cbn [List.length]. lia.
    + now apply same_before_cons.
Qed.

End ScanLocal.

(** ** Objects that [json.loads] accepts *)

Lemma skip_ws_split (s : str) :
  exists w, s = w ++ Json.skip_ws s /\ forallb Json.is_whitespace w = true.
Proof.
  induction s as [|c s (w & Hs & Hw)]; [now exists []|].
  cbn [Json.skip_ws]. destruct (Json.is_whitespace c) eqn:Ec.
  - exists (c :: w). cbn [app forallb]. rewrite Ec, Hw. now rewrite <- Hs.
  - now exists [].
Qed.

Lemma whitespace_blank (w : str) :
  forallb Json.is_whitespace w = true -> blank w = true.
Proof.
  unfold blank. induction w as [|c w IH]; [reflexivity|].
  cbn [forallb]. intros H. apply andb_prop in H as [Hc Hw].
  rewrite (IH Hw), andb_true_r. unfold Json.is_whitespace in Hc.
  repeat (apply orb_prop in Hc as [Hc|Hc]); apply N.eqb_eq in Hc; subst c;
    reflexivity.
Qed.

Lemma whitespace_ends (w : str) :
  forallb Json.is_whitespace w = true -> ends_value w = true.
Proof.
  destruct w as [|c w]; [reflexivity|]. cbn [forallb ends_value].
  intros H. apply andb_prop in H as [-> _]. reflexivity.
Qed.




(** A text that [json.loads] reads as an object is spaces, a text from
    brace to brace, and spaces; the scanner stops after the brace. *)
Lemma loads_object_shape (s : str) (d : Json.dict) :
  Json.loads s = Ok (JDict d) ->
  exists w x rest,
    s = w ++ (ch "{" :: x ++ [ch "}"]) ++ rest
    /\ forallb Json.is_whitespace w = true
    /\ forallb Json.is_whitespace rest = true
    /\ Json.scan_once (S (2 * List.length s))
         ((ch "{" :: x ++ [ch "}"]) ++ rest)
       = Json.Scanned (JDict d) rest.
Proof.
  unfold Json.loads. destruct (Str.startswith [65279] s); [discriminate|].
  destruct (Json.scan_once _ _) as [v rest| |] eqn:E; try discriminate.
  destruct (Json.skip_ws rest) eqn:Er; [|discriminate].
  intros H. injection H as ->. apply skip_ws_nil in Er.
  destruct (skip_ws_split s) as (w & Hs & Hw).
  assert (Hlen : (2 * List.length (Json.skip_ws s)
                  < S (2 * List.length s))%nat).
  { pose proof (skip_ws_length s). lia. }
  destruct (scan_fuel (S (2 * List.length s))) as (Hscan & _).
  destruct (Hscan _ Hlen) as (_ & Hshape).
  destruct (Hshape _ _ E) as (_ & _ & Hbrace).
  destruct (Hbrace eq_refl) as (s' & Hs' & [x Hx]).
  exists w, x, rest. repeat split; try assumption.
  - rewrite Hs at 1. rewrite Hs', Hx. cbn [app]. now rewrite <- app_assoc.
  - rewrite <- E, Hs', Hx. cbn [app]. now rewrite <- app_assoc.
Qed.

(** The scan of a text from brace to brace does not depend on the spaces
    that follow it. *)
Lemma loads_braced (x rest : str) (d : Json.dict) (fuel : nat) :
  forallb Json.is_whitespace rest = true ->
  (2 * List.length ((ch "{" :: x ++ [ch "}"]) ++ rest) < fuel)%nat ->
  Json.scan_once fuel ((ch "{" :: x ++ [ch "}"]) ++ rest)
  = Json.Scanned (JDict d) rest ->
  Json.loads (ch "{" :: x ++ [ch "}"]) = Ok (JDict d).
Proof.
  intros Hrest Hfuel E. unfold Json.loads.
  change (Str.startswith [65279] (ch "{" :: x ++ [ch "}"])) with false.
  cbv iota. change (Json.skip_ws (ch "{" :: x ++ [ch "}"]))
    with (ch "{" :: x ++ [ch "}"]).
  destruct (scan_local rest [] (whitespace_ends _ Hrest) eq_refl fuel)
    as (Hv & _).
  destruct (Hv _ (ch "{" :: x ++ [ch "}"]) _ _
              (S (2 * List.length (ch "{" :: x ++ [ch "}"])))
              Hfuel ltac:(lia)
              ltac:(exists (ch "{" :: x ++ [ch "}"]);
                    now rewrite app_nil_r)
              E (suffix_refl rest))
    as (rest2 & E2 & (q & Hq & ->)).
  apply eq_sym, app_same_tail in Hq. subst q. now rewrite E2.
Qed.

(** [json.loads] gives the same object on a text and on the text
    trimmed. *)
Lemma loads_strip (raw : str) (d : Json.dict) :
  Json.loads raw = Ok (JDict d) ->
  Json.loads (Str.strip raw) = Ok (JDict d).
Proof.
  intros H.
  destruct (loads_object_shape raw d H) as (w & x & rest & Hraw & Hw & Hrest & E).
  assert (Hstrip : Str.strip raw = ch "{" :: x ++ [ch "}"]).
  { rewrite Hraw.
    rewrite (strip_padding w _ rest (whitespace_blank _ Hw)
               (whitespace_blank _ Hrest)).
    now apply strip_fixed. }
  rewrite Hstrip. refine (loads_braced x rest d _ Hrest _ E).
  rewrite Hraw, !length_app. lia.
Qed.


(** ** An object ends at its brace *)








(** ** The turn as a whole *)


(** X2: [main] is all or nothing.  Either it exits with 0, has printed
    nothing on standard error and has written one line, the encoding of a
    JSON object; or it exits with 1, has written nothing on standard
    output and has printed one exception, the one the run raised. *)
Theorem main_all_or_nothing (w : World) :
  (snd (main w) = 0%Z
   /\ stderr (fst (main w)) = []
   /\ exists d, stdout (fst (main w)) = Json.dumps false (JDict d) ++ [10])
  \/ (snd (main w) = 1%Z
      /\ stdout (fst (main w)) = []
      /\ exists e,
           stderr (fst (main w)) = [e]
           /\ snd (run_from_stdin w) = Raise e).
Proof.
  unfold main.
  destruct (run_cases w)
    as [[e ->]|(state & env_type & c & k & _ & _ & _ & _
                & [[_ ->]|(skill & _ & [[e ->]|[d ->]])])].
  - right. repeat split. now exists e.
  - right. repeat split. now eexists.
  - right. repeat split. now exists e.
  - left. repeat split. exists d. cbn [fst stdout]. now rewrite app_nil_r.
Qed.

(** X3: the turn ends as extraction ends.  For an accepted input with a
    credential and a readable skill document, when the provider answers
    with a completion whose content is a text, [main] exits with 0 after
    writing the encoding of the action extracted from that text and a
    line feed, or exits with 1 after printing the error of extraction,
    with nothing on standard output. *)
Theorem turn_follows_extraction (w : World) (state env_type : json)
    (c : char) (k skill_prompt body : str) (data : json) (raw : str) :
  Json.loads (stdin w) = Ok state ->
  Py.get state (lit "env_type") = Ok env_type ->
  Py.truthy env_type = true ->
  api_key_of w = Some (c :: k) ->
  files w (skill_path_of w env_type) = Some skill_prompt ->
  endpoint w (request_of w (c :: k) skill_prompt state) = Response body ->
  Json.loads body = Ok data ->
  message_content data = Ok (JStr raw) ->
  main w
  = match _extract_json_object raw with
    | Ok action =>
        ([Opened (skill_path_of w env_type);
          Requested (request_of w (c :: k) skill_prompt state);
          Stdout (Json.dumps false action); Stdout [10]],
         0%Z)
    | Raise e =>
        ([Opened (skill_path_of w env_type);
          Requested (request_of w (c :: k) skill_prompt state);
          Stderr e],
         1%Z)
    end.
Proof.
  intros Hstate Hget Htruthy Hkey Hfile Hresp Hbody Hcontent.
  assert (Hk : Py.truthy_str (api_key_of w) = true) by now rewrite Hkey.
  unfold main.
  rewrite (run_call w state env_type skill_prompt Hstate Hget Htruthy Hk
             Hfile), call_openrouter_eq, Hkey.
  cbv zeta. rewrite Hresp, Hbody, Hcontent. cbn [as_str].
  now destruct (_extract_json_object raw).
Qed.

(** The turn of the repository's test for the [rpg] script: the stub
    provider's reply is a fenced object. *)
Lemma turn_follows_extraction_witness :
  main
    (stub_world (js "{'env_type': 'rpg', 'game_state': {'turn': 1}}")
       (Some (lit "test-key"))
       (Json.dumps false
          (completion
             (JStr (lit "```json" ++ [10]
                    ++ js "{'action':'explore','target':'ruins'}" ++ [10]
                    ++ lit "```")))))
  = ([Opened (lit "/workspace/skills/rpg-player.md");
      Requested
        (openrouter_request (lit "test-key") DEFAULT_OPENROUTER_URL
           DEFAULT_OPENROUTER_MODEL (lit "skill prompt")
           (JDict [(lit "env_type", JStr (lit "rpg"));
                   (lit "game_state", JDict [(lit "turn", JInt 1)])]));
      Stdout (js "{'action': 'explore', 'target': 'ruins'}");
      Stdout [10]],
     0%Z).
Proof.
  exact (turn_follows_extraction
           (stub_world (js "{'env_type': 'rpg', 'game_state': {'turn': 1}}")
              (Some (lit "test-key"))
              (Json.dumps false
                 (completion
                    (JStr (lit "```json" ++ [10]
                           ++ js "{'action':'explore','target':'ruins'}"
                           ++ [10] ++ lit "```")))))
           (JDict [(lit "env_type", JStr (lit "rpg"));
                   (lit "game_state", JDict [(lit "turn", JInt 1)])])
           (JStr (lit "rpg")) (ch "t") (lit "est-key") (lit "skill prompt")
           (Json.dumps false
              (completion
                 (JStr (lit "```json" ++ [10]
                        ++ js "{'action':'explore','target':'ruins'}"
                        ++ [10] ++ lit "```"))))
           (completion
              (JStr (lit "```json" ++ [10]
                     ++ js "{'action':'explore','target':'ruins'}"
                     ++ [10] ++ lit "```")))
           (lit "```json" ++ [10]
            ++ js "{'action':'explore','target':'ruins'}" ++ [10]
            ++ lit "```")
           eq_refl eq_refl eq_refl eq_refl eq_refl eq_refl eq_refl eq_refl).
Defined.

(** X4: the action is written as one line.  Whatever a successful run
    wrote on standard output is a text of printable ASCII characters,
    without any line feed, followed by one line feed: what is not
    printable in the action is written as an escape. *)
Theorem output_single_line (w : World) (t : list event) :
  run_from_stdin w = (t, Ok tt) ->
  exists line,
    stdout t = line ++ [10]
    /\ forallb printable line = true
    /\ ~ In 10 line.
Proof.
  intros H.
  destruct (run_cases w)
    as [[e He]|(state & env_type & c & k & _ & _ & _ & _
                & [[_ He]|(skill & _ & [[e He]|[d He]])])];
    rewrite He in H; try discriminate.
  injection H as <-. exists (Json.dumps false (JDict d)).
  split; [cbn [stdout]; now rewrite app_nil_r|].
  split; [apply printable_dumps|].
  apply printable_no_line_feed, printable_dumps.
Qed.

(** An action whose text holds a line feed and a character beyond ASCII. *)
Lemma output_single_line_witness :
  exists line,
    stdout
      [Opened (lit "/workspace/skills/rpg-player.md");
       Requested
         (openrouter_request (lit "k") DEFAULT_OPENROUTER_URL
            DEFAULT_OPENROUTER_MODEL (lit "skill prompt")
            (JDict [(lit "env_type", JStr (lit "rpg"))]));
       Stdout (Json.dumps false (JDict [(lit "say", JStr [233; 10])]));
       Stdout [10]]
    = line ++ [10]
    /\ forallb printable line = true
    /\ ~ In 10 line.
Proof.
  exact (output_single_line
           (stub_world (js "{'env_type': 'rpg'}") (Some (lit "k"))
              (Json.dumps false
                 (completion
                    (JStr (Json.dumps false
                             (JDict [(lit "say", JStr [233; 10])]))))))
           _ eq_refl).
Defined.



(** ** Failures of the exchange *)

(** X6: when the endpoint answers the request with an HTTP error, or
    cannot be reached, the turn prints [OpenRouter request failed:]
    followed by the status code and the body of the answer, or by the
    reason, and exits with 1; the skill document was opened, one request
    was sent, and nothing was written on standard output. *)
Theorem provider_failure_reported (w : World) (state env_type : json)
    (c : char) (k skill_prompt : str) :
  Json.loads (stdin w) = Ok state ->
  Py.get state (lit "env_type") = Ok env_type ->
  Py.truthy env_type = true ->
  api_key_of w = Some (c :: k) ->
  files w (skill_path_of w env_type) = Some skill_prompt ->
  (forall code details,
      endpoint w (request_of w (c :: k) skill_prompt state)
      = HTTPError code details ->
      main w
      = ([Opened (skill_path_of w env_type);
          Requested (request_of w (c :: k) skill_prompt state);
          Stderr
            (RuntimeError
               (lit "OpenRouter request failed: " ++ Json.int_repr code
                ++ lit " " ++ details))],
         1%Z))
  /\ (forall reason,
        endpoint w (request_of w (c :: k) skill_prompt state)
        = URLError reason ->
        main w
        = ([Opened (skill_path_of w env_type);
            Requested (request_of w (c :: k) skill_prompt state);
            Stderr
              (RuntimeError (lit "OpenRouter request failed: " ++ reason))],
           1%Z)).
Proof.
  intros Hstate Hget Htruthy Hkey Hfile.
  assert (Hk : Py.truthy_str (api_key_of w) = true) by now rewrite Hkey.
  split; intros; unfold main;
    rewrite (run_call w state env_type skill_prompt Hstate Hget Htruthy Hk
               Hfile), call_openrouter_eq, Hkey; cbv zeta;
    now rewrite H.
Qed.

(** A provider that answers 429, and one that cannot be reached. *)
Lemma provider_failure_reported_witness :
  main (with_endpoint
          (stub_world (js "{'env_type': 'rpg'}") (Some (lit "k")) [])
          (fun _ => HTTPError 429 (lit "slow down")))
  = ([Opened (lit "/workspace/skills/rpg-player.md");
      Requested
        (openrouter_request (lit "k") DEFAULT_OPENROUTER_URL
           DEFAULT_OPENROUTER_MODEL (lit "skill prompt")
           (JDict [(lit "env_type", JStr (lit "rpg"))]));
      Stderr (RuntimeError (lit "OpenRouter request failed: 429 slow down"))],
     1%Z)
  /\ main (with_endpoint
             (stub_world (js "{'env_type': 'rpg'}") (Some (lit "k")) [])
             (fun _ => URLError (lit "[Errno 111] Connection refused")))
     = ([Opened (lit "/workspace/skills/rpg-player.md");
         Requested
           (openrouter_request (lit "k") DEFAULT_OPENROUTER_URL
              DEFAULT_OPENROUTER_MODEL (lit "skill prompt")
              (JDict [(lit "env_type", JStr (lit "rpg"))]));
         Stderr
           (RuntimeError
              (lit "OpenRouter request failed: [Errno 111] Connection refused"))],
        1%Z).
Proof.
  split.
  - exact (proj1 (provider_failure_reported
                    (with_endpoint
                       (stub_world (js "{'env_type': 'rpg'}") (Some (lit "k")) [])
                       (fun _ => HTTPError 429 (lit "slow down")))
                    (JDict [(lit "env_type", JStr (lit "rpg"))])
                    (JStr (lit "rpg")) (ch "k") [] (lit "skill prompt")
                    eq_refl eq_refl eq_refl eq_refl eq_refl)
             429%Z (lit "slow down") eq_refl).
  - exact (proj2 (provider_failure_reported
                    (with_endpoint
                       (stub_world (js "{'env_type': 'rpg'}") (Some (lit "k")) [])
                       (fun _ => URLError (lit "[Errno 111] Connection refused")))
                    (JDict [(lit "env_type", JStr (lit "rpg"))])
                    (JStr (lit "rpg")) (ch "k") [] (lit "skill prompt")
                    eq_refl eq_refl eq_refl eq_refl eq_refl)
             (lit "[Errno 111] Connection refused") eq_refl).
Defined.



(** ** The skill document *)



(** X9: where the skill document is looked for, for an [env_type] that
    is a text.  When it starts with a slash the configured directory is
    dropped and the path is the text followed by [-player.md].  When it
    holds no slash the document is a file of the configured directory
    itself, or of the working directory when [SANDBOX_SKILLS_DIR] is set
    to the empty text, which the default does not replace. *)
Theorem skill_path_cases (w : World) (state : json) (s : str) :
  Json.loads (stdin w) = Ok state ->
  Py.get state (lit "env_type") = Ok (JStr s) ->
  s <> [] ->
  Py.truthy_str (api_key_of w) = true ->
  (Str.startswith [Posixpath.sep] s = true ->
   opened (fst (run_from_stdin w)) = [s ++ lit "-player.md"])
  /\ (existsb (isc "/") s = false ->
      existsb (isc "/") (s ++ lit "-player.md") = false
      /\ opened (fst (run_from_stdin w))
         = [match skills_dir_of w with
            | [] => s ++ lit "-player.md"
            | _ :: _ =>
                skills_dir_of w
                ++ (if Posixpath.endswith_sep (skills_dir_of w) then []
                    else [Posixpath.sep])
                ++ s ++ lit "-player.md"
            end])
  /\ (existsb (isc "/") s = false ->
      environ w (lit "SANDBOX_SKILLS_DIR") = Some [] ->
      opened (fst (run_from_stdin w)) = [s ++ lit "-player.md"]).
Proof.
  intros Hstate Hget Hs Hkey.
  assert (Htruthy : Py.truthy (JStr s) = true) by now destruct s.
  rewrite (run_opens w state (JStr s) Hstate Hget Htruthy Hkey).
  unfold skill_path_of. cbn [format_with].
  assert (Hrel : existsb (isc "/") s = false ->
                 Posixpath.join (skills_dir_of w) (s ++ lit "-player.md")
                 = match skills_dir_of w with
                   | [] => s ++ lit "-player.md"
                   | _ :: _ =>
                       skills_dir_of w
                       ++ (if Posixpath.endswith_sep (skills_dir_of w)
                           then [] else [Posixpath.sep])
                       ++ s ++ lit "-player.md"
                   end).
  { intros Hno.
    rewrite (join_relative _ _ (startswith_sep_false s _ Hs Hno)).
    destruct (skills_dir_of w) as [|x dir]; [reflexivity|].
    now destruct (Posixpath.endswith_sep (x :: dir)). }
  split; [|split].
  - intros Habs. unfold Posixpath.join.
    now rewrite (startswith_app _ _ _ Habs).
  - intros Hno. split; [|now rewrite (Hrel Hno)].
    rewrite existsb_app, Hno. reflexivity.
  - intros Hno Hdir. rewrite (Hrel Hno). unfold skills_dir_of.
    now rewrite Hdir.
Qed.

(** An absolute [env_type], and one without a slash. *)
Lemma skill_path_cases_witness :
  opened
    (fst (run_from_stdin
            (stub_world (js "{'env_type': '/etc/x'}") (Some (lit "k")) [])))
  = [lit "/etc/x-player.md"]
  /\ opened
       (fst (run_from_stdin
               (stub_world (js "{'env_type': 'rpg'}") (Some (lit "k")) [])))
     = [lit "/workspace/skills/rpg-player.md"].
Proof.
  split.
  - refine (proj1 (skill_path_cases
                     (stub_world (js "{'env_type': '/etc/x'}")
                        (Some (lit "k")) [])
                     (JDict [(lit "env_type", JStr (lit "/etc/x"))])
                     (lit "/etc/x") eq_refl eq_refl _ eq_refl) eq_refl).
    intros H. discriminate H.
  - refine (proj2 (proj1 (proj2 (skill_path_cases
                     (stub_world (js "{'env_type': 'rpg'}")
                        (Some (lit "k")) [])
                     (JDict [(lit "env_type", JStr (lit "rpg"))])
                     (lit "rpg") eq_refl eq_refl _ eq_refl)) eq_refl)).
    intros H. discriminate H.
Defined.

(** ** The request and the user prompt *)

(** X10: the body of the request is ASCII, whatever the skill prompt, the
    model name and the state hold, so encoding it to UTF-8 cannot fail;
    and a server that decodes it with [json.loads] gets the payload back:
    the model, then the system message with the skill prompt as it was
    read and the user message with the prompt built from the state.  The
    credential travels in the [Authorization] header after [Bearer]. *)
Theorem request_shape (api_key url model prompt_skill : str) (state : json) :
  text_ok model = true -> text_ok prompt_skill = true ->
  forallb is_ascii
    (req_data (openrouter_request api_key url model prompt_skill state))
  = true
  /\ Json.loads
       (req_data (openrouter_request api_key url model prompt_skill state))
     = Ok (JDict
             [(lit "model", JStr model);
              (lit "messages",
               JList
                 [JDict [(lit "role", JStr (lit "system"));
                         (lit "content", JStr prompt_skill)];
                  JDict [(lit "role", JStr (lit "user"));
                         (lit "content",
                          JStr (_build_user_prompt state))]])])
  /\ req_authorization
       (openrouter_request api_key url model prompt_skill state)
     = lit "Bearer " ++ api_key.
Proof.
  intros Hmodel Hskill. split; [apply ascii_dumps|]. split; [|reflexivity].
  unfold openrouter_request. cbn [req_data]. apply loads_dumps.
  - cbn [plain forallb fst snd].
    rewrite !text_ok_lit, Hmodel, Hskill.
    now rewrite (ascii_text_ok _ (ascii_build_user_prompt state)).
  - reflexivity.
Qed.

(** The request of the repository's test for the [rpg] script. *)
Lemma request_shape_witness :
  forallb is_ascii
    (req_data
       (openrouter_request (lit "test-key") DEFAULT_OPENROUTER_URL
          DEFAULT_OPENROUTER_MODEL (lit "rpg skill prompt")
          (JDict [(lit "env_type", JStr (lit "rpg"))])))
  = true
  /\ Json.loads
       (req_data
          (openrouter_request (lit "test-key") DEFAULT_OPENROUTER_URL
             DEFAULT_OPENROUTER_MODEL (lit "rpg skill prompt")
             (JDict [(lit "env_type", JStr (lit "rpg"))])))
     = Ok (JDict
             [(lit "model", JStr DEFAULT_OPENROUTER_MODEL);
              (lit "messages",
               JList
                 [JDict [(lit "role", JStr (lit "system"));
                         (lit "content", JStr (lit "rpg skill prompt"))];
                  JDict [(lit "role", JStr (lit "user"));
                         (lit "content",
                          JStr
                            (_build_user_prompt
                               (JDict [(lit "env_type", JStr (lit "rpg"))])))]])])
  /\ req_authorization
       (openrouter_request (lit "test-key") DEFAULT_OPENROUTER_URL
          DEFAULT_OPENROUTER_MODEL (lit "rpg skill prompt")
          (JDict [(lit "env_type", JStr (lit "rpg"))]))
     = lit "Bearer " ++ lit "test-key".
Proof.
  exact (request_shape (lit "test-key") DEFAULT_OPENROUTER_URL
           DEFAULT_OPENROUTER_MODEL (lit "rpg skill prompt")
           (JDict [(lit "env_type", JStr (lit "rpg"))]) eq_refl eq_refl).
Defined.

(** X11: nothing of the state is lost in the prompt.  The prompt is the
    fixed directive followed by the encoding of the state, and decoding
    that encoding gives the state back with the keys of every object in
    order, which is the same mapping as the state. *)
Theorem prompt_state_readable (state : json) :
  plain state = true -> distinct_keys state = true ->
  _build_user_prompt state = prompt_directive ++ Json.dumps true state
  /\ Json.loads (Json.dumps true state) = Ok (canon state)
  /\ same_mapping state (canon state).
Proof.
  intros Hplain Hkeys. split; [apply build_user_prompt_eq|].
  split; [now apply loads_dumps_sorted|apply same_mapping_canon].
Qed.

(** The state of the repository's test, with one more key. *)
Lemma prompt_state_readable_witness :
  _build_user_prompt
    (JDict [(lit "env_type", JStr (lit "rpg"));
            (lit "game_state",
             JDict [(lit "turn", JInt 1); (lit "hp", JInt 2)])])
  = prompt_directive
    ++ Json.dumps true
         (JDict [(lit "env_type", JStr (lit "rpg"));
                 (lit "game_state",
                  JDict [(lit "turn", JInt 1); (lit "hp", JInt 2)])])
  /\ Json.loads
       (Json.dumps true
          (JDict [(lit "env_type", JStr (lit "rpg"));
                  (lit "game_state",
                   JDict [(lit "turn", JInt 1); (lit "hp", JInt 2)])]))
     = Ok (canon
             (JDict [(lit "env_type", JStr (lit "rpg"));
                     (lit "game_state",
                      JDict [(lit "turn", JInt 1); (lit "hp", JInt 2)])]))
  /\ same_mapping
       (JDict [(lit "env_type", JStr (lit "rpg"));
               (lit "game_state",
                JDict [(lit "turn", JInt 1); (lit "hp", JInt 2)])])
       (canon
          (JDict [(lit "env_type", JStr (lit "rpg"));
                  (lit "game_state",
                   JDict [(lit "turn", JInt 1); (lit "hp", JInt 2)])])).
Proof.
  exact (prompt_state_readable
           (JDict [(lit "env_type", JStr (lit "rpg"));
                   (lit "game_state",
                    JDict [(lit "turn", JInt 1); (lit "hp", JInt 2)])])
           eq_refl eq_refl).
Defined.

(** X12: two states that are rendered to the same prompt are the same
    mapping: they differ at most in the order of the keys of their
    objects.  With the determinism of the prompt, the prompt tells states
    apart exactly up to key order. *)
Theorem prompt_injective (s1 s2 : json) :
  plain s1 = true -> plain s2 = true ->
  distinct_keys s1 = true -> distinct_keys s2 = true ->
  _build_user_prompt s1 = _build_user_prompt s2 ->
  same_mapping s1 s2.
Proof.
  intros Hp1 Hp2 Hk1 Hk2 H. rewrite !build_user_prompt_eq in H.
  apply app_inv_head in H. apply canon_same_mapping.
  pose proof (loads_dumps_sorted s1 Hp1 Hk1) as H1.
  rewrite H, (loads_dumps_sorted s2 Hp2 Hk2) in H1. now injection H1.
Qed.

Lemma prompt_injective_witness :
  same_mapping
    (JDict [(lit "turn", JInt 1); (lit "hp", JInt 2)])
    (JDict [(lit "hp", JInt 2); (lit "turn", JInt 1)]).
Proof.
  exact (prompt_injective
           (JDict [(lit "turn", JInt 1); (lit "hp", JInt 2)])
           (JDict [(lit "hp", JInt 2); (lit "turn", JInt 1)])
           eq_refl eq_refl eq_refl eq_refl eq_refl).
Defined.

(** ** Extraction *)

(** X13: extraction does not depend on the spaces around the reply: line
    feeds, tabs and the other characters [str.strip] removes, before and
    after it, change neither the action nor the failure. *)
Theorem extract_ignores_padding (a raw b : str) :
  blank a = true -> blank b = true ->
  _extract_json_object (a ++ raw ++ b) = _extract_json_object raw.
Proof.
  intros Ha Hb. unfold _extract_json_object, fenced_candidate.
  now rewrite (strip_padding a raw b Ha Hb).
Qed.

Lemma extract_ignores_padding_witness :
  _extract_json_object
    ([10; 32] ++ js "I choose: {'action': 'wait'} done." ++ [32; 160; 10])
  = _extract_json_object (js "I choose: {'action': 'wait'} done.").
Proof.
  exact (extract_ignores_padding [10; 32]
           (js "I choose: {'action': 'wait'} done.") [32; 160; 10]
           eq_refl eq_refl).
Defined.

(** X14: a reply that is a JSON object.  When [json.loads] reads the
    whole reply as an object, whatever its layout and the values it
    holds, and the reply holds no three backticks in a row, extraction
    returns that object. *)
Theorem direct_object_reply (raw : str) (d : Json.dict) :
  fence_free raw = true -> Json.loads raw = Ok (JDict d) ->
  _extract_json_object raw = Ok (JDict d).
Proof.
  intros Hfree Hloads. unfold _extract_json_object, fenced_candidate.
  destruct (strip_infix raw) as (a & b & Hraw).
  assert (Hfree' : fence_free (Str.strip raw) = true).
  { apply (fence_free_infix a _ b). now rewrite <- Hraw. }
  rewrite (search_no_fence _ Hfree'). unfold parse_attempts.
  now rewrite (loads_strip raw d Hloads).
Qed.

(** An object on several lines, with a number that is not an integer. *)
Lemma direct_object_reply_witness :
  _extract_json_object
    ([10] ++ js "{ 'action' : 'move'," ++ [10]
     ++ js "  'speed' : 1.5, 'path' : [ ] }" ++ [10])
  = Ok (JDict [(lit "action", JStr (lit "move"));
               (lit "speed", JFloat (FDec false 15 (-1)));
               (lit "path", JList [])]).
Proof.
  exact (direct_object_reply
           ([10] ++ js "{ 'action' : 'move'," ++ [10]
            ++ js "  'speed' : 1.5, 'path' : [ ] }" ++ [10])
           [(lit "action", JStr (lit "move"));
            (lit "speed", JFloat (FDec false 15 (-1)));
            (lit "path", JList [])]
           eq_refl eq_refl).
Defined.







(** X18: an action is never made up or repaired.  Whatever extraction
    returns is what [json.loads] gives on one contiguous piece of the
    reply, taken as it stands. *)
Theorem extract_sound (raw : str) (v : json) :
  _extract_json_object raw = Ok v ->
  exists a b c, raw = a ++ b ++ c /\ Json.loads b = Ok v.
Proof.
  unfold _extract_json_object. intros H.
  apply parse_attempts_piece in H as (a & b & c & Hcand & Hb).
  destruct (candidate_infix raw) as (a' & c' & Hraw).
  exists (a' ++ a), b, (c ++ c'). split; [|exact Hb].
  rewrite Hraw at 1. rewrite Hcand. now rewrite <- !app_assoc.
Qed.

Lemma extract_sound_witness :
  exists a b c,
    js "I choose: {'action': 'wait'} done." = a ++ b ++ c
    /\ Json.loads b = Ok (JDict [(lit "action", JStr (lit "wait"))]).
Proof.
  exact (extract_sound (js "I choose: {'action': 'wait'} done.")
           (JDict [(lit "action", JStr (lit "wait"))]) eq_refl).
Defined.
